(** * Honeypot scam detector: a shallow embedding of [honeypot_api.py]

    The development follows the layout of the Python module:
    character classes and the fragment of Python's [re] that the module
    uses, the session store ([SessionManager]), the entity extractor
    ([update_intelligence]), the classifier ([ScamDetector.detect]), the
    strategist ([HoneypotAgent]) and the two request handlers together
    with [send_final_result].

    Modelling conventions.
    - A Python [str] is a [string] of 7-bit characters; characters above
      127 are carried along as ordinary symbols (not word characters, not
      digits, not white space, unchanged by [lower] and [upper]).
    - The module-level [session_manager.sessions] dict is a
      [gmap string Session]; every function that touches it is written in
      a state monad over the [World].
    - What the handler cannot decide itself is an explicit input ([Env]):
      the index drawn by [random.choice], the clock, and the outcome of
      each [requests.post] attempt. *)

From Stdlib Require Import Ascii String DecimalString QArith.
From stdpp Require Import gmap strings list.

Local Open Scope string_scope.

(** ** Characters and strings *)

Module Chars.

Definition code (c : ascii) : nat := nat_of_ascii c.

Definition between (lo hi : nat) (c : ascii) : bool :=
  (lo <=? code c)%nat && (code c <=? hi)%nat.

Definition is_digit : ascii → bool := between 48 57.
Definition is_upper : ascii → bool := between 65 90.
Definition is_lower : ascii → bool := between 97 122.

(** [\w] on 7-bit text: letters, digits and the underscore. *)
Definition is_word (c : ascii) : bool :=
  is_digit c || is_upper c || is_lower c || Ascii.eqb c "_".

(** [\s] on 7-bit text, as [str] patterns see it: tab, line feed,
    vertical tab, form feed, carriage return, the four separators
    0x1c-0x1f and the blank. *)
Definition is_space (c : ascii) : bool :=
  between 9 13 c || between 28 31 c || Ascii.eqb c " ".

Definition is_upper_or_digit (c : ascii) : bool := is_upper c || is_digit c.

(** [.] without [re.DOTALL]: everything but the line feed. *)
Definition not_newline (c : ascii) : bool := negb (Ascii.eqb c "010").

Definition non_space (c : ascii) : bool := negb (is_space c).

(** [[-\s]] *)
Definition dash_or_space (c : ascii) : bool := Ascii.eqb c "-" || is_space c.

(** [[\w\.-]] *)
Definition upi_local (c : ascii) : bool :=
  is_word c || Ascii.eqb c "." || Ascii.eqb c "-".

(** [[\w-]] *)
Definition word_or_dash (c : ascii) : bool := is_word c || Ascii.eqb c "-".

Definition lower_char (c : ascii) : ascii :=
  if is_upper c then ascii_of_nat (code c + 32) else c.

Definition upper_char (c : ascii) : ascii :=
  if is_lower c then ascii_of_nat (code c - 32) else c.

End Chars.

Module Str.

Fixpoint map (f : ascii → ascii) (s : string) : string :=
  match s with
  | EmptyString => EmptyString
  | String c s' => String (f c) (map f s')
  end.

(** [str.lower()] and [str.upper()] *)
Definition lower : string → string := map Chars.lower_char.
Definition upper : string → string := map Chars.upper_char.

(** [s.replace(c, "")] for a one-character [c] *)
Fixpoint remove_char (c : ascii) (s : string) : string :=
  match s with
  | EmptyString => EmptyString
  | String x s' =>
      if Ascii.eqb x c then remove_char c s' else String x (remove_char c s')
  end.

(** [w in s] on strings: [w] occurs as a contiguous piece of [s]. *)
Fixpoint contains (w s : string) : bool :=
  String.prefix w s ||
  match s with
  | EmptyString => false
  | String _ s' => contains w s'
  end.

Fixpoint forallb (f : ascii → bool) (s : string) : bool :=
  match s with
  | EmptyString => true
  | String c s' => f c && forallb f s'
  end.

(** The character a position after [s] has behind it, [prev] being the
    one before [s]. *)
Fixpoint last (prev : option ascii) (s : string) : option ascii :=
  match s with
  | EmptyString => prev
  | String c s' => last (Some c) s'
  end.

(** [str(n)] for a non-negative [int] *)
Definition of_nat (n : nat) : string :=
  DecimalString.NilZero.string_of_uint (Nat.to_uint n).

End Str.

(** ** The fragment of [re] used by the module

    Every quantifier in the module's patterns ranges over a single
    character class ([.*], [\d{9,18}], [[^\s]+], ...), so repetition is a
    constructor over a class with its bounds.  Matching is the
    backtracking search of [re]: alternatives in order, quantifiers
    greedy, the first success in that order wins. *)

Module Re.

Inductive regex : Type :=
| Eps
| Chr (c : ascii → bool)
| Seq (r1 r2 : regex)
| Alt (r1 r2 : regex)
| Opt (r : regex)
| Rep (c : ascii → bool) (lo : nat) (hi : option nat)
| WordB.

Definition Lit (a : ascii) : regex := Chr (Ascii.eqb a).

Fixpoint Word (s : string) : regex :=
  match s with
  | EmptyString => Eps
  | String a EmptyString => Lit a
  | String a s' => Seq (Lit a) (Word s')
  end.

Fixpoint OneOf (rs : list regex) : regex :=
  match rs with
  | [] => Eps
  | [r] => r
  | r :: rs' => Alt r (OneOf rs')
  end.

Definition Words (ws : list string) : regex := OneOf (List.map Word ws).

Fixpoint Cat (rs : list regex) : regex :=
  match rs with
  | [] => Eps
  | [r] => r
  | r :: rs' => Seq r (Cat rs')
  end.

Definition Star (c : ascii → bool) : regex := Rep c 0 None.
Definition Plus (c : ascii → bool) : regex := Rep c 1 None.
Definition Times (c : ascii → bool) (n : nat) : regex := Rep c n (Some n).
Definition Any : regex := Star Chars.not_newline.

(** A continuation receives the character before the current position
    (for [\b]) and the rest of the input. *)
Definition kont (A : Type) : Type := option ascii → string → option A.

Definition or_else {A} (x y : option A) : option A :=
  match x with Some a => Some a | None => y end.

Definition room (hi : option nat) : bool :=
  match hi with Some 0 => false | _ => true end.

Definition less (hi : option nat) : option nat :=
  match hi with Some h => Some (Nat.pred h) | None => None end.

Fixpoint rep_greedy {A} (c : ascii → bool) (lo : nat) (hi : option nat)
    (prev : option ascii) (s : string) (k : kont A) {struct s} : option A :=
  let stop := if (lo =? 0)%nat then k prev s else None in
  match s with
  | String x s' =>
      if c x && room hi
      then or_else (rep_greedy c (Nat.pred lo) (less hi) (Some x) s' k) stop
      else stop
  | EmptyString => stop
  end.

Definition word_before (prev : option ascii) : bool :=
  match prev with Some p => Chars.is_word p | None => false end.

Definition word_after (s : string) : bool :=
  match s with String x _ => Chars.is_word x | EmptyString => false end.

(** [\b]: exactly one side of the position is a word character. *)
Definition at_boundary (prev : option ascii) (s : string) : bool :=
  xorb (word_before prev) (word_after s).

Fixpoint rmatch {A} (r : regex) (prev : option ascii) (s : string)
    (k : kont A) {struct r} : option A :=
  match r with
  | Eps => k prev s
  | Chr c =>
      match s with
      | String x s' => if c x then k (Some x) s' else None
      | EmptyString => None
      end
  | Seq r1 r2 => rmatch r1 prev s (fun p s' => rmatch r2 p s' k)
  | Alt r1 r2 => or_else (rmatch r1 prev s k) (rmatch r2 prev s k)
  | Opt r1 => or_else (rmatch r1 prev s k) (k prev s)
  | Rep c lo hi => rep_greedy c lo hi prev s k
  | WordB => if at_boundary prev s then k prev s else None
  end.

(** The match that starts exactly here: what is left of the input. *)
Definition match_at (r : regex) (prev : option ascii) (s : string)
  : option string :=
  rmatch r prev s (fun _ rest => Some rest).

Definition matched (s rest : string) : string :=
  String.substring 0 (String.length s - String.length rest) s.

Fixpoint search_from (r : regex) (prev : option ascii) (s : string) : bool :=
  match match_at r prev s with
  | Some _ => true
  | None =>
      match s with
      | String x s' => search_from r (Some x) s'
      | EmptyString => false
      end
  end.

(** [bool(re.search(r, s))] *)
Definition search (r : regex) (s : string) : bool := search_from r None s.

(** [re.findall] for a pattern without capturing groups: the leftmost
    match, then the leftmost match after it, and so on.  [skip] counts
    the characters of the last match that are still to be stepped over.
    (No pattern of the module matches the empty string.) *)
Fixpoint findall_from (r : regex) (prev : option ascii) (s : string)
    (skip : nat) : list string :=
  match skip with
  | S n =>
      match s with
      | String x s' => findall_from r (Some x) s' n
      | EmptyString => []
      end
  | O =>
      match match_at r prev s with
      | Some rest =>
          let n := (String.length s - String.length rest)%nat in
          matched s rest ::
            match s with
            | String x s' => findall_from r (Some x) s' (Nat.pred n)
            | EmptyString => []
            end
      | None =>
          match s with
          | String x s' => findall_from r (Some x) s' 0
          | EmptyString => []
          end
      end
  end.

Definition findall (r : regex) (s : string) : list string :=
  findall_from r None s 0.

End Re.

Import Re.

(** ** Models *)

Record Message := {
  sender : string;
  text : string;
  timestamp : Z
}.

Record Metadata := {
  channel : option string;
  language : option string;
  locale : option string
}.

Record HoneypotRequest := {
  sessionId : string;
  message : Message;
  conversationHistory : list Message;
  metadata : option Metadata
}.

Record HoneypotResponse := {
  status : string;
  reply : string
}.

Record ExtractedIntelligence := {
  bankAccounts : list string;
  upiIds : list string;
  phishingLinks : list string;
  phoneNumbers : list string;
  suspiciousKeywords : list string
}.

(** The keys of [SCAM_PATTERNS] and the fallback label. *)
Inductive ScamType :=
| bank_fraud | upi_fraud | phishing | fake_offers | impersonation | otp_fraud
| generic_scam.

#[global] Instance ScamType_eq_dec : EqDecision ScamType.
Proof. solve_decision. Defined.

Definition scam_type_name (c : ScamType) : string :=
  match c with
  | bank_fraud => "bank_fraud"
  | upi_fraud => "upi_fraud"
  | phishing => "phishing"
  | fake_offers => "fake_offers"
  | impersonation => "impersonation"
  | otp_fraud => "otp_fraud"
  | generic_scam => "generic_scam"
  end.

(** One entry of [session_manager.sessions].  The key
    ["final_result_sent"] is absent until it is stored as [True]; it is
    only ever read with [session.get(..., False)]. *)
Record Session := {
  messages : list Message;
  intelligence : ExtractedIntelligence;
  scam_detected : bool;
  engagement_count : nat;
  should_continue : bool;
  scam_type : option ScamType;
  final_result_sent : bool
}.

(** The dict posted to the callback URL; [extractedIntelligence] keeps
    the keys in the order the dict literal lists them. *)
Record Payload := {
  p_sessionId : string;
  p_scamDetected : bool;
  p_totalMessagesExchanged : nat;
  p_extractedIntelligence : list (string * list string);
  p_agentNotes : string
}.

(** What one [requests.post] attempt can come back with. *)
Inductive Outcome :=
| Responded (status_code : Z)
| TimedOut
| RequestFailed
| Raised.

(** What the module does to the outside, in order: the lines it logs at
    the two places the engagement is counted and the report is started,
    and the HTTP calls. *)
Inductive Event :=
| AgentResponse (sid : string) (n : nat)
| TriggerCallback (sid : string)
| SkipDuplicate (sid : string)
| Post (p : Payload).

Record World := {
  sessions : gmap string Session;
  trace : list Event
}.

(** The inputs of one request that the code draws from outside. *)
Record Env := {
  rnd : nat;
  now : Z;
  http : nat → Outcome
}.

(** ** A state monad over the world *)

Definition M (A : Type) : Type := World → A * World.

Definition ret {A} (a : A) : M A := fun w => (a, w).

Definition bind {A B} (m : M A) (f : A → M B) : M B :=
  fun w => let '(a, w') := m w in f a w'.

Declare Scope m_scope.
Delimit Scope m_scope with M.
Notation "x <- m ;; k" := (bind m (fun x => k))
  (at level 100, m at next level, right associativity) : m_scope.
Notation "m ;;; k" := (bind m (fun _ => k))
  (at level 100, right associativity) : m_scope.
Local Open Scope m_scope.

Definition emit (e : Event) : M unit :=
  fun w => (tt, {| sessions := sessions w; trace := (trace w ++ [e])%list |}).

(** ** Session management *)

Definition new_intelligence : ExtractedIntelligence :=
  {| bankAccounts := []; upiIds := []; phishingLinks := [];
     phoneNumbers := []; suspiciousKeywords := [] |}.

Definition new_session : Session :=
  {| messages := [];
     intelligence := new_intelligence;
     scam_detected := false;
     engagement_count := 0;
     should_continue := true;
     scam_type := None;
     final_result_sent := false |}.

(** [SessionManager.get_session]: creates the entry on first use. *)
Definition get_session (session_id : string) : M Session :=
  fun w =>
    match sessions w !! session_id with
    | Some s => (s, w)
    | None =>
        (new_session,
         {| sessions := <[session_id := new_session]> (sessions w);
            trace := trace w |})
    end.

(** An assignment through the reference [get_session] returned. *)
Definition modify (session_id : string) (f : Session → Session) : M unit :=
  fun w => (tt, {| sessions := alter f session_id (sessions w);
                   trace := trace w |}).

Definition set_messages (v : list Message) (s : Session) : Session :=
  {| messages := v; intelligence := intelligence s;
     scam_detected := scam_detected s; engagement_count := engagement_count s;
     should_continue := should_continue s; scam_type := scam_type s;
     final_result_sent := final_result_sent s |}.

Definition set_intelligence (v : ExtractedIntelligence) (s : Session) : Session :=
  {| messages := messages s; intelligence := v;
     scam_detected := scam_detected s; engagement_count := engagement_count s;
     should_continue := should_continue s; scam_type := scam_type s;
     final_result_sent := final_result_sent s |}.

Definition set_scam (c : option ScamType) (s : Session) : Session :=
  {| messages := messages s; intelligence := intelligence s;
     scam_detected := true; engagement_count := engagement_count s;
     should_continue := should_continue s; scam_type := c;
     final_result_sent := final_result_sent s |}.

Definition set_engagement_count (v : nat) (s : Session) : Session :=
  {| messages := messages s; intelligence := intelligence s;
     scam_detected := scam_detected s; engagement_count := v;
     should_continue := should_continue s; scam_type := scam_type s;
     final_result_sent := final_result_sent s |}.

Definition set_should_continue (v : bool) (s : Session) : Session :=
  {| messages := messages s; intelligence := intelligence s;
     scam_detected := scam_detected s; engagement_count := engagement_count s;
     should_continue := v; scam_type := scam_type s;
     final_result_sent := final_result_sent s |}.

Definition set_final_result_sent (v : bool) (s : Session) : Session :=
  {| messages := messages s; intelligence := intelligence s;
     scam_detected := scam_detected s; engagement_count := engagement_count s;
     should_continue := should_continue s; scam_type := scam_type s;
     final_result_sent := v |}.

(** *** The extractor's patterns *)

Module Patterns.

Definition sep : regex := Opt (Chr Chars.dash_or_space).
Definition d4 : regex := Times Chars.is_digit 4.

(** [\b\d{4}[-\s]?\d{4}[-\s]?\d{4}[-\s]?\d{4}\b] *)
Definition card16 : regex := Cat [WordB; d4; sep; d4; sep; d4; sep; d4; WordB].

(** [\b\d{9,18}\b] *)
Definition account_digits : regex :=
  Cat [WordB; Rep Chars.is_digit 9 (Some 18); WordB].

(** [\b[A-Z]{4}0[A-Z0-9]{6}\b] *)
Definition ifsc : regex :=
  Cat [WordB; Times Chars.is_upper 4; Lit "0";
       Times Chars.is_upper_or_digit 6; WordB].

(** [\b[\w\.-]+@<handle>\b] *)
Definition upi (handle : string) : regex :=
  Cat [WordB; Plus Chars.upi_local; Lit "@"; Word handle; WordB].

Definition upi_handles : list string :=
  ["paytm"; "phonepe"; "gpay"; "upi"; "ybl"; "oksbi"; "okaxis"; "okicici";
   "okhdfcbank"; "okbizaxis"; "ibl"; "axl"].

Definition upi_patterns : list regex := List.map upi upi_handles.

(** [https?://[^\s]+] *)
Definition url_scheme : regex :=
  Cat [Word "http"; Opt (Lit "s"); Word "://"; Plus Chars.non_space].

(** [www\.[^\s]+] *)
Definition url_www : regex := Cat [Word "www."; Plus Chars.non_space].

(** [\b[\w-]+\.(?:com|in|org|net|co\.in|xyz|click|top|online|site|info|biz)[^\s]*] *)
Definition url_domain : regex :=
  Cat [WordB; Plus Chars.word_or_dash; Lit ".";
       Words ["com"; "in"; "org"; "net"; "co.in"; "xyz"; "click"; "top";
              "online"; "site"; "info"; "biz"];
       Star Chars.non_space].

Definition d10 : regex := Times Chars.is_digit 10.

(** [\+91[-\s]?\d{10}] *)
Definition phone_in : regex := Cat [Word "+91"; sep; d10].

(** [\+\d{1,4}[-\s]?\d{10}] *)
Definition phone_intl : regex :=
  Cat [Lit "+"; Rep Chars.is_digit 1 (Some 4); sep; d10].

(** [\b\d{10}\b] *)
Definition phone_bare : regex := Cat [WordB; d10; WordB].

(** [\b0\d{10}\b] *)
Definition phone_zero : regex := Cat [WordB; Lit "0"; d10; WordB].

End Patterns.

Definition suspicious_words : list string :=
  ["urgent"; "verify"; "blocked"; "suspended"; "immediately"; "confirm";
   "account"; "bank"; "upi"; "payment"; "transfer"; "otp"; "password";
   "click here"; "limited time"; "act now"; "prize"; "winner"; "congratulations";
   "refund"; "tax"; "penalty"; "arrest"; "legal action"; "freeze";
   "kyc"; "update"; "expired"; "deactivated"; "unauthorized"; "suspicious";
   "claim"; "reward"; "lottery"; "won"; "cashback"; "offer"; "deal";
   "hurry"; "last chance"; "final notice"; "warrant"; "court"; "police";
   "customs"; "delivery"; "parcel"; "package"; "courier"; "fedex"; "dhl";
   "amazon"; "flipkart"; "security"; "code"; "pin"; "cvv"; "card";
   "government"; "official"; "department"; "notice"; "billing"; "invoice"].

(** *** [list(dict.fromkeys(l))]

    The dict is the list of its keys in insertion order; storing a key
    that is already there leaves the order alone. *)

Definition dict_has (d : list string) (x : string) : bool :=
  existsb (String.eqb x) d.

Definition dict_add (d : list string) (x : string) : list string :=
  if dict_has d x then d else (d ++ [x])%list.

Definition fromkeys (l : list string) : list string :=
  fold_left dict_add l [].

(** [acc.replace(" ", "").replace("-", "")] *)
Definition strip_separators (acc : string) : string :=
  Str.remove_char "-" (Str.remove_char " " acc).

(** The body of [update_intelligence] on the [intel] object. *)
Definition extract (intel : ExtractedIntelligence) (text : string)
  : ExtractedIntelligence :=
  let bank_accounts :=
    (findall Patterns.card16 text
     ++ findall Patterns.account_digits text
     ++ findall Patterns.ifsc (Str.upper text))%list in
  let bankAccounts' :=
    (bankAccounts intel ++ List.map strip_separators bank_accounts)%list in
  let upiIds' :=
    fold_left
      (fun ids pattern => (ids ++ findall pattern (Str.lower text))%list)
      Patterns.upi_patterns (upiIds intel) in
  let urls :=
    (findall Patterns.url_scheme text
     ++ findall Patterns.url_www text
     ++ findall Patterns.url_domain text)%list in
  let phishingLinks' := (phishingLinks intel ++ urls)%list in
  let phones :=
    (findall Patterns.phone_in text
     ++ findall Patterns.phone_intl text
     ++ findall Patterns.phone_bare text
     ++ findall Patterns.phone_zero text)%list in
  let phoneNumbers' := (phoneNumbers intel ++ phones)%list in
  let text_lower := Str.lower text in
  let found_keywords :=
    List.filter (fun word => Str.contains word text_lower) suspicious_words in
  let suspiciousKeywords' := (suspiciousKeywords intel ++ found_keywords)%list in
  {| bankAccounts := fromkeys bankAccounts';
     upiIds := fromkeys upiIds';
     phishingLinks := fromkeys phishingLinks';
     phoneNumbers := fromkeys phoneNumbers';
     suspiciousKeywords := fromkeys suspiciousKeywords' |}.

(** [SessionManager.update_intelligence] *)
Definition update_intelligence (session_id text : string) : M unit :=
  session <- get_session session_id ;;
  modify session_id (fun s => set_intelligence (extract (intelligence s) text) s).

(** ** Scam detection *)

Definition SCAM_PATTERNS : list (ScamType * list regex) :=
  [ (bank_fraud,
      [ Cat [Word "bank account"; Any; Words ["blocked"; "suspended"; "frozen"]];
        Cat [Word "verify"; Any; Words ["account"; "identity"; "details"]];
        Cat [Word "account"; Any; Words ["deactivated"; "locked"; "closed"]];
        Cat [Word "update"; Any; Words ["kyc"; "pan"; "aadhar"]];
        Cat [Word "unauthorized"; Any; Word "transaction"] ]);
    (upi_fraud,
      [ Cat [Word "upi"; Any; Words ["blocked"; "suspended"]];
        Cat [Word "share"; Any; Word "upi"; Any; Word "id"];
        Cat [Word "send"; Any; Word "money"; Any; Word "verify"];
        Cat [Word "payment"; Any; Word "pending"];
        Cat [Word "refund"; Any; Word "upi"] ]);
    (phishing,
      [ Cat [Word "click"; Any; Word "link"; Any;
             Words ["verify"; "update"; "confirm"]];
        Cat [Word "download"; Any; Word "app"; Any; Word "urgently"];
        Cat [Word "install"; Any; Word "certificate"];
        Cat [Word "login"; Any; Words ["immediately"; "now"; "urgent"]];
        Cat [Word "reset"; Any; Word "password"; Any; Word "click"] ]);
    (fake_offers,
      [ Cat [Word "congratulations"; Any; Words ["won"; "winner"; "prize"]];
        Cat [Word "lottery"; Any; Word "won"];
        Cat [Word "claim"; Any; Words ["prize"; "reward"; "gift"]];
        Cat [Word "limited"; Any; Word "time"; Any; Word "offer"];
        Cat [Word "exclusive"; Any; Word "deal"; Any; Word "today"] ]);
    (impersonation,
      [ Cat [Words ["police"; "court"; "tax"; "income tax"; "gst"]; Any;
             Words ["notice"; "penalty"; "arrest"]];
        Cat [Word "legal"; Any; Word "action"; Any; Word "against"];
        Cat [Word "warrant"; Any; Word "issued"];
        Cat [Word "customs"; Any; Word "clearance"];
        Cat [Word "government"; Any; Words ["refund"; "scheme"]] ]);
    (otp_fraud,
      [ Cat [Word "share"; Any; Word "otp"];
        Cat [Word "send"; Any; Word "code"; Any; Word "verification"];
        Cat [Word "otp"; Any; Words ["expire"; "valid"]];
        Cat [Word "confirmation"; Any; Word "code"];
        Cat [Word "security"; Any; Word "code"; Any; Word "verify"] ]) ].

Definition urgency_words : list string :=
  ["urgent"; "immediately"; "now"; "today"; "asap"; "quickly"; "hurry";
   "fast"; "soon"; "expire"; "limited time"].
Definition threat_words : list string :=
  ["blocked"; "suspended"; "arrested"; "penalty"; "legal action"; "freeze";
   "deactivated"; "locked"; "cancelled"; "terminated"].
Definition action_words : list string :=
  ["verify"; "confirm"; "click"; "share"; "send"; "update"; "provide";
   "submit"; "enter"; "transfer"].
Definition request_words : list string :=
  ["account"; "password"; "otp"; "code"; "upi"; "card"; "cvv"; "pin";
   "aadhar"; "pan"].

(** [sum(1 for word in words if word in text_lower)] *)
Definition count_in (words : list string) (text_lower : string) : nat :=
  length (List.filter (fun word => Str.contains word text_lower) words).

(** [https?://|www\.|\w+\.(com|in|org|net|xyz|click|top)] *)
Definition url_like : regex :=
  OneOf [ Cat [Word "http"; Opt (Lit "s"); Word "://"];
          Word "www.";
          Cat [Plus Chars.is_word; Lit ".";
               Words ["com"; "in"; "org"; "net"; "xyz"; "click"; "top"]] ].

(** [@(paytm|phonepe|gpay|upi|ybl|oksbi|okaxis|okicici)] *)
Definition upi_like : regex :=
  Cat [Lit "@"; Words ["paytm"; "phonepe"; "gpay"; "upi"; "ybl"; "oksbi";
                       "okaxis"; "okicici"]].

(** [\+?\d{10,}] *)
Definition phone_like : regex :=
  Cat [Opt (Lit "+"); Rep Chars.is_digit 10 None].

Definition bonus (q : Q) (b : bool) : Q := if b then q else 0%Q.

Definition qnat (n : nat) : Q := inject_Z (Z.of_nat n).

(** The heuristic score.  Python computes it in floating point because
    of the factor 1.5; every value it can take here is a small multiple
    of one half, which a float holds exactly, so the rationals give the
    same number and the same comparison with 4. *)
Definition scam_score (text : string) : Q :=
  let text_lower := Str.lower text in
  let urgency_count := count_in urgency_words text_lower in
  let threat_count := count_in threat_words text_lower in
  let action_count := count_in action_words text_lower in
  let request_count := count_in request_words text_lower in
  let has_url := search url_like text_lower in
  let has_upi := search upi_like text_lower in
  let has_phone := search phone_like text in
  (qnat urgency_count * 2
   + qnat threat_count * 3
   + qnat action_count * 1.5
   + qnat request_count * 2
   + bonus 3 has_url
   + bonus 2 has_upi
   + bonus 1 has_phone)%Q.

(** The two nested [for] loops with their early [return]: the first
    category, in dict order, one of whose patterns is found. *)
Definition pattern_category (text_lower : string) : option ScamType :=
  fst <$> List.find
    (fun entry => existsb (fun pattern => search pattern text_lower) (snd entry))
    SCAM_PATTERNS.

(** [ScamDetector.detect] *)
Definition detect (text : string) : bool * option ScamType :=
  let text_lower := Str.lower text in
  match pattern_category text_lower with
  | Some scam_type => (true, Some scam_type)
  | None =>
      if Qle_bool 4 (scam_score text)
      then (true, Some generic_scam)
      else (false, None)
  end.

(** ** The agent *)

(** [random.choice(l)] with the drawn index given from outside. *)
Definition random_choice (r : nat) (l : list string) : string :=
  nth (r mod length l) l "".

Inductive Persona :=
| concerned_elderly | busy_professional | trusting_user | cautious_user.

(** The persona lookup of [generate_response]; its result is not used
    by the reply selection. *)
Definition persona_key (scam_type : option ScamType) (engagement_count : nat)
  : Persona :=
  match scam_type with
  | Some bank_fraud | Some upi_fraud =>
      if (engagement_count <? 3)%nat then concerned_elderly else cautious_user
  | Some fake_offers => trusting_user
  | _ => busy_professional
  end.

Definition initial_bank_fraud : list string :=
  ["Oh no! Why will my account be blocked? I haven't done anything wrong.";
   "What? Is this a message from my bank? I'm worried now.";
   "I don't understand. Can you explain what's happening with my account?"].

(** [responses.get(scam_type, responses['bank_fraud'])] *)
Definition initial_responses (scam_type : option ScamType) : list string :=
  match scam_type with
  | Some bank_fraud => initial_bank_fraud
  | Some upi_fraud =>
      ["My UPI is blocked? But I just used it yesterday. What happened?";
       "Is this from my bank? I need to use UPI for payments.";
       "Why would my UPI be suspended? Please tell me what to do."]
  | Some phishing =>
      ["I got your message. Is this urgent? Should I click the link now?";
       "What kind of verification is this? I want to make sure it's safe.";
       "Ok, but can you tell me more about what I need to do?"]
  | Some fake_offers =>
      ["Really? I won something? What prize is this?";
       "This sounds great! How do I claim it?";
       "Wow, I didn't know I entered any lottery. What do I need to do?"]
  | Some impersonation =>
      ["Legal notice? What have I done wrong? I'm scared.";
       "Is this really from the government? What should I do?";
       "I don't want any legal trouble. Please help me understand."]
  | Some otp_fraud =>
      ["OTP? I just received one. Is this related to my account?";
       "Should I share the code? I'm not sure what this is for.";
       "I got a code but I didn't request anything. What's going on?"]
  | Some generic_scam | None => initial_bank_fraud
  end.

Definition _generate_initial_response (r : nat) (message : string)
    (scam_type : option ScamType) : string :=
  random_choice r (initial_responses scam_type).

Definition mentions (ws : list string) (message_lower : string) : bool :=
  existsb (fun w => Str.contains w message_lower) ws.

Definition probing_responses (message : string) : list string :=
  let message_lower := Str.lower message in
  if mentions ["account"; "number"] message_lower then
    ["Which account number do you need? I have multiple accounts.";
     "Should I share my savings account or current account number?";
     "I have accounts in different banks. Which one are you asking about?"]
  else if mentions ["upi"] message_lower then
    ["What UPI ID exactly? I have different ones for different apps.";
     "I use multiple UPI apps. Which one should I share - PhonePe, GPay, or Paytm?";
     "My UPI ID is linked to many apps. Can you specify which one?"]
  else if mentions ["click"; "link"] message_lower then
    ["I'm trying to click but the link doesn't work. Can you send it again?";
     "The link is not opening on my phone. Is there another way?";
     "I clicked the link but nothing happened. What should I do?"]
  else if mentions ["otp"; "code"] message_lower then
    ["I received a code but it's not clear. Should I share all the digits?";
     "The OTP is 6 digits, right? Should I tell you the whole thing?";
     "I got the code. Do you need me to read it out to you?"]
  else if mentions ["payment"; "money"; "send"; "transfer"] message_lower then
    ["How much should I send? And to which account or UPI?";
     "What amount exactly? And will I get it back?";
     "Should I use UPI or bank transfer? What's the account details?"]
  else if mentions ["install"; "download"] message_lower then
    ["What app should I download? Can you give me the exact name?";
     "Is this app available on Play Store? What's it called?";
     "Should I download it from the link you sent or from the app store?"]
  else if mentions ["call"; "contact"; "phone"] message_lower then
    ["What number should I call? And what should I say?";
     "Should I call you right now? What's your number?";
     "I can call, but what extension or department should I ask for?"]
  else if mentions ["card"; "cvv"; "debit"; "credit"] message_lower then
    ["Which card - my debit card or credit card?";
     "You need the card number? All 16 digits?";
     "Should I also share the expiry date and CVV?"]
  else if mentions ["kyc"; "document"; "aadhar"; "pan"] message_lower then
    ["What documents do you need? I have Aadhar and PAN card.";
     "Should I upload the documents somewhere? Where?";
     "Do you need photos of my documents or just the numbers?"]
  else
    ["Can you please provide more details? I want to do this correctly.";
     "I'm not sure I understand. Can you explain step by step?";
     "What exactly do you need from me to resolve this?";
     "I want to help but need clearer instructions. What's the next step?"].

Definition _generate_probing_response (r : nat) (message : string)
    (scam_type : option ScamType) : string :=
  random_choice r (probing_responses message).

Definition hesitant_responses : list string :=
  ["I'm a bit confused. Can you confirm you're from the official bank?";
   "My friend said to be careful with such messages. But this is real, right?";
   "Before I proceed, can you give me your employee ID or official number?";
   "I want to help but I need to verify this is legitimate. What's your department?";
   "Okay, but can I call my bank first to confirm this?";
   "This seems urgent but I want to be sure. What happens if I don't do this now?"].

Definition _generate_hesitant_response (r : nat) (message : string)
    (scam_type : option ScamType) : string :=
  random_choice r hesitant_responses.

Definition final_responses : list string :=
  ["I'm going to check with my bank branch directly. Thank you for informing me.";
   "I think I should visit the bank in person for this. Thanks anyway.";
   "My son said this might be a scam. I'll verify with the bank first.";
   "I'm not comfortable sharing this information online. I'll go to the bank.";
   "Let me consult with someone before proceeding. I'll get back to you.";
   "I received a call from my bank saying this is fake. I'm reporting this."].

Definition _generate_final_response (r : nat) (session_id message : string)
    (scam_type : option ScamType) : M string :=
  session <- get_session session_id ;;
  modify session_id (set_should_continue false) ;;;
  ret (random_choice r final_responses).

(** [HoneypotAgent.generate_response].  The [context] string built from
    the history is handed to the four generators, none of which reads
    it; it is left out. *)
Definition generate_response (env : Env) (session_id : string)
    (conversation_history : list Message) (current_message : string)
    (scam_type : option ScamType) : M string :=
  session <- get_session session_id ;;
  let engagement_count := engagement_count session in
  if (engagement_count =? 0)%nat then
    ret (_generate_initial_response (rnd env) current_message scam_type)
  else if (engagement_count <? 3)%nat then
    ret (_generate_probing_response (rnd env) current_message scam_type)
  else if (engagement_count <? 6)%nat then
    ret (_generate_hesitant_response (rnd env) current_message scam_type)
  else
    _generate_final_response (rnd env) session_id current_message scam_type.

(** ** The endpoints *)

(** The value a session variable refers to: the entry of the store. *)
Definition deref (session_id : string) : M Session :=
  fun w => (default new_session (sessions w !! session_id), w).

Definition scam_type_repr (c : option ScamType) : string :=
  match c with Some t => scam_type_name t | None => "None" end.

Definition agent_notes (session : Session) : string :=
  let intelligence := intelligence session in
  "Scam type: " +:+ scam_type_repr (scam_type session)
  +:+ ". Agent engaged scammer through "
  +:+ Str.of_nat (engagement_count session)
  +:+ " turns using adaptive conversation strategies. Successfully extracted "
  +:+ Str.of_nat (length (bankAccounts intelligence)) +:+ " bank accounts, "
  +:+ Str.of_nat (length (upiIds intelligence)) +:+ " UPI IDs, "
  +:+ Str.of_nat (length (phishingLinks intelligence)) +:+ " phishing links, and "
  +:+ Str.of_nat (length (phoneNumbers intelligence)) +:+ " phone numbers.".

(** The [payload] dict of [send_final_result] *)
Definition final_payload (session_id : string) (session : Session) : Payload :=
  let intelligence := intelligence session in
  {| p_sessionId := session_id;
     p_scamDetected := scam_detected session;
     p_totalMessagesExchanged := length (messages session);
     p_extractedIntelligence :=
       [ ("bankAccounts", bankAccounts intelligence);
         ("upiIds", upiIds intelligence);
         ("phishingLinks", phishingLinks intelligence);
         ("phoneNumbers", phoneNumbers intelligence);
         ("suspiciousKeywords", suspiciousKeywords intelligence) ];
     p_agentNotes := agent_notes session |}.

Definition max_retries : nat := 3.

Definition accepted (status_code : Z) : bool :=
  (status_code =? 200)%Z || (status_code =? 201)%Z.

(** The retry loop [for attempt in range(max_retries)], with [left]
    attempts to go.  A response with status 200 or 201 stores the flag
    and returns; any other response, a timeout or a request error goes
    on to the next attempt; any other exception leaves the loop for the
    outer [except]. *)
Fixpoint post_attempts (env : Env) (session_id : string) (payload : Payload)
    (attempt left : nat) : M unit :=
  match left with
  | O => ret tt
  | S left' =>
      emit (Post payload) ;;;
      match http env attempt with
      | Responded status_code =>
          if accepted status_code
          then modify session_id (set_final_result_sent true)
          else post_attempts env session_id payload (S attempt) left'
      | TimedOut | RequestFailed =>
          post_attempts env session_id payload (S attempt) left'
      | Raised => ret tt
      end
  end.

(** [send_final_result] *)
Definition send_final_result (env : Env) (session_id : string) : M unit :=
  session <- get_session session_id ;;
  if final_result_sent session then
    emit (SkipDuplicate session_id)
  else
    post_attempts env session_id (final_payload session_id session) 0 max_retries.

Definition closing_reply : string :=
  "Thank you for your message. Have a nice day!".

(** [detect_and_engage], the handler of [POST /detect].  Nothing in its
    body raises on these types, so the [except] branch is not reached. *)
Definition detect_and_engage (env : Env) (request : HoneypotRequest)
  : M HoneypotResponse :=
  let session_id := sessionId request in
  let current_message := message request in
  let conversation_history := conversationHistory request in
  session <- get_session session_id ;;
  modify session_id
    (fun s => set_messages (messages s ++ [current_message])%list s) ;;;
  update_intelligence session_id (text current_message) ;;;
  let '(is_scam, scam_type') := detect (text current_message) in
  session <- deref session_id ;;
  (if is_scam && negb (scam_detected session)
   then modify session_id (set_scam scam_type')
   else ret tt) ;;;
  session <- deref session_id ;;
  if scam_detected session && should_continue session then
    agent_response <-
      generate_response env session_id conversation_history
        (text current_message) (scam_type session) ;;
    modify session_id
      (fun s => set_engagement_count (engagement_count s + 1) s) ;;;
    session <- deref session_id ;;
    emit (AgentResponse session_id (engagement_count session)) ;;;
    let agent_message :=
      {| sender := "user"; text := agent_response; timestamp := now env |} in
    modify session_id
      (fun s => set_messages (messages s ++ [agent_message])%list s) ;;;
    session <- deref session_id ;;
    (if (7 <=? engagement_count session)%nat || negb (should_continue session)
     then emit (TriggerCallback session_id) ;;;
          send_final_result env session_id
     else ret tt) ;;;
    ret {| status := "success"; reply := agent_response |}
  else
    ret {| status := "success"; reply := closing_reply |}.

(** The error a handler answers with instead of a body. *)
Record HTTPException := {
  status_code : Z;
  detail : string
}.

(** The body of a successful [GET /session/{session_id}]. *)
Record SessionStatus := {
  st_sessionId : string;
  st_scamDetected : bool;
  st_scamType : option ScamType;
  st_engagementCount : nat;
  st_totalMessages : nat;
  st_shouldContinue : bool;
  st_extractedIntelligence : list (string * nat)
}.

(** [get_session_status] *)
Definition get_session_status (session_id : string)
  : M (HTTPException + SessionStatus) :=
  fun w =>
    match sessions w !! session_id with
    | None => (inl {| status_code := 404; detail := "Session not found" |}, w)
    | Some session =>
        let intelligence := intelligence session in
        (inr {| st_sessionId := session_id;
                st_scamDetected := scam_detected session;
                st_scamType := scam_type session;
                st_engagementCount := engagement_count session;
                st_totalMessages := length (messages session);
                st_shouldContinue := should_continue session;
                st_extractedIntelligence :=
                  [ ("bankAccounts", length (bankAccounts intelligence));
                    ("upiIds", length (upiIds intelligence));
                    ("phishingLinks", length (phishingLinks intelligence));
                    ("phoneNumbers", length (phoneNumbers intelligence));
                    ("suspiciousKeywords",
                     length (suspiciousKeywords intelligence)) ] |}, w)
    end.

(** Handling a sequence of requests, one after the other. *)
Fixpoint run (calls : list (Env * HoneypotRequest)) : M (list HoneypotResponse) :=
  match calls with
  | [] => ret []
  | (env, request) :: calls' =>
      r <- detect_and_engage env request ;;
      rs <- run calls' ;;
      ret (r :: rs)
  end.

(** * The vocabulary of the properties *)

(** ** The store seen from one session

    Once a handler has fetched its session, every later read and write
    goes to the same entry.  [at_session m sid s t] is the world whose
    store is [m] with [s] at [sid] and whose trace is [t]; [current w sid]
    is what a handler finds when it fetches [sid] in [w]. *)

Definition at_session (m : gmap string Session) (sid : string)
    (s : Session) (t : list Event) : World :=
  {| sessions := <[sid := s]> m; trace := t |}.

Definition current (w : World) (sid : string) : Session :=
  default new_session (sessions w !! sid).

(** The body [get_session_status] answers a known id with. *)
Definition session_status (session_id : string) (s : Session)
  : SessionStatus :=
  {| st_sessionId := session_id;
     st_scamDetected := scam_detected s;
     st_scamType := scam_type s;
     st_engagementCount := engagement_count s;
     st_totalMessages := length (messages s);
     st_shouldContinue := should_continue s;
     st_extractedIntelligence :=
       [ ("bankAccounts", length (bankAccounts (intelligence s)));
         ("upiIds", length (upiIds (intelligence s)));
         ("phishingLinks", length (phishingLinks (intelligence s)));
         ("phoneNumbers", length (phoneNumbers (intelligence s)));
         ("suspiciousKeywords",
          length (suspiciousKeywords (intelligence s))) ] |}.

(** What the retry loop comes to: whether an attempt was accepted, and
    how many posts were made. *)
Fixpoint attempts (env : Env) (attempt left : nat) : bool * nat :=
  match left with
  | O => (false, 0)
  | S left' =>
      let again :=
        let '(b, n) := attempts env (S attempt) left' in (b, S n) in
      match http env attempt with
      | Responded c => if accepted c then (true, 1) else again
      | TimedOut | RequestFailed => again
      | Raised => (false, 1)
      end
  end.

Definition flagged (b : bool) (s : Session) : Session :=
  if b then set_final_result_sent true s else s.

(** The report as the specification words it: four lists. *)
Module Spec.

Definition report_keys : list string :=
  ["bankAccounts"; "upiIds"; "phishingLinks"; "phoneNumbers"].

Definition four_lists (p : Payload) : Prop :=
  List.map fst (p_extractedIntelligence p) = report_keys.

Inductive Stage := Initial | Probing | Hesitant | Final.

(** Stage 0, stages 1-2, stages 3-5, stage 6 and later. *)
Definition stage (engagement_count : nat) : Stage :=
  match engagement_count with
  | 0 => Initial
  | 1 | 2 => Probing
  | 3 | 4 | 5 => Hesitant
  | _ => Final
  end.

Definition pool (st : Stage) (scam_type : option ScamType) (message : string)
  : list string :=
  match st with
  | Initial => initial_responses scam_type
  | Probing => probing_responses message
  | Hesitant => hesitant_responses
  | Final => final_responses
  end.

Definition is_final (st : Stage) : bool :=
  match st with Final => true | _ => false end.

End Spec.

(** ** The message handler on one session

    [detect_and_engage] only touches the session of its request.  The
    functions below say what it does to that session, step by step;
    [detect_and_engage_fetch] proves that the handler is exactly that,
    so the remaining proofs need not mention the store. *)

Section Handler.

Variable env : Env.
Variable request : HoneypotRequest.

Let sid := sessionId request.
Let msg := message request.

(** After the message is logged and its intelligence merged. *)
Definition received (s : Session) : Session :=
  let s1 := set_messages (messages s ++ [msg]) s in
  set_intelligence (extract (intelligence s1) (text msg)) s1.

(** After the classifier's verdict is latched. *)
Definition classified (s : Session) : Session :=
  let s2 := received s in
  if fst (detect (text msg)) && negb (scam_detected s2)
  then set_scam (snd (detect (text msg))) s2
  else s2.

Definition engaging (s : Session) : bool :=
  scam_detected (classified s) && should_continue (classified s).

Definition agent_reply (s : Session) : string :=
  let s3 := classified s in
  random_choice (rnd env)
    (Spec.pool (Spec.stage (engagement_count s3)) (scam_type s3) (text msg)).

(** After the reply is generated, counted and logged. *)
Definition replied (s : Session) : Session :=
  let s3 := classified s in
  let s4 :=
    if Spec.is_final (Spec.stage (engagement_count s3))
    then set_should_continue false s3 else s3 in
  let s5 := set_engagement_count (engagement_count s4 + 1) s4 in
  set_messages
    (messages s5
     ++ [{| sender := "user"; text := agent_reply s; timestamp := now env |}])
    s5.

Definition reporting (s : Session) : bool :=
  (7 <=? engagement_count (replied s))%nat
  || negb (should_continue (replied s)).

Definition reported (s6 : Session) : Session * list Event :=
  if final_result_sent s6
  then (s6, [SkipDuplicate sid])
  else (flagged (fst (attempts env 0 max_retries)) s6,
        repeat (Post (final_payload sid s6))
          (snd (attempts env 0 max_retries))).

Definition engage (s : Session) : HoneypotResponse * Session * list Event :=
  if engaging s then
    let s6 := replied s in
    let ev := AgentResponse sid (engagement_count s6) in
    if reporting s
    then ({| status := "success"; reply := agent_reply s |},
          fst (reported s6),
          ev :: TriggerCallback sid :: snd (reported s6))
    else ({| status := "success"; reply := agent_reply s |}, s6, [ev])
  else
    ({| status := "success"; reply := closing_reply |}, classified s, []).

(** The session a request leaves behind. *)
Definition after (s : Session) : Session := snd (fst (engage s)).

End Handler.

Definition for_session (sid : string) (c : Env * HoneypotRequest) : Prop :=
  sessionId (snd c) = sid.

Definition scam_message (c : Env * HoneypotRequest) : Prop :=
  fst (detect (text (message (snd c)))) = true.

(** ** A reference conversation *)

Definition empty_world : World := {| sessions := ∅; trace := [] |}.

Definition env_of (outcome : Outcome) : Env :=
  {| rnd := 0; now := 1700000000000%Z; http := fun _ => outcome |}.

Definition from_scammer (sid t : string) : HoneypotRequest :=
  {| sessionId := sid;
     message :=
       {| sender := "scammer"; text := t; timestamp := 1700000000000 |};
     conversationHistory := [];
     metadata := None |}.

Definition seven_messages : list string :=
  ["Your bank account will be blocked today. Verify immediately.";
   "Share the OTP sent to your phone";
   "Click the link to verify your account";
   "Send the money now to verify";
   "Your account will be locked";
   "Update your KYC now";
   "Unauthorized transaction on your account"].

Definition conversation (outcome : Outcome) (texts : list string)
  : list (Env * HoneypotRequest) :=
  List.map (fun t => (env_of outcome, from_scammer "session-1" t)) texts.

(** ** Runs of characters *)

(** How many characters of the class the text starts with. *)
Fixpoint leading (c : ascii → bool) (s : string) : nat :=
  match s with
  | String x s' => if c x then S (leading c s') else 0
  | EmptyString => 0
  end.

(** ** Grouped card numbers *)

(** A digit group: exactly four digits. *)
Definition digit_group (g : string) : bool :=
  (String.length g =? 4)%nat && Str.forallb Chars.is_digit g.

(** A separator the claim speaks of: a hyphen or a blank. *)
Definition separator (c : ascii) : bool := Ascii.eqb c "-" || Ascii.eqb c " ".

Definition grouped (g1 g2 g3 g4 : string) (s1 s2 s3 : ascii) : string :=
  g1 +:+ String s1 (g2 +:+ String s2 (g3 +:+ String s3 g4)).

(** * Further parts of the module *)

(** [HoneypotAgent._build_context]: the last three messages of the
    history, one per line, then the current message as the scammer's. *)
Definition newline : string := String "010" EmptyString.

Definition context_line (who what : string) : string :=
  who +:+ ": " +:+ what +:+ newline.

Definition _build_context (history : list Message) (current : string)
  : string :=
  fold_left (fun context msg => context +:+ context_line (sender msg) (text msg))
    (skipn (length history - 3) history) EmptyString
  +:+ context_line "scammer" current.

(** The paths the middleware lets through without a key. *)
Definition open_paths : list string :=
  ["/docs"; "/redoc"; "/openapi.json"; "/health"].

(** [verify_api_key], the HTTP middleware: [path] is
    [request.url.path], [x_api_key] is
    [request.headers.get("x-api-key")], [call_next] the handler of the
    route.  [API_SECRET_KEY] is read from the environment when the
    module is loaded. *)
Definition verify_api_key {A} (API_SECRET_KEY path : string)
    (x_api_key : option string) (call_next : M A) : M (HTTPException + A) :=
  if existsb (String.eqb path) open_paths then
    r <- call_next ;; ret (inr r)
  else if negb (bool_decide (x_api_key = Some API_SECRET_KEY)) then
    ret (inl {| status_code := 401; detail := "Invalid or missing API key" |})
  else
    r <- call_next ;; ret (inr r).

(** [health_check] *)
Definition health_check : M (list (string * string)) :=
  ret [("status", "healthy"); ("service", "Agentic Honey-Pot API")].

(** ** More vocabulary *)

(** The answer of the middleware to a request it turns away. *)
Definition invalid_key : HTTPException :=
  {| status_code := 401; detail := "Invalid or missing API key" |}.

(** [x] occurs in [s] as a contiguous piece. *)
Definition occurs_in (x s : string) : Prop := ∃ a b, s = a +:+ x +:+ b.

(** An outcome after which the retry loop tries again. *)
Definition retryable (o : Outcome) : bool :=
  match o with
  | Responded c => negb (accepted c)
  | TimedOut | RequestFailed => true
  | Raised => false
  end.

(** [new] keeps what [old] had, and keeps it in front. *)
Definition extends (old new : list string) : Prop :=
  (∀ x, In x old → In x new)
  ∧ (NoDup old → ∃ added, new = (old ++ added)%list).

(** What holds of every session the handler has worked on. *)
Definition session_invariant (s : Session) : Prop :=
  (engagement_count s ≤ 7)%nat
  ∧ (should_continue s = true ↔ (engagement_count s < 7)%nat)
  ∧ (scam_detected s = false → engagement_count s = 0%nat ∧ scam_type s = None)
  ∧ (scam_detected s = true → scam_type s ≠ None)
  ∧ (final_result_sent s = true → should_continue s = false)
  ∧ (2 * engagement_count s ≤ length (messages s))%nat
  ∧ NoDup (bankAccounts (intelligence s))
  ∧ NoDup (upiIds (intelligence s))
  ∧ NoDup (phishingLinks (intelligence s))
  ∧ NoDup (phoneNumbers (intelligence s))
  ∧ NoDup (suspiciousKeywords (intelligence s)).

Definition store_invariant (w : World) : Prop :=
  ∀ sid s, sessions w !! sid = Some s → session_invariant s.

(** [s'] is a later state of the session [s]: nothing was taken back. *)
Definition grown (s s' : Session) : Prop :=
  messages s `prefix_of` messages s'
  ∧ (engagement_count s ≤ engagement_count s')%nat
  ∧ (scam_detected s = true → scam_detected s' = true)
  ∧ (should_continue s = false → should_continue s' = false)
  ∧ (final_result_sent s = true → final_result_sent s' = true)
  ∧ (∀ x, In x (bankAccounts (intelligence s)) →
          In x (bankAccounts (intelligence s')))
  ∧ (∀ x, In x (upiIds (intelligence s)) → In x (upiIds (intelligence s')))
  ∧ (∀ x, In x (phishingLinks (intelligence s)) →
          In x (phishingLinks (intelligence s')))
  ∧ (∀ x, In x (phoneNumbers (intelligence s)) →
          In x (phoneNumbers (intelligence s')))
  ∧ (∀ x, In x (suspiciousKeywords (intelligence s)) →
          In x (suspiciousKeywords (intelligence s'))).

(** ** What a pattern matches

    [den r prev m rest]: the pattern [r] matches the piece [m] of the
    text, [prev] being the character before [m] (if any) and [rest] the
    text after it.  Only [\b] looks at [prev] and [rest]. *)

Definition within (hi : option nat) (n : nat) : Prop :=
  match hi with Some h => (n ≤ h)%nat | None => True end.

Fixpoint den (r : regex) (prev : option ascii) (m rest : string) : Prop :=
  match r with
  | Eps => m = EmptyString
  | Chr c => ∃ x, m = String x EmptyString ∧ c x = true
  | Seq r1 r2 =>
      ∃ m1 m2, m = m1 +:+ m2
               ∧ den r1 prev m1 (m2 +:+ rest)
               ∧ den r2 (Str.last prev m1) m2 rest
  | Alt r1 r2 => den r1 prev m rest ∨ den r2 prev m rest
  | Opt r1 => den r1 prev m rest ∨ m = EmptyString
  | Rep c lo hi =>
      Str.forallb c m = true ∧ (lo ≤ String.length m)%nat
      ∧ within hi (String.length m)
  | WordB => m = EmptyString ∧ at_boundary prev rest = true
  end.

(** [k] groups of four digits, each followed by at most one character
    of [[-\s]], and nothing else. *)
Fixpoint digit_groups (k : nat) (u : string) : bool :=
  match k with
  | O => match u with EmptyString => true | String _ _ => false end
  | S k' =>
      match u with
      | String a (String b (String c (String d r))) =>
          Chars.is_digit a && Chars.is_digit b
          && Chars.is_digit c && Chars.is_digit d
          && (digit_groups k' r
              || match r with
                 | String x r' => Chars.dash_or_space x && digit_groups k' r'
                 | EmptyString => false
                 end)
      | _ => false
      end
  end.

(** Some piece at the end of [s] starts at a word boundary and is one,
    two or three such groups: a match of the card pattern that starts
    there runs on into what follows [s].  [prev] is the character
    before [s]. *)
Fixpoint groups_in_front (prev : option ascii) (s : string) : bool :=
  negb (word_before prev)
  && (digit_groups 1 s || digit_groups 2 s || digit_groups 3 s)
  || match s with
     | String x s' => groups_in_front (Some x) s'
     | EmptyString => false
     end.

(** The card pattern from its [k]-th last group on. *)
Fixpoint card_tail (k : nat) : regex :=
  match k with
  | O => WordB
  | S k' =>
      Seq Patterns.d4
        match k' with
        | O => WordB
        | S _ => Seq Patterns.sep (card_tail k')
        end
  end.

(** Text of 7-bit characters. *)
Definition seven_bit (t : string) : bool :=
  Str.forallb (fun c => (Chars.code c <? 128)%nat) t.

(** The lines of the context for a list of messages. *)
Fixpoint context_lines (l : list Message) : string :=
  match l with
  | [] => EmptyString
  | msg :: l' => context_line (sender msg) (text msg) +:+ context_lines l'
  end.

(** ** The score as the specification words it

    Section 4.2 gives the bonus of 2 to "a known UPI handle" and the
    bonus of 3 to "a URL-like token"; the known handles and the
    URL-like tokens are those of section 4.1, which the extractor's
    patterns implement. *)
Definition claimed_upi_bonus (text : string) : bool :=
  existsb (fun handle => Str.contains ("@" +:+ handle) (Str.lower text))
    Patterns.upi_handles.

Definition claimed_url_bonus (text : string) : bool :=
  existsb (fun pattern => search pattern (Str.lower text))
    [Patterns.url_scheme; Patterns.url_www; Patterns.url_domain].

Definition claimed_score (text : string) : Q :=
  let text_lower := Str.lower text in
  (qnat (count_in urgency_words text_lower) * 2
   + qnat (count_in threat_words text_lower) * 3
   + qnat (count_in action_words text_lower) * 1.5
   + qnat (count_in request_words text_lower) * 2
   + bonus 3 (claimed_url_bonus text)
   + bonus 2 (claimed_upi_bonus text)
   + bonus 1 (search phone_like text))%Q.

(** * Properties *)

Local Open Scope list_scope.

#[global] Arguments extract : simpl never.
#[global] Arguments detect : simpl never.
#[global] Arguments scam_score : simpl never.
#[global] Arguments findall : simpl never.
#[global] Arguments search : simpl never.
#[global] Arguments probing_responses : simpl never.

(** ** Reasoning about the store *)

Section Store.

Implicit Types (m : gmap string Session) (s : Session) (t : list Event).

Lemma get_session_fetch sid w :
  get_session sid w
  = (current w sid, at_session (sessions w) sid (current w sid) (trace w)).
Proof.
  unfold get_session, current, at_session. destruct w as [m t]; simpl.
  destruct (m !! sid) as [s|] eqn:E; simpl; [|done].
  by rewrite insert_id.
Qed.

Lemma get_session_at m sid s t :
  get_session sid (at_session m sid s t) = (s, at_session m sid s t).
Proof. unfold get_session, at_session; simpl. by rewrite lookup_insert_eq. Qed.

Lemma deref_at m sid s t :
  deref sid (at_session m sid s t) = (s, at_session m sid s t).
Proof. unfold deref, at_session; simpl. by rewrite lookup_insert_eq. Qed.

Lemma modify_at m sid f s t :
  modify sid f (at_session m sid s t) = (tt, at_session m sid (f s) t).
Proof. unfold modify, at_session; simpl. by rewrite alter_insert_eq. Qed.

Lemma emit_at m sid e s t :
  emit e (at_session m sid s t) = (tt, at_session m sid s (t ++ [e])).
Proof. reflexivity. Qed.

Lemma ret_at {A} (a : A) (w : World) : ret a w = (a, w).
Proof. reflexivity. Qed.

Lemma bind_eq {A B} (c : M A) (f : A → M B) w a w' :
  c w = (a, w') → bind c f w = f a w'.
Proof. unfold bind. by intros ->. Qed.

Lemma current_at m sid s t : current (at_session m sid s t) sid = s.
Proof. unfold current, at_session; simpl. by rewrite lookup_insert_eq. Qed.

Lemma at_session_other m sid s t sid' :
  sid ≠ sid' → sessions (at_session m sid s t) !! sid' = m !! sid'.
Proof. intros. unfold at_session; simpl. by rewrite lookup_insert_ne. Qed.

End Store.

(** Steps through a handler body that runs on a fetched session. *)
Ltac step :=
  first
    [ erewrite bind_eq by first
        [ apply get_session_at | apply deref_at | apply modify_at
        | apply emit_at | apply ret_at ]
    | rewrite ret_at ].

(** ** [dict.fromkeys] *)

Section Fromkeys.

Implicit Types (d l e : list string) (x : string).

Lemma dict_has_In d x : dict_has d x = true ↔ In x d.
Proof.
  unfold dict_has. rewrite existsb_exists. split.
  - intros (y & Hy & E). apply String.eqb_eq in E. by subst.
  - intros H. exists x. split; [done|]. apply String.eqb_refl.
Qed.

Lemma dict_has_not_In d x : dict_has d x = false ↔ ¬ In x d.
Proof.
  rewrite <- dict_has_In. destruct (dict_has d x); split; congruence.
Qed.

Lemma fold_add_app d l e :
  fold_left dict_add (l ++ e) d = fold_left dict_add e (fold_left dict_add l d).
Proof. apply fold_left_app. Qed.

(** Keys that are already in the dict do not change it. *)
Lemma fold_add_known e d :
  (∀ x, In x e → In x d) → fold_left dict_add e d = d.
Proof.
  induction e as [|x e IH]; intros H; simpl; [done|].
  unfold dict_add at 2.
  assert (dict_has d x = true) as -> by (apply dict_has_In, H; by left).
  apply IH. intros y Hy. apply H. by right.
Qed.

(** The dict only grows, at its end. *)
Lemma fold_add_prefix l d : ∃ d', fold_left dict_add l d = (d ++ d')%list.
Proof.
  revert d. induction l as [|x l IH]; intros d; simpl.
  - exists []. by rewrite app_nil_r.
  - unfold dict_add at 2. destruct (dict_has d x).
    + apply IH.
    + destruct (IH (d ++ [x])%list) as [d' ->].
      exists ([x] ++ d')%list. by rewrite <- app_assoc.
Qed.

Lemma fold_add_In l d x :
  In x (fold_left dict_add l d) ↔ In x d ∨ In x l.
Proof.
  revert d. induction l as [|y l IH]; intros d; simpl.
  - tauto.
  - rewrite IH. unfold dict_add. destruct (dict_has d y) eqn:E.
    + apply dict_has_In in E. split; [tauto|].
      intros [H|[->|H]]; tauto.
    + rewrite in_app_iff; simpl. tauto.
Qed.

Lemma fold_add_NoDup l d : NoDup d → NoDup (fold_left dict_add l d).
Proof.
  revert d. induction l as [|y l IH]; intros d Hd; simpl; [done|].
  apply IH. unfold dict_add. destruct (dict_has d y) eqn:E; [done|].
  apply dict_has_not_In in E. apply NoDup_app. split_and!; [done| |].
  - intros x Hx Hy. apply list_elem_of_singleton in Hy as ->.
    apply E. by apply list_elem_of_In.
  - apply NoDup_singleton.
Qed.

(** Building a dict from keys that are already distinct keeps them. *)
Lemma fold_add_fresh l d :
  NoDup (d ++ l) → fold_left dict_add l d = (d ++ l)%list.
Proof.
  revert d. induction l as [|y l IH]; intros d Hd; simpl.
  - by rewrite app_nil_r.
  - unfold dict_add at 2.
    assert (dict_has d y = false) as ->.
    { apply dict_has_not_In. intros Hy. apply NoDup_app in Hd as (_ & Hd & _).
      apply (Hd y); [by apply list_elem_of_In | by left]. }
    rewrite IH; rewrite <- app_assoc; done.
Qed.

Lemma fromkeys_NoDup l : NoDup (fromkeys l).
Proof. apply fold_add_NoDup, NoDup_nil_2. Qed.

Lemma fromkeys_In l x : In x (fromkeys l) ↔ In x l.
Proof. unfold fromkeys. rewrite fold_add_In. simpl. tauto. Qed.

Lemma fromkeys_fixed l : NoDup l → fromkeys l = l.
Proof. intros H. unfold fromkeys. by rewrite fold_add_fresh. Qed.

(** Merging the same delivery a second time changes nothing. *)
Lemma fromkeys_again l e :
  fromkeys (fromkeys (l ++ e) ++ e) = fromkeys (l ++ e).
Proof.
  unfold fromkeys at 1. rewrite fold_add_app.
  fold (fromkeys (fromkeys (l ++ e))).
  rewrite (fromkeys_fixed _ (fromkeys_NoDup _)).
  apply fold_add_known. intros x Hx.
  apply fromkeys_In, in_app_iff. by right.
Qed.

End Fromkeys.

(** ** The extractor *)

Lemma fold_findall_app (ps : list regex) (t : string) (ids : list string) :
  fold_left (fun ids pattern => (ids ++ findall pattern t)%list) ps ids
  = (ids ++ concat (List.map (fun pattern => findall pattern t) ps))%list.
Proof.
  revert ids. induction ps as [|p ps IH]; intros ids; simpl.
  - by rewrite app_nil_r.
  - rewrite IH. by rewrite <- app_assoc.
Qed.

Lemma extract_again (intel : ExtractedIntelligence) (text : string) :
  extract (extract intel text) text = extract intel text.
Proof.
  unfold extract.
  cbn [bankAccounts upiIds phishingLinks phoneNumbers suspiciousKeywords].
  rewrite !fold_findall_app, !fromkeys_again. reflexivity.
Qed.

Lemma update_intelligence_fetch sid text w :
  update_intelligence sid text w
  = (tt, at_session (sessions w) sid
           (set_intelligence (extract (intelligence (current w sid)) text)
              (current w sid))
           (trace w)).
Proof.
  unfold update_intelligence.
  by rewrite (bind_eq _ _ _ _ _ (get_session_fetch sid w)), modify_at.
Qed.

Lemma update_intelligence_current sid text w :
  intelligence (current (snd (update_intelligence sid text w)) sid)
  = extract (intelligence (current w sid)) text.
Proof. rewrite update_intelligence_fetch. cbn [snd]. by rewrite current_at. Qed.

(** C7. Extract-and-merge is idempotent: running [update_intelligence]
    a second time with the same text leaves the world, and so each of
    the five lists of the session with its first-seen order, as the
    first run left it; and after the first run no list holds an entry
    twice. *)
Theorem update_intelligence_idempotent :
  ∀ (session_id text : string) (w : World),
    let w1 := snd (update_intelligence session_id text w) in
    let w2 := snd (update_intelligence session_id text w1) in
    w2 = w1
    ∧ intelligence (current w1 session_id)
      = extract (intelligence (current w session_id)) text
    ∧ NoDup (bankAccounts (intelligence (current w1 session_id)))
    ∧ NoDup (upiIds (intelligence (current w1 session_id)))
    ∧ NoDup (phishingLinks (intelligence (current w1 session_id)))
    ∧ NoDup (phoneNumbers (intelligence (current w1 session_id)))
    ∧ NoDup (suspiciousKeywords (intelligence (current w1 session_id))).
Proof.
  intros sid text w. unfold update_intelligence.
  rewrite (bind_eq _ _ _ _ _ (get_session_fetch sid w)), modify_at.
  cbn [snd]. step. rewrite modify_at. cbn [snd].
  rewrite current_at.
  set (s := current w sid).
  split_and!.
  - unfold at_session. f_equal. f_equal. unfold set_intelligence.
    cbn [intelligence messages scam_detected engagement_count should_continue
         scam_type final_result_sent].
    rewrite extract_again. reflexivity.
  - reflexivity.
  - apply fromkeys_NoDup.
  - apply fromkeys_NoDup.
  - apply fromkeys_NoDup.
  - apply fromkeys_NoDup.
  - apply fromkeys_NoDup.
Qed.

(** ** What the tests on a text mean *)

Section Texts.

Lemma append_cons x (a b : string) : String x a +:+ b = String x (a +:+ b).
Proof. reflexivity. Qed.

Lemma append_empty (b : string) : EmptyString +:+ b = b.
Proof. reflexivity. Qed.

Lemma length_append (a b : string) :
  String.length (a +:+ b) = (String.length a + String.length b)%nat.
Proof.
  induction a as [|x a IH]; [done|].
  rewrite append_cons. cbn [String.length]. by rewrite IH.
Qed.

Lemma append_assoc (a b c : string) : (a +:+ b) +:+ c = a +:+ (b +:+ c).
Proof.
  induction a as [|x a IH]; [done|]. by rewrite !append_cons, IH.
Qed.

Lemma prefix_iff (w s : string) :
  String.prefix w s = true ↔ ∃ b, s = w +:+ b.
Proof.
  revert s. induction w as [|x w IH]; intros s.
  - split; [intros _; by exists s|]. intros _. by destruct s.
  - destruct s as [|y s]; cbn [String.prefix].
    + split; [done|]. intros [b Hb]. rewrite append_cons in Hb. discriminate.
    + destruct (ascii_dec x y) as [->|Hne].
      * rewrite IH. split; intros [b Hb]; exists b.
        -- by rewrite append_cons, Hb.
        -- rewrite append_cons in Hb. by inversion Hb.
      * split; [done|]. intros [b Hb]. rewrite append_cons in Hb.
        inversion Hb. congruence.
Qed.

(** [w in s]: the text is something, then [w], then something. *)
Lemma contains_iff (w s : string) :
  Str.contains w s = true ↔ ∃ a b, s = a +:+ w +:+ b.
Proof.
  induction s as [|y s IH]; cbn [Str.contains].
  - rewrite orb_false_r, prefix_iff. split.
    + intros [b Hb]. by exists EmptyString, b.
    + intros (a & b & H). destruct a; [by exists b|].
      rewrite append_cons in H. discriminate.
  - rewrite orb_true_iff, prefix_iff, IH. split.
    + intros [[b Hb]|(a & b & H)].
      * by exists EmptyString, b.
      * exists (String y a), b. by rewrite append_cons, H.
    + intros (a & b & H). destruct a as [|x a].
      * left. by exists b.
      * right. exists a, b. rewrite append_cons in H. by inversion H.
Qed.

Lemma leading_iff c n s :
  (n ≤ leading c s)%nat
  ↔ ∃ run b, s = run +:+ b ∧ String.length run = n
             ∧ Str.forallb c run = true.
Proof.
  revert s. induction n as [|n IH]; intros s.
  - split; [|lia]. intros _. by exists EmptyString, s.
  - destruct s as [|x s]; cbn [leading].
    + split; [lia|]. intros (run & b & H & Hl & _).
      destruct run; [done|]. rewrite append_cons in H. discriminate.
    + destruct (c x) eqn:Ex.
      * rewrite <- Nat.succ_le_mono, IH. split.
        -- intros (run & b & -> & Hl & Hr).
           exists (String x run), b. cbn. by rewrite Ex, Hl, Hr.
        -- intros (run & b & H & Hl & Hr).
           destruct run as [|y run]; [done|].
           rewrite append_cons in H. inversion H; subst.
           cbn in Hl, Hr. apply andb_prop in Hr as [_ Hr].
           exists run, b. split_and!; [done|lia|done].
      * split; [lia|]. intros (run & b & H & Hl & Hr).
        destruct run as [|y run]; [done|].
        rewrite append_cons in H. inversion H; subst.
        cbn in Hr. rewrite Ex in Hr. done.
Qed.

(** An unbounded greedy repetition succeeds exactly when the text
    starts with enough characters of the class. *)
Lemma rep_unbounded_Some c lo prev s :
  is_Some (rep_greedy c lo None prev s (fun _ rest => Some rest))
  ↔ (lo ≤ leading c s)%nat.
Proof.
  assert (∀ n : nat, is_Some (@None string) ↔ (S n ≤ 0)%nat) as Hno.
  { intros n. split; [by intros [? ?]|lia]. }
  assert (∀ (r : string) (n : nat), is_Some (Some r) ↔ (0 ≤ n)%nat) as Hyes.
  { intros r n. split; [lia|by eexists]. }
  revert lo prev. induction s as [|x s IH]; intros lo prev;
    cbn [rep_greedy leading].
  - destruct lo; cbn; [apply Hyes|apply Hno].
  - destruct (c x) eqn:Ex; cbn [andb room less].
    + specialize (IH (Nat.pred lo) (Some x)).
      destruct (rep_greedy c (Nat.pred lo) None (Some x) s
                  (fun _ rest => Some rest)) as [r|]; cbn [or_else].
      * split; [|by eexists]. intros _.
        assert (Nat.pred lo ≤ leading c s)%nat by (apply IH; by eexists).
        lia.
      * destruct lo; cbn.
        -- apply Hyes.
        -- split; [by intros [? ?]|]. intros H.
           assert (is_Some (@None string)) as [? ?]; [|done].
           apply IH. cbn. lia.
    + destruct lo; cbn; [apply Hyes|apply Hno].
Qed.

Lemma search_from_iff r prev s :
  search_from r prev s = true
  ↔ ∃ a s', s = a +:+ s' ∧ is_Some (match_at r (Str.last prev a) s').
Proof.
  revert prev. induction s as [|x s IH]; intros prev; cbn [search_from].
  - destruct (match_at r prev EmptyString) as [rest|] eqn:E.
    + split; [|done]. intros _. exists EmptyString, EmptyString.
      cbn. by rewrite E.
    + split; [done|]. intros (a & s' & H & Hm).
      destruct a; [|rewrite append_cons in H; discriminate].
      rewrite append_empty in H. subst s'. cbn in Hm. rewrite E in Hm.
      by destruct Hm.
  - destruct (match_at r prev (String x s)) as [rest|] eqn:E.
    + split; [|done]. intros _. exists EmptyString, (String x s).
      cbn. by rewrite E.
    + rewrite IH. split.
      * intros (a & s' & -> & Hm). exists (String x a), s'. done.
      * intros (a & s' & H & Hm). destruct a as [|y a].
        -- rewrite append_empty in H. subst s'. cbn in Hm.
           rewrite E in Hm. by destruct Hm.
        -- rewrite append_cons in H. inversion H; subst.
           exists a, s'. done.
Qed.

Lemma match_at_phone_like prev s :
  is_Some (match_at phone_like prev s)
  ↔ (10 ≤ leading Chars.is_digit s)%nat
    ∨ ∃ s', s = String "+" s' ∧ (10 ≤ leading Chars.is_digit s')%nat.
Proof.
  unfold match_at, phone_like. cbn [Cat rmatch Lit].
  pose proof (rep_unbounded_Some Chars.is_digit 10 prev s) as Hhere.
  destruct s as [|x s].
  - cbn [or_else]. rewrite Hhere. split; [by left|].
    intros [H|(s' & H & _)]; [done|discriminate].
  - destruct (Ascii.eqb "+" x) eqn:Ex.
    + apply Ascii.eqb_eq in Ex. subst x.
      pose proof (rep_unbounded_Some Chars.is_digit 10 (Some "+"%char) s)
        as Hnext.
      destruct (rep_greedy Chars.is_digit 10 None (Some "+"%char) s
                  (fun _ rest => Some rest)) as [r|]; cbn [or_else].
      * split; [|done]. intros _. right. exists s. split; [done|].
        by apply Hnext.
      * rewrite Hhere. split; [by left|].
        intros [H|(s' & [= <-] & H)]; [done|].
        apply Hnext in H. by destruct H.
    + cbn [or_else]. rewrite Hhere. split; [by left|].
      intros [H|(s' & [= Hx Hs] & _)]; [done|]. subst x.
      by rewrite Ascii.eqb_refl in Ex.
Qed.

(** The phone bonus: the text has ten digits in a row. *)
Lemma phone_like_iff (text : string) :
  search phone_like text = true
  ↔ ∃ a run b, text = a +:+ run +:+ b ∧ String.length run = 10%nat
               ∧ Str.forallb Chars.is_digit run = true.
Proof.
  unfold search. rewrite search_from_iff. split.
  - intros (a & s' & -> & Hm). apply match_at_phone_like in Hm.
    destruct Hm as [H|(s'' & -> & H)];
      apply leading_iff in H as (run & b & -> & Hl & Hr).
    + by exists a, run, b.
    + exists (a +:+ String "+" EmptyString), run, b.
      split; [|done]. by rewrite append_assoc.
  - intros (a & run & b & -> & Hl & Hr).
    exists a, (run +:+ b). split; [done|].
    apply match_at_phone_like. left. apply leading_iff. by exists run, b.
Qed.

End Texts.

(** ** The matcher finds what the patterns denote *)

Section Denotation.

Lemma last_append prev (a b : string) :
  Str.last prev (a +:+ b) = Str.last (Str.last prev a) b.
Proof.
  revert prev. induction a as [|x a IH]; intros prev; [done|].
  rewrite append_cons. cbn [Str.last]. apply IH.
Qed.

Lemma is_Some_or_else {A} (x y : option A) :
  is_Some (or_else x y) ↔ is_Some x ∨ is_Some y.
Proof.
  destruct x as [a|]; cbn [or_else].
  - split; [by left|by eexists].
  - split; [by right|]. intros [[? ?]|H]; done.
Qed.

Lemma rep_greedy_sound {A} c (k : kont A) a : ∀ s lo hi prev,
  rep_greedy c lo hi prev s k = Some a →
  ∃ m rest, s = m +:+ rest ∧ den (Rep c lo hi) prev m rest
            ∧ k (Str.last prev m) rest = Some a.
Proof.
  assert (∀ s lo hi prev,
            (if (lo =? 0)%nat then k prev s else None) = Some a →
            ∃ m rest, s = m +:+ rest ∧ den (Rep c lo hi) prev m rest
                      ∧ k (Str.last prev m) rest = Some a) as Hstop.
  { intros s lo hi prev H. destruct lo; [|done].
    exists EmptyString, s. cbn. split_and!; try done.
    destruct hi; cbn; [lia|done]. }
  induction s as [|x s IH]; intros lo hi prev H; cbn [rep_greedy] in H.
  - by apply Hstop.
  - destruct (c x && room hi) eqn:E; [|by apply Hstop].
    destruct (rep_greedy c (Nat.pred lo) (less hi) (Some x) s k) as [a'|] eqn:Er;
      cbn [or_else] in H; [|by apply Hstop].
    inversion H; subst a'. apply andb_prop in E as [Ex Eroom].
    destruct (IH _ _ _ Er) as (m & rest & -> & (Hm & Hlo & Hhi) & Hk).
    exists (String x m), rest. rewrite append_cons. cbn.
    split_and!; try done.
    + by rewrite Ex, Hm.
    + lia.
    + destruct hi as [[|h]|]; cbn in *; try done. lia.
Qed.

Lemma rep_greedy_complete {A} c (k : kont A) : ∀ m lo hi prev rest,
  den (Rep c lo hi) prev m rest →
  is_Some (k (Str.last prev m) rest) →
  is_Some (rep_greedy c lo hi prev (m +:+ rest) k).
Proof.
  induction m as [|x m IH]; intros lo hi prev rest (Hm & Hlo & Hhi) Hk.
  - rewrite append_empty. cbn in Hlo, Hk.
    assert (lo = 0%nat) as -> by lia.
    destruct rest as [|y rest]; cbn [rep_greedy Nat.eqb]; [done|].
    destruct (c y && room hi); [|done].
    apply is_Some_or_else. by right.
  - rewrite append_cons. cbn [rep_greedy]. cbn in Hm, Hlo, Hhi, Hk.
    apply andb_prop in Hm as [Hx Hm]. rewrite Hx.
    assert (room hi = true) as ->
      by (destruct hi as [[|h]|]; cbn in *; try done; lia).
    cbn [andb]. apply is_Some_or_else. left. apply IH; [|done].
    split_and!; [done|lia|].
    destruct hi as [[|h]|]; cbn in *; try done; lia.
Qed.

(** Soundness: a successful match consumed a piece the pattern
    denotes, and handed the rest to the continuation. *)
Lemma rmatch_sound {A} r : ∀ prev s (k : kont A) a,
  rmatch r prev s k = Some a →
  ∃ m rest, s = m +:+ rest ∧ den r prev m rest
            ∧ k (Str.last prev m) rest = Some a.
Proof.
  induction r as [|c|r1 IH1 r2 IH2|r1 IH1 r2 IH2|r1 IH1|c lo hi|];
    intros prev s k a H; cbn [rmatch] in H.
  - by exists EmptyString, s.
  - destruct s as [|x s]; [done|]. destruct (c x) eqn:E; [|done].
    exists (String x EmptyString), s. split_and!; [done| |done].
    by exists x.
  - destruct (IH1 _ _ _ _ H) as (m1 & rest1 & -> & D1 & H1).
    destruct (IH2 _ _ _ _ H1) as (m2 & rest2 & -> & D2 & H2).
    exists (m1 +:+ m2), rest2. rewrite append_assoc, last_append.
    split_and!; [done| |done]. by exists m1, m2.
  - destruct (rmatch r1 prev s k) as [a'|] eqn:E; cbn [or_else] in H.
    + inversion H; subst a'.
      destruct (IH1 _ _ _ _ E) as (m & rest & -> & D & Hk).
      exists m, rest. split_and!; [done|by left|done].
    + destruct (IH2 _ _ _ _ H) as (m & rest & -> & D & Hk).
      exists m, rest. split_and!; [done|by right|done].
  - destruct (rmatch r1 prev s k) as [a'|] eqn:E; cbn [or_else] in H.
    + inversion H; subst a'.
      destruct (IH1 _ _ _ _ E) as (m & rest & -> & D & Hk).
      exists m, rest. split_and!; [done|by left|done].
    + exists EmptyString, s. split_and!; [done|by right|done].
  - by apply rep_greedy_sound.
  - destruct (at_boundary prev s) eqn:E; [|done].
    by exists EmptyString, s.
Qed.

(** Completeness: backtracking finds a match whenever there is one. *)
Lemma rmatch_complete {A} r : ∀ prev m rest (k : kont A),
  den r prev m rest →
  is_Some (k (Str.last prev m) rest) →
  is_Some (rmatch r prev (m +:+ rest) k).
Proof.
  induction r as [|c|r1 IH1 r2 IH2|r1 IH1 r2 IH2|r1 IH1|c lo hi|];
    intros prev m rest k D Hk; cbn [den] in D; cbn [rmatch].
  - by subst m.
  - destruct D as (x & -> & Hx). rewrite append_cons, append_empty.
    by rewrite Hx.
  - destruct D as (m1 & m2 & -> & D1 & D2). rewrite append_assoc.
    apply IH1; [done|]. apply IH2; [done|]. by rewrite <- last_append.
  - apply is_Some_or_else. destruct D as [D|D]; [left|right]; eauto.
  - apply is_Some_or_else. destruct D as [D| ->]; [left; eauto|by right].
  - by apply rep_greedy_complete.
  - destruct D as [-> D]. rewrite append_empty, D. done.
Qed.

Lemma match_at_den r prev s :
  is_Some (match_at r prev s) ↔ ∃ m rest, s = m +:+ rest ∧ den r prev m rest.
Proof.
  unfold match_at. split.
  - intros [a H]. apply rmatch_sound in H as (m & rest & ? & ? & _). eauto.
  - intros (m & rest & -> & D). by apply rmatch_complete.
Qed.

(** [re.search] succeeds exactly when some piece of the text is
    denoted by the pattern. *)
Lemma search_den r t :
  search r t = true
  ↔ ∃ a m b, t = a +:+ m +:+ b ∧ den r (Str.last None a) m b.
Proof.
  unfold search. rewrite search_from_iff. split.
  - intros (a & s' & -> & H). apply match_at_den in H as (m & b & -> & D).
    by exists a, m, b.
  - intros (a & m & b & -> & D). exists a, (m +:+ b). split; [done|].
    apply match_at_den. by exists m, b.
Qed.

Lemma den_Lit a prev m rest : den (Lit a) prev m rest ↔ m = String a EmptyString.
Proof.
  unfold Lit. cbn [den]. split.
  - intros (x & -> & H). apply Ascii.eqb_eq in H. by subst.
  - intros ->. exists a. split; [done|apply Ascii.eqb_refl].
Qed.

Lemma den_Word w : ∀ prev m rest, den (Word w) prev m rest ↔ m = w.
Proof.
  induction w as [|a w IH]; intros prev m rest; [done|].
  destruct w as [|b w].
  - apply den_Lit.
  - change (Word (String a (String b w)))
      with (Seq (Lit a) (Word (String b w))).
    cbn [den]. split.
    + intros (m1 & m2 & -> & D1 & D2).
      apply den_Lit in D1 as ->. apply IH in D2 as ->. done.
    + intros ->. exists (String a EmptyString), (String b w).
      split_and!; [done|by apply den_Lit|by apply IH].
Qed.

Lemma den_OneOf rs prev m rest :
  rs ≠ [] →
  den (OneOf rs) prev m rest ↔ ∃ r, In r rs ∧ den r prev m rest.
Proof.
  induction rs as [|r rs IH]; [done|]. intros _.
  destruct rs as [|r' rs].
  - cbn [OneOf]. split; [intros D; exists r; split; [by left|done]|].
    intros (r0 & [<-|[]] & D). done.
  - change (OneOf (r :: r' :: rs)) with (Alt r (OneOf (r' :: rs))).
    cbn [den]. rewrite IH by done. split.
    + intros [D|(r0 & Hin & D)]; [exists r|exists r0];
        (split; [|done]); [by left|by right].
    + intros (r0 & [<-|Hin] & D); [by left|right; eauto].
Qed.

Lemma den_Words ws prev m rest :
  ws ≠ [] → den (Words ws) prev m rest ↔ In m ws.
Proof.
  intros H. unfold Words. rewrite den_OneOf by (by destruct ws). split.
  - intros (r & Hin & D). apply in_map_iff in Hin as (w & <- & Hw).
    apply den_Word in D. by subst.
  - intros Hin. exists (Word m). split; [by apply in_map|by apply den_Word].
Qed.

End Denotation.

(** ** The classifier *)

(** C4. The three reference messages are classified as bank fraud, as a
    fake offer, and as no scam. *)
Theorem detect_reference_messages :
  detect "Your bank account will be blocked today. Verify immediately."
    = (true, Some bank_fraud)
  ∧ detect "Congratulations! You have won a lottery!" = (true, Some fake_offers)
  ∧ detect "Hello, how are you today?" = (false, None).
Proof. split_and!; vm_compute; reflexivity. Qed.

Lemma pattern_category_None (t : string) :
  pattern_category t = None
  ↔ ∀ c ps p, In (c, ps) SCAM_PATTERNS → In p ps → search p t = false.
Proof.
  unfold pattern_category.
  generalize SCAM_PATTERNS as table.
  induction table as [|[c0 ps0] table IH]; simpl.
  - split; [intros _ ? ? ? []|done].
  - destruct (existsb (λ pattern : regex, search pattern t) ps0) eqn:E; simpl.
    + split; [done|]. intros H. exfalso.
      apply existsb_exists in E as (p & Hp & Hs).
      rewrite (H c0 ps0 p) in Hs; [done|by left|done].
    + rewrite IH. split.
      * intros H c ps p [Hc|Hc] Hp; [|by eapply H].
        inversion Hc; subst.
        destruct (search p t) eqn:Es; [|done].
        assert (existsb (λ pattern : regex, search pattern t) ps = true) as Hx
          by (apply existsb_exists; eauto).
        congruence.
      * intros H c ps p Hc Hp. apply (H c ps p); [by right|done].
Qed.

(** *** What the two bonus tests accept *)

Section Bonuses.

Lemma den_scheme prev m rest :
  den (Cat [Word "http"; Opt (Lit "s"); Word "://"]) prev m rest
  ↔ m = "http://" ∨ m = "https://".
Proof.
  cbn [Cat den]. split.
  - intros (m1 & m2 & -> & D1 & m3 & m4 & -> & D3 & D4).
    apply den_Word in D1 as ->. apply den_Word in D4 as ->.
    destruct D3 as [D3| ->]; [apply den_Lit in D3 as ->; by right|by left].
  - intros [-> | ->].
    + exists "http", "://". split_and!; [done|by apply den_Word|].
      exists "", "://". split_and!; [done|by right|by apply den_Word].
    + exists "http", "s://". split_and!; [done|by apply den_Word|].
      exists "s", "://".
      split_and!; [done|left; by apply den_Lit|by apply den_Word].
Qed.

Lemma den_domain tlds prev m rest :
  tlds ≠ [] →
  den (Cat [Plus Chars.is_word; Lit "."; Words tlds]) prev m rest
  ↔ ∃ ws tld, m = ws +:+ "." +:+ tld ∧ ws ≠ ""
              ∧ Str.forallb Chars.is_word ws = true ∧ In tld tlds.
Proof.
  intros Ht. unfold Plus. cbn [Cat den]. split.
  - intros (ws & m2 & -> & (Hws & Hlen & _) & dot & tld & -> & Ddot & Dtld).
    apply den_Lit in Ddot as ->. apply den_Words in Dtld; [|done].
    exists ws, tld. split_and!; try done.
    intros ->. cbn in Hlen. lia.
  - intros (ws & tld & -> & Hne & Hws & Hin).
    exists ws, ("." +:+ tld). split_and!; try done.
    + destruct ws; [done|cbn; lia].
    + exists ".", tld.
      split_and!; [done|by apply den_Lit|by apply den_Words].
Qed.

(** [has_url]: the text holds [http://], [https://], [www.], or a run
    of word characters, a dot and one of the classifier's seven
    top-level domains. *)
Lemma url_like_iff t :
  search url_like t = true
  ↔ occurs_in "http://" t ∨ occurs_in "https://" t ∨ occurs_in "www." t
    ∨ ∃ ws tld, ws ≠ "" ∧ Str.forallb Chars.is_word ws = true
        ∧ In tld ["com"; "in"; "org"; "net"; "xyz"; "click"; "top"]
        ∧ occurs_in (ws +:+ "." +:+ tld) t.
Proof.
  rewrite search_den. unfold url_like. cbn [OneOf den]. split.
  - intros (a & m & b & -> & [D|[D|D]]).
    + apply den_scheme in D as [-> | ->]; [left|right; left]; by exists a, b.
    + apply den_Word in D as ->. right; right; left. by exists a, b.
    + apply den_domain in D as (ws & tld & -> & Hne & Hws & Hin); [|done].
      right; right; right. exists ws, tld. split_and!; try done.
      by exists a, b.
  - intros [(a & b & ->)|[(a & b & ->)|[(a & b & ->)|H]]].
    + exists a, "http://", b. split; [done|]. left. apply den_scheme. by left.
    + exists a, "https://", b. split; [done|]. left. apply den_scheme.
      by right.
    + exists a, "www.", b. split; [done|]. right; left. by apply den_Word.
    + destruct H as (ws & tld & Hne & Hws & Hin & a & b & ->).
      exists a, (ws +:+ "." +:+ tld), b. split; [done|]. right; right.
      apply den_domain; [done|]. by exists ws, tld.
Qed.

(** [has_upi]: the text holds [@] followed by one of the classifier's
    eight handles. *)
Lemma upi_like_iff t :
  search upi_like t = true
  ↔ ∃ handle,
      In handle ["paytm"; "phonepe"; "gpay"; "upi"; "ybl"; "oksbi";
                 "okaxis"; "okicici"]
      ∧ occurs_in ("@" +:+ handle) t.
Proof.
  rewrite search_den. unfold upi_like. cbn [Cat den]. split.
  - intros (a & m & b & -> & m1 & handle & -> & D1 & D2).
    apply den_Lit in D1 as ->. apply den_Words in D2; [|done].
    exists handle. split; [done|]. by exists a, b.
  - intros (handle & Hin & a & b & ->).
    exists a, ("@" +:+ handle), b. split; [done|].
    exists "@", handle.
    split_and!; [done|by apply den_Lit|by apply den_Words].
Qed.

End Bonuses.




(** ** Session introspection *)


(** C9. [get_session_status] answers 404 exactly when the id is not in
    the store, answers a known id with the five counts, the scam flag
    and type, the engagement count, the message count and the
    continuation flag, and in both cases leaves the world as it was: an
    unknown id is not created. *)
Theorem get_session_status_read_only :
  ∀ (session_id : string) (w : World),
    let r := fst (get_session_status session_id w) in
    let w' := snd (get_session_status session_id w) in
    w' = w
    ∧ ((∃ e, r = inl e) ↔ sessions w !! session_id = None)
    ∧ match sessions w !! session_id with
      | None => r = inl {| status_code := 404; detail := "Session not found" |}
      | Some s => r = inr (session_status session_id s)
      end.
Proof.
  intros sid w. unfold get_session_status.
  destruct (sessions w !! sid) as [s|] eqn:E; cbn [fst snd].
  - split_and!; [done| |done].
    split; [intros [e He]; discriminate | intros; discriminate].
  - split_and!; [done| |done].
    split; [done|eauto].
Qed.

(** ** The final report *)


Lemma post_attempts_at env sid payload m s t attempt left :
  post_attempts env sid payload attempt left (at_session m sid s t)
  = (tt, at_session m sid (flagged (fst (attempts env attempt left)) s)
           (t ++ repeat (Post payload) (snd (attempts env attempt left)))).
Proof.
  revert attempt t. induction left as [|left IH]; intros attempt t.
  - simpl. by rewrite app_nil_r.
  - cbn [post_attempts attempts]. step.
    destruct (attempts env (S attempt) left) as [b n] eqn:E.
    specialize (IH (S attempt) (t ++ [Post payload])).
    rewrite E in IH. cbn [fst snd] in IH.
    rewrite <- app_assoc in IH. simpl in IH.
    destruct (http env attempt) as [c| | |]; try exact IH.
    + destruct (accepted c); [|exact IH]. by rewrite modify_at.
    + by rewrite ret_at.
Qed.

Lemma attempts_posts env attempt left :
  (snd (attempts env attempt left) ≤ left)%nat
  ∧ (0 < left → 0 < snd (attempts env attempt left))%nat.
Proof.
  revert attempt. induction left as [|left IH]; intros attempt; simpl; [lia|].
  specialize (IH (S attempt)).
  destruct (attempts env (S attempt) left) as [b n]; simpl in *.
  destruct (http env attempt) as [c| | |]; simpl; try lia.
  destruct (accepted c); simpl; lia.
Qed.

(** The flag follows an accepted response, and nothing else. *)
Lemma attempts_delivered env attempt left :
  fst (attempts env attempt left) = true →
  ∃ i c, (attempt ≤ i < attempt + left)%nat
         ∧ http env i = Responded c ∧ accepted c = true.
Proof.
  revert attempt. induction left as [|left IH]; intros attempt.
  - simpl. done.
  - cbn [attempts]. specialize (IH (S attempt)).
    destruct (attempts env (S attempt) left) as [b n]; cbn [fst] in *.
    assert (b = true →
            ∃ i c, (attempt ≤ i < attempt + S left)%nat
                   ∧ http env i = Responded c ∧ accepted c = true) as Hlater.
    { intros Hb. destruct (IH Hb) as (i & c & Hi & Hr & Ha).
      exists i, c. split; [lia|done]. }
    destruct (http env attempt) as [c| | |] eqn:Eh; simpl;
      [|exact Hlater|exact Hlater|discriminate].
    destruct (accepted c) eqn:Ea; simpl; [|exact Hlater].
    intros _. exists attempt, c. split; [lia|done].
Qed.

Lemma attempts_first_accepted env attempt left c :
  http env attempt = Responded c → accepted c = true →
  attempts env attempt (S left) = (true, 1%nat).
Proof. intros H1 H2. cbn [attempts]. by rewrite H1, H2. Qed.

Lemma accepted_iff c : accepted c = true ↔ (c = 200 ∨ c = 201)%Z.
Proof. unfold accepted. lia. Qed.

Lemma send_final_result_at env sid m s t :
  send_final_result env sid (at_session m sid s t)
  = (tt,
     if final_result_sent s
     then at_session m sid s (t ++ [SkipDuplicate sid])
     else at_session m sid (flagged (fst (attempts env 0 max_retries)) s)
            (t ++ repeat (Post (final_payload sid s))
                    (snd (attempts env 0 max_retries)))).
Proof.
  unfold send_final_result. step.
  destruct (final_result_sent s).
  - apply emit_at.
  - apply post_attempts_at.
Qed.

Lemma at_session_current w sid :
  final_result_sent (current w sid) = true →
  <[sid := current w sid]> (sessions w) = sessions w.
Proof.
  unfold current. destruct (sessions w !! sid) as [s|] eqn:E; simpl.
  - intros _. by apply insert_id.
  - discriminate.
Qed.

Lemma set_final_result_sent_same (s : Session) :
  set_final_result_sent (final_result_sent s) s = s.
Proof. by destruct s. Qed.

Lemma send_final_result_fetch env sid w :
  send_final_result env sid w
  = send_final_result env sid
      (at_session (sessions w) sid (current w sid) (trace w)).
Proof.
  unfold send_final_result.
  rewrite (bind_eq _ _ _ _ _ (get_session_fetch sid w)).
  by rewrite (bind_eq _ _ _ _ _ (get_session_at _ _ _ _)).
Qed.

(** C10. [send_final_result] changes nothing in the session but the
    flag [final_result_sent], and no other session at all.  Called with
    the flag set it returns at once: the store is as before and the only
    thing that happened is the log line, no post.  Called with the flag
    unset it posts the payload between one and three times, and the
    flag is set afterwards only if one of the three attempts was
    answered with status 200 or 201; when no attempt is answered so, the
    flag stays unset. *)
Theorem final_result_sent_only_on_delivery :
  ∀ (env : Env) (session_id : string) (w : World),
    let s := current w session_id in
    let w' := snd (send_final_result env session_id w) in
    let s' := current w' session_id in
    s' = set_final_result_sent (final_result_sent s') s
    ∧ (∀ other, other ≠ session_id →
                sessions w' !! other = sessions w !! other)
    ∧ (final_result_sent s = true →
       sessions w' = sessions w
       ∧ trace w' = trace w ++ [SkipDuplicate session_id])
    ∧ (final_result_sent s = false →
       ∃ n, (1 ≤ n ≤ 3)%nat
            ∧ trace w'
              = trace w ++ repeat (Post (final_payload session_id s)) n)
    ∧ (final_result_sent s = false → final_result_sent s' = true →
       ∃ i c, (i < 3)%nat ∧ http env i = Responded c
              ∧ (c = 200 ∨ c = 201)%Z)
    ∧ (final_result_sent s = false →
       (∀ i c, (i < 3)%nat → http env i = Responded c →
               (c ≠ 200 ∧ c ≠ 201)%Z) →
       final_result_sent s' = false).
Proof.
  intros env sid w s w' s'. subst w' s'.
  rewrite send_final_result_fetch, send_final_result_at. fold s.
  cbn [snd].
  destruct (final_result_sent s) eqn:Es.
  - rewrite current_at. split_and!.
    + by rewrite Es, <- Es, set_final_result_sent_same.
    + intros other Hne. by apply at_session_other.
    + intros _. split; [|done]. by apply at_session_current.
    + discriminate.
    + discriminate.
    + discriminate.
  - rewrite current_at.
    destruct (attempts env 0 max_retries) as [b n] eqn:Ea. cbn [fst snd].
    pose proof (attempts_posts env 0 max_retries) as [Hle Hpos].
    pose proof (attempts_delivered env 0 max_retries) as Hd.
    rewrite Ea in Hle, Hpos, Hd. cbn [fst snd] in *. unfold max_retries in *.
    split_and!.
    + destruct b; unfold flagged.
      * by destruct s.
      * by rewrite Es, <- Es, set_final_result_sent_same.
    + intros other Hne. by apply at_session_other.
    + discriminate.
    + intros _. exists n. split; [lia|done].
    + intros _ Hset.
      assert (b = true) as ->.
      { destruct b; [done|]. unfold flagged in Hset. congruence. }
      destruct (Hd eq_refl) as (i & c & Hi & Hr & Hc).
      exists i, c. split_and!; [lia|done|by apply accepted_iff].
    + intros _ Hall. destruct b; [|done]. exfalso.
      destruct (Hd eq_refl) as (i & c & Hi & Hr & Hc).
      apply accepted_iff in Hc. destruct (Hall i c ltac:(lia) Hr). lia.
Qed.


Lemma final_result_sent_only_on_delivery_witness :
  let w7 := snd (run (conversation (Responded 200) seven_messages) empty_world) in
  let w0 := snd (get_session "session-1" empty_world) in
  (sessions (snd (send_final_result (env_of (Responded 200)) "session-1" w7))
     = sessions w7)
  ∧ (∃ n, (1 ≤ n ≤ 3)%nat
       ∧ trace (snd (send_final_result (env_of (Responded 500)) "session-1" w0))
         = trace w0 ++ repeat (Post (final_payload "session-1" new_session)) n)
  ∧ final_result_sent
      (current (snd (send_final_result (env_of (Responded 500)) "session-1" w0))
         "session-1") = false
  ∧ (∃ i c, (i < 3)%nat ∧ http (env_of (Responded 201)) i = Responded c
            ∧ (c = 200 ∨ c = 201)%Z).
Proof.
  intros w7 w0. split_and!.
  - apply (final_result_sent_only_on_delivery (env_of (Responded 200))
             "session-1" w7).
    vm_compute. reflexivity.
  - apply (final_result_sent_only_on_delivery (env_of (Responded 500))
             "session-1" w0).
    vm_compute. reflexivity.
  - apply (final_result_sent_only_on_delivery (env_of (Responded 500))
             "session-1" w0).
    + vm_compute. reflexivity.
    + intros i c _ [= <-]. lia.
  - apply (final_result_sent_only_on_delivery (env_of (Responded 201))
             "session-1" w0).
    + vm_compute. reflexivity.
    + vm_compute. reflexivity.
Defined.


(** C1, counterexample. The report of the reference conversation is
    posted with five lists, the (non-empty) keyword list among them. *)
Lemma report_includes_keywords :
  let w := snd (run (conversation (Responded 200) seven_messages) empty_world) in
  ∃ p, In (Post p) (trace w)
       ∧ ¬ Spec.four_lists p
       ∧ In ("suspiciousKeywords",
             suspiciousKeywords (intelligence (current w "session-1")))
            (p_extractedIntelligence p)
       ∧ suspiciousKeywords (intelligence (current w "session-1")) ≠ [].
Proof.
  vm_compute. eexists. split_and!.
  - do 8 right. left. reflexivity.
  - discriminate.
  - do 4 right. left. reflexivity.
  - discriminate.
Qed.

(** C1 (as the code has it). Every report that [send_final_result]
    posts carries five lists under [extractedIntelligence], in this
    order: bank accounts, UPI ids, phishing links, phone numbers and
    suspicious keywords, each being the session's list at that moment;
    the free-text notes count the first four only. *)
Theorem final_report_five_lists :
  ∀ (env : Env) (session_id : string) (w : World) (p : Payload),
    In (Post p) (trace (snd (send_final_result env session_id w))) →
    ¬ In (Post p) (trace w) →
    let intel := intelligence (current w session_id) in
    p = final_payload session_id (current w session_id)
    ∧ p_extractedIntelligence p
      = [ ("bankAccounts", bankAccounts intel);
          ("upiIds", upiIds intel);
          ("phishingLinks", phishingLinks intel);
          ("phoneNumbers", phoneNumbers intel);
          ("suspiciousKeywords", suspiciousKeywords intel) ].
Proof.
  intros env sid w p Hin Hnew intel.
  rewrite send_final_result_fetch, send_final_result_at in Hin.
  cbn [snd] in Hin.
  assert (p = final_payload sid (current w sid)) as ->; [|done].
  destruct (final_result_sent (current w sid)); cbn [trace at_session] in Hin;
    apply in_app_iff in Hin as [Hin|Hin]; try done.
  - destruct Hin as [Hin|[]]. discriminate.
  - apply repeat_spec in Hin. by inversion Hin.
Qed.

Lemma final_report_five_lists_witness :
  let w := snd (get_session "session-1" empty_world) in
  let p := final_payload "session-1" new_session in
  p_extractedIntelligence p
  = [ ("bankAccounts", []); ("upiIds", []); ("phishingLinks", []);
      ("phoneNumbers", []); ("suspiciousKeywords", []) ].
Proof.
  intros w p.
  apply (final_report_five_lists (env_of TimedOut) "session-1" w p).
  - vm_compute. left. reflexivity.
  - vm_compute. intros [].
Defined.

(** ** The strategist *)

Lemma random_choice_In (r : nat) (l : list string) :
  l ≠ [] → In (random_choice r l) l.
Proof.
  intros H. unfold random_choice. apply nth_In.
  apply Nat.mod_upper_bound. destruct l; [done|simpl; lia].
Qed.

Lemma pool_nonempty st c msg : Spec.pool st c msg ≠ [].
Proof.
  destruct st; simpl; try discriminate.
  - destruct c as [[]|]; discriminate.
  - unfold probing_responses.
    repeat match goal with |- context [if ?b then _ else _] => destruct b end;
      discriminate.
Qed.

Lemma generate_response_at env sid hist msg c m s t :
  generate_response env sid hist msg c (at_session m sid s t)
  = (random_choice (rnd env) (Spec.pool (Spec.stage (engagement_count s)) c msg),
     at_session m sid
       (if Spec.is_final (Spec.stage (engagement_count s))
        then set_should_continue false s else s) t).
Proof.
  unfold generate_response. step.
  destruct (engagement_count s) as [|[|[|[|[|[|n]]]]]]; try reflexivity.
  cbn [Nat.eqb Nat.ltb Nat.leb]. unfold _generate_final_response.
  do 2 step. reflexivity.
Qed.

(** C3. The reply of [generate_response] is drawn from the pool that
    the engagement count alone designates: the initial pool of the
    category at 0, the probing pool of the message at 1 and 2, the
    hesitant pool at 3 to 5, the final pool from 6 on.  Drawing from
    the final pool stores [should_continue = False] in the session;
    at the other stages the session is left as it is.  Nothing is
    logged or posted. *)
Theorem generate_response_stages :
  ∀ (env : Env) (session_id : string) (history : list Message)
    (current_message : string) (scam_type : option ScamType) (w : World),
    let s := current w session_id in
    let st := Spec.stage (engagement_count s) in
    let pool := Spec.pool st scam_type current_message in
    let reply :=
      fst (generate_response env session_id history current_message
             scam_type w) in
    let w' :=
      snd (generate_response env session_id history current_message
             scam_type w) in
    reply = random_choice (rnd env) pool
    ∧ In reply pool
    ∧ sessions w' !! session_id
      = Some (if Spec.is_final st then set_should_continue false s else s)
    ∧ should_continue (current w' session_id)
      = (if Spec.is_final st then false else should_continue s)
    ∧ (∀ other, other ≠ session_id →
                sessions w' !! other = sessions w !! other)
    ∧ trace w' = trace w
    ∧ match engagement_count s with
      | 0 => pool = initial_responses scam_type
      | 1 | 2 => pool = probing_responses current_message
      | 3 | 4 | 5 => pool = hesitant_responses
      | _ => pool = final_responses
             ∧ should_continue (current w' session_id) = false
      end.
Proof.
  intros env sid hist msg c w s st pool reply w'.
  subst reply w'. unfold generate_response.
  rewrite (bind_eq _ _ _ _ _ (get_session_fetch sid w)).
  pose proof (generate_response_at env sid hist msg c (sessions w)
                (current w sid) (trace w)) as H.
  unfold generate_response in H.
  rewrite (bind_eq _ _ _ _ _ (get_session_at _ _ _ _)) in H.
  rewrite H. fold s st pool. cbn [fst snd].
  rewrite current_at.
  split_and!.
  - done.
  - apply random_choice_In, pool_nonempty.
  - unfold at_session; cbn [sessions]. apply lookup_insert_eq.
  - by destruct (Spec.is_final st).
  - intros other Hne. by apply at_session_other.
  - done.
  - subst pool st.
    destruct (engagement_count s) as [|[|[|[|[|[|n]]]]]]; done.
Qed.

Lemma generate_response_stages_witness :
  let w6 :=
    snd (run (take 6 (conversation TimedOut seven_messages)) empty_world) in
  let w' :=
    snd (generate_response (env_of TimedOut) "session-1" [] "Pay now"
           (Some bank_fraud) w6) in
  sessions w' !! "session-2" = sessions w6 !! "session-2"
  ∧ should_continue (current w6 "session-1") = true
  ∧ should_continue (current w' "session-1") = false.
Proof.
  intros w6 w'.
  pose proof (generate_response_stages (env_of TimedOut) "session-1" []
                "Pay now" (Some bank_fraud) w6) as H.
  cbv zeta in H. destruct H as (_ & _ & _ & Hc & Ho & _).
  subst w'. split_and!.
  - apply Ho. discriminate.
  - vm_compute. reflexivity.
  - rewrite Hc. vm_compute. reflexivity.
Defined.

(** ** The handler is its session-level description *)

Section Handler.

Variable env : Env.
Variable request : HoneypotRequest.

Let sid := sessionId request.
Let msg := message request.

Lemma update_intelligence_at m s t txt :
  update_intelligence sid txt (at_session m sid s t)
  = (tt, at_session m sid (set_intelligence (extract (intelligence s) txt) s) t).
Proof. unfold update_intelligence. step. by rewrite modify_at. Qed.

Lemma detect_and_engage_at m s t :
  detect_and_engage env request (at_session m sid s t)
  = (fst (fst (engage env request s)),
     at_session m sid (snd (fst (engage env request s)))
       (t ++ snd (engage env request s))).
Proof.
  unfold detect_and_engage. cbv zeta. fold sid msg.
  do 2 step.
  erewrite bind_eq by apply update_intelligence_at.
  unfold engage, engaging, reporting, replied, reported, agent_reply,
    classified.
  fold sid msg. fold (received request s).
  change (set_intelligence _ _) with (received request s).
  destruct (detect (text msg)) as [is_scam ty]. cbn [fst snd].
  step.
  set (s3 := if is_scam && negb (scam_detected (received request s))
             then set_scam ty (received request s) else received request s).
  assert (∀ {A} (k : M A),
    bind (if is_scam && negb (scam_detected (received request s))
          then modify sid (set_scam ty) else ret ()) (fun _ => k)
      (at_session m sid (received request s) t)
    = k (at_session m sid s3 t)) as Hlatch.
  { intros A k. subst s3.
    destruct (is_scam && negb (scam_detected (received request s))); by step. }
  rewrite Hlatch. clear Hlatch.
  step.
  destruct (scam_detected s3 && should_continue s3).
  - erewrite bind_eq by apply generate_response_at.
    do 4 step.
    match goal with
    | |- context [at_session m sid ?x (t ++ [?e])] => set (s6 := x); set (ev := e)
    end.
    step.
    destruct ((7 <=? engagement_count s6)%nat || negb (should_continue s6)).
    + erewrite bind_eq; cycle 1.
      { erewrite bind_eq by apply emit_at. apply send_final_result_at. }
      rewrite ret_at. cbn [fst snd].
      destruct (final_result_sent s6); cbn [fst snd];
        rewrite <- !app_assoc; reflexivity.
    + step. step. reflexivity.
  - rewrite ret_at. cbn [fst snd]. by rewrite app_nil_r.
Qed.

Lemma detect_and_engage_fetch w :
  detect_and_engage env request w
  = (fst (fst (engage env request (current w sid))),
     at_session (sessions w) sid (snd (fst (engage env request (current w sid))))
       (trace w ++ snd (engage env request (current w sid)))).
Proof.
  rewrite <- detect_and_engage_at.
  unfold detect_and_engage. cbv zeta. fold sid.
  rewrite (bind_eq _ _ _ _ _ (get_session_fetch sid w)).
  by rewrite (bind_eq _ _ _ _ _ (get_session_at _ _ _ _)).
Qed.

End Handler.

(** *** What a request does to the fields of its session *)

Section Fields.

Variable env : Env.
Variable request : HoneypotRequest.

Let sid := sessionId request.
Let txt := text (message request).

Lemma classified_detected s :
  scam_detected (classified request s) = scam_detected s || fst (detect txt).
Proof.
  unfold classified. fold txt.
  destruct (fst (detect txt)), (scam_detected (received request s)) eqn:E;
    cbn [andb negb]; try rewrite E; cbn in E; rewrite ?E;
    try reflexivity; rewrite <- E; by destruct (scam_detected s).
Qed.

Lemma classified_type s :
  scam_type (classified request s)
  = if scam_detected s then scam_type s
    else if fst (detect txt) then snd (detect txt) else scam_type s.
Proof.
  unfold classified. fold txt.
  change (scam_detected (received request s)) with (scam_detected s).
  destruct (fst (detect txt)), (scam_detected s); reflexivity.
Qed.

Lemma classified_count s :
  engagement_count (classified request s) = engagement_count s.
Proof.
  unfold classified.
  by destruct (fst (detect _) && negb (scam_detected (received request s))).
Qed.

Lemma classified_continue s :
  should_continue (classified request s) = should_continue s.
Proof.
  unfold classified.
  by destruct (fst (detect _) && negb (scam_detected (received request s))).
Qed.

Lemma classified_sent s :
  final_result_sent (classified request s) = final_result_sent s.
Proof.
  unfold classified.
  by destruct (fst (detect _) && negb (scam_detected (received request s))).
Qed.

Lemma classified_messages s :
  messages (classified request s) = messages s ++ [message request].
Proof.
  unfold classified.
  by destruct (fst (detect _) && negb (scam_detected (received request s))).
Qed.

Lemma replied_detected s :
  scam_detected (replied env request s) = scam_detected (classified request s).
Proof.
  unfold replied. cbv zeta.
  by destruct
       (Spec.is_final (Spec.stage (engagement_count (classified request s)))).
Qed.

Lemma replied_type s :
  scam_type (replied env request s) = scam_type (classified request s).
Proof.
  unfold replied. cbv zeta.
  by destruct
       (Spec.is_final (Spec.stage (engagement_count (classified request s)))).
Qed.

Lemma replied_count s :
  engagement_count (replied env request s) = S (engagement_count s).
Proof.
  unfold replied. cbv zeta.
  destruct (Spec.is_final (Spec.stage (engagement_count (classified request s))));
    cbn [engagement_count set_messages set_engagement_count set_should_continue];
    rewrite classified_count; lia.
Qed.

Lemma final_stage n : Spec.is_final (Spec.stage n) = (6 <=? n)%nat.
Proof. by destruct n as [|[|[|[|[|[|n]]]]]]. Qed.

Lemma replied_continue s :
  should_continue (replied env request s)
  = if (6 <=? engagement_count s)%nat then false else should_continue s.
Proof.
  unfold replied. cbv zeta. rewrite final_stage, classified_count.
  destruct (6 <=? engagement_count s)%nat;
    cbn [should_continue set_messages set_engagement_count set_should_continue];
    [done|apply classified_continue].
Qed.

Lemma replied_sent s :
  final_result_sent (replied env request s) = final_result_sent s.
Proof.
  unfold replied. cbv zeta.
  destruct (Spec.is_final (Spec.stage (engagement_count (classified request s))));
    cbn [final_result_sent set_messages set_engagement_count set_should_continue];
    apply classified_sent.
Qed.

Lemma replied_messages s :
  length (messages (replied env request s)) = (length (messages s) + 2)%nat.
Proof.
  unfold replied. cbv zeta.
  destruct (Spec.is_final (Spec.stage (engagement_count (classified request s))));
    cbn [messages set_messages set_engagement_count set_should_continue];
    rewrite length_app, classified_messages, length_app; simpl; lia.
Qed.

Lemma flagged_fields b s :
  scam_detected (flagged b s) = scam_detected s
  ∧ scam_type (flagged b s) = scam_type s
  ∧ engagement_count (flagged b s) = engagement_count s
  ∧ should_continue (flagged b s) = should_continue s
  ∧ messages (flagged b s) = messages s
  ∧ intelligence (flagged b s) = intelligence s.
Proof. by destruct b. Qed.

Lemma reported_fields s :
  scam_detected (fst (reported env request s)) = scam_detected s
  ∧ scam_type (fst (reported env request s)) = scam_type s
  ∧ engagement_count (fst (reported env request s)) = engagement_count s
  ∧ should_continue (fst (reported env request s)) = should_continue s
  ∧ messages (fst (reported env request s)) = messages s
  ∧ intelligence (fst (reported env request s)) = intelligence s.
Proof.
  unfold reported. destruct (final_result_sent s); cbn [fst];
    [done|apply flagged_fields].
Qed.

Lemma engaging_eq s :
  engaging request s = (scam_detected s || fst (detect txt)) && should_continue s.
Proof. unfold engaging. by rewrite classified_detected, classified_continue. Qed.

Lemma reporting_eq s :
  should_continue s = true →
  reporting env request s = (6 <=? engagement_count s)%nat.
Proof.
  intros H. unfold reporting. rewrite replied_count, replied_continue, H.
  destruct (6 <=? engagement_count s)%nat eqn:E; cbn [negb].
  - apply orb_true_r.
  - rewrite orb_false_r. apply Nat.leb_gt in E. apply Nat.leb_gt. lia.
Qed.


Lemma after_detected s :
  scam_detected (after env request s) = scam_detected s || fst (detect txt).
Proof.
  unfold after, engage. fold sid.
  destruct (engaging request s); [destruct (reporting env request s)|];
    cbn [fst snd].
  - destruct (reported_fields (replied env request s)) as (-> & _).
    by rewrite replied_detected, classified_detected.
  - by rewrite replied_detected, classified_detected.
  - apply classified_detected.
Qed.

Lemma after_type s :
  scam_detected s = true → scam_type (after env request s) = scam_type s.
Proof.
  intros H. unfold after, engage. fold sid.
  destruct (engaging request s); [destruct (reporting env request s)|];
    cbn [fst snd].
  - destruct (reported_fields (replied env request s)) as (_ & -> & _).
    by rewrite replied_type, classified_type, H.
  - by rewrite replied_type, classified_type, H.
  - by rewrite classified_type, H.
Qed.

End Fields.

(** ** Conversations *)

Lemma run_cons env request calls w :
  run ((env, request) :: calls) w
  = (fst (detect_and_engage env request w)
       :: fst (run calls (snd (detect_and_engage env request w))),
     snd (run calls (snd (detect_and_engage env request w)))).
Proof.
  cbn [run]. unfold bind.
  destruct (detect_and_engage env request w) as [r w1]. cbn [fst snd].
  by destruct (run calls w1).
Qed.

Lemma detect_and_engage_sessions env request w sid :
  sessions (snd (detect_and_engage env request w)) !! sid
  = if decide (sessionId request = sid)
    then Some (after env request (current w sid))
    else sessions w !! sid.
Proof.
  rewrite detect_and_engage_fetch. cbn [snd at_session sessions].
  destruct (decide (sessionId request = sid)) as [<-|Hne].
  - by rewrite lookup_insert_eq.
  - by rewrite lookup_insert_ne.
Qed.

Lemma detect_and_engage_trace env request w :
  trace (snd (detect_and_engage env request w))
  = trace w ++ snd (engage env request (current w (sessionId request))).
Proof. by rewrite detect_and_engage_fetch. Qed.

Lemma detect_and_engage_current env request w :
  current (snd (detect_and_engage env request w)) (sessionId request)
  = after env request (current w (sessionId request)).
Proof.
  unfold current at 1. rewrite detect_and_engage_sessions.
  by rewrite decide_True.
Qed.

(** C8. Once a session is flagged as a scam, no later request, for this
    or any other session and whatever the classifier says about its
    text, changes the session's category or clears the flag. *)
Theorem scam_type_fixed_once_detected :
  ∀ (calls : list (Env * HoneypotRequest)) (w : World)
    (session_id : string) (s : Session),
    sessions w !! session_id = Some s →
    scam_detected s = true →
    ∃ s', sessions (snd (run calls w)) !! session_id = Some s'
          ∧ scam_detected s' = true
          ∧ scam_type s' = scam_type s.
Proof.
  induction calls as [|[env request] calls IH]; intros w sid s Hs Hd.
  - exists s. done.
  - rewrite run_cons. cbn [snd].
    pose proof (detect_and_engage_sessions env request w sid) as Hstep.
    destruct (decide (sessionId request = sid)) as [E|E].
    + assert (current w sid = s) as Hc by (unfold current; by rewrite Hs).
      rewrite Hc in Hstep.
      destruct (IH _ _ _ Hstep) as (s' & H1 & H2 & H3).
      { rewrite after_detected, Hd. done. }
      exists s'. split_and!; [done|done|].
      rewrite H3. by apply after_type.
    + rewrite Hs in Hstep. by apply (IH _ _ _ Hstep).
Qed.

Lemma scam_type_fixed_once_detected_witness :
  let w1 :=
    snd (run (conversation TimedOut ["Congratulations! You have won a lottery!"])
           empty_world) in
  let later :=
    conversation TimedOut
      ["Your bank account will be blocked today. Verify immediately.";
       "Share the OTP now"] in
  ∃ s', sessions (snd (run later w1)) !! "session-1" = Some s'
        ∧ scam_detected s' = true
        ∧ scam_type s' = Some fake_offers.
Proof.
  intros w1 later.
  apply (scam_type_fixed_once_detected later w1 "session-1"
           (current w1 "session-1")).
  - vm_compute. reflexivity.
  - vm_compute. reflexivity.
Defined.

Lemma run_app calls1 calls2 w :
  run (calls1 ++ calls2) w
  = (fst (run calls1 w) ++ fst (run calls2 (snd (run calls1 w))),
     snd (run calls2 (snd (run calls1 w)))).
Proof.
  revert w. induction calls1 as [|[env request] calls1 IH]; intros w.
  - cbn [app run]. rewrite ret_at. cbn [fst snd app]. by destruct (run calls2 w).
  - rewrite <- app_comm_cons, !run_cons, IH. reflexivity.
Qed.

Section Engagement.

Variable env : Env.
Variable request : HoneypotRequest.

Let sid := sessionId request.
Let txt := text (message request).

Lemma engage_early s :
  scam_detected s || fst (detect txt) = true →
  should_continue s = true →
  (engagement_count s < 6)%nat →
  engage env request s
  = ({| status := "success"; reply := agent_reply env request s |},
     replied env request s,
     [AgentResponse sid (S (engagement_count s))]).
Proof.
  intros H1 H2 H3. unfold engage.
  rewrite engaging_eq, reporting_eq by done. fold txt. rewrite H1, H2.
  cbn [andb]. apply Nat.leb_gt in H3. rewrite H3.
  by rewrite replied_count.
Qed.

Lemma engage_last s :
  scam_detected s || fst (detect txt) = true →
  should_continue s = true →
  (6 ≤ engagement_count s)%nat →
  engage env request s
  = ({| status := "success"; reply := agent_reply env request s |},
     fst (reported env request (replied env request s)),
     AgentResponse sid (S (engagement_count s))
       :: TriggerCallback sid
       :: snd (reported env request (replied env request s))).
Proof.
  intros H1 H2 H3. unfold engage.
  rewrite engaging_eq, reporting_eq by done. fold txt. rewrite H1, H2.
  cbn [andb]. apply Nat.leb_le in H3. rewrite H3.
  by rewrite replied_count.
Qed.

Lemma engage_ended s :
  should_continue s = false →
  engage env request s
  = ({| status := "success"; reply := closing_reply |},
     classified request s, []).
Proof.
  intros H. unfold engage. rewrite engaging_eq, H.
  by rewrite andb_false_r.
Qed.

Lemma closing_reply_not_in_pool st c msg :
  ¬ In closing_reply (Spec.pool st c msg).
Proof.
  intros H. apply dict_has_In in H.
  destruct st; cbn [Spec.pool] in H.
  - destruct c as [[]|]; vm_compute in H; discriminate.
  - unfold probing_responses in H.
    repeat match type of H with
           | context [if ?b then _ else _] => destruct b
           end; vm_compute in H; discriminate.
  - vm_compute in H; discriminate.
  - vm_compute in H; discriminate.
Qed.

Lemma agent_reply_not_closing s : agent_reply env request s ≠ closing_reply.
Proof.
  unfold agent_reply. cbv zeta. intros H.
  eapply closing_reply_not_in_pool. rewrite <- H.
  apply random_choice_In, pool_nonempty.
Qed.

End Engagement.

Lemma final_payload_flagged sid b s :
  final_payload sid (flagged b s) = final_payload sid s.
Proof. by destruct b. Qed.


(** While the count stays below six, every scam message of the session
    is answered by the agent and nothing is reported. *)
Lemma run_engaging sid calls : ∀ w,
  Forall (for_session sid) calls →
  Forall scam_message calls →
  should_continue (current w sid) = true →
  (engagement_count (current w sid) + length calls ≤ 6)%nat →
  let w' := snd (run calls w) in
  should_continue (current w' sid) = true
  ∧ engagement_count (current w' sid)
    = (engagement_count (current w sid) + length calls)%nat
  ∧ (calls ≠ [] → scam_detected (current w' sid) = true)
  ∧ (scam_detected (current w sid) = true →
     scam_detected (current w' sid) = true)
  ∧ final_result_sent (current w' sid) = final_result_sent (current w sid)
  ∧ trace w'
    = trace w
      ++ List.map (AgentResponse sid)
           (seq (S (engagement_count (current w sid))) (length calls))
  ∧ length (fst (run calls w)) = length calls
  ∧ Forall (fun r => reply r ≠ closing_reply) (fst (run calls w)).
Proof.
  induction calls as [|[env request] calls IH]; intros w Hsid Hscam Hc Hn.
  - cbn [run]. rewrite ret_at. cbn [fst snd length seq List.map].
    rewrite app_nil_r, Nat.add_0_r. split_and!; done.
  - apply Forall_cons in Hsid as [Hs1 Hsid].
    apply Forall_cons in Hscam as [Hd1 Hscam].
    unfold for_session, scam_message in Hs1, Hd1. cbn [snd] in Hs1, Hd1.
    cbn [length] in Hn. subst sid.
    rewrite run_cons. cbn [fst snd].
    set (sid := sessionId request) in *.
    set (s := current w sid) in *.
    assert (engage env request s
            = ({| status := "success"; reply := agent_reply env request s |},
               replied env request s,
               [AgentResponse sid (S (engagement_count s))])) as He.
    { apply engage_early; [|done|lia].
      rewrite Hd1. apply orb_true_r. }
    set (w1 := snd (detect_and_engage env request w)).
    assert (current w1 sid = replied env request s) as Hw1.
    { subst w1 sid. rewrite detect_and_engage_current.
      unfold after. fold s. by rewrite He. }
    assert (trace w1 = trace w ++ [AgentResponse sid (S (engagement_count s))])
      as Ht1.
    { subst w1. rewrite detect_and_engage_trace. fold sid s. by rewrite He. }
    assert (fst (detect_and_engage env request w)
            = {| status := "success"; reply := agent_reply env request s |})
      as Hr1.
    { rewrite detect_and_engage_fetch. cbn [fst]. fold sid s.
      by rewrite He. }
    assert (engagement_count s < 6)%nat as Hlt by lia.
    destruct (IH w1) as (I1 & I2 & I3 & I4 & I8 & I5 & I6 & I7); try done.
    { rewrite Hw1, replied_continue.
      apply Nat.leb_gt in Hlt. by rewrite Hlt. }
    { rewrite Hw1, replied_count. lia. }
    assert (scam_detected (current w1 sid) = true) as Hd.
    { rewrite Hw1, replied_detected, classified_detected, Hd1.
      apply orb_true_r. }
    rewrite Hw1, replied_count in I2, I5.
    rewrite Hw1, replied_sent in I8.
    split_and!.
    + done.
    + rewrite I2. cbn [length]. lia.
    + intros _. by apply I4.
    + intros _. by apply I4.
    + done.
    + rewrite I5, Ht1, <- app_assoc. reflexivity.
    + cbn [length]. by rewrite I6.
    + apply Forall_cons. split; [|done].
      rewrite Hr1. cbn [reply]. apply agent_reply_not_closing.
Qed.

(** Once the engagement has ended, further messages of the session get
    the closing reply and nothing else happens. *)
Lemma run_ended sid calls : ∀ w,
  Forall (for_session sid) calls →
  should_continue (current w sid) = false →
  let w' := snd (run calls w) in
  trace w' = trace w
  ∧ should_continue (current w' sid) = false
  ∧ engagement_count (current w' sid) = engagement_count (current w sid)
  ∧ final_result_sent (current w' sid) = final_result_sent (current w sid)
  ∧ Forall (fun r => reply r = closing_reply) (fst (run calls w)).
Proof.
  induction calls as [|[env request] calls IH]; intros w Hsid Hc.
  - cbn [run]. rewrite ret_at. cbn [fst snd]. split_and!; done.
  - apply Forall_cons in Hsid as [Hs1 Hsid].
    unfold for_session in Hs1. cbn [snd] in Hs1. subst sid.
    rewrite run_cons. cbn [fst snd].
    set (sid := sessionId request) in *.
    set (s := current w sid) in *.
    pose proof (engage_ended env request s Hc) as He.
    set (w1 := snd (detect_and_engage env request w)).
    assert (current w1 sid = classified request s) as Hw1.
    { subst w1 sid. rewrite detect_and_engage_current.
      unfold after. fold s. by rewrite He. }
    assert (trace w1 = trace w) as Ht1.
    { subst w1. rewrite detect_and_engage_trace. fold sid s.
      rewrite He. cbn [snd]. apply app_nil_r. }
    assert (fst (detect_and_engage env request w)
            = {| status := "success"; reply := closing_reply |}) as Hr1.
    { rewrite detect_and_engage_fetch. cbn [fst]. fold sid s.
      by rewrite He. }
    destruct (IH w1) as (I1 & I2 & I3 & I4 & I5); try done.
    { by rewrite Hw1, classified_continue. }
    rewrite Hw1 in I3, I4.
    rewrite classified_count in I3. rewrite classified_sent in I4.
    split_and!; try done.
    + by rewrite I1.
    + apply Forall_cons. split; [by rewrite Hr1|done].
Qed.

(** C2. A session that is not yet in the store receives seven messages
    that the classifier flags; any further messages of the session
    follow.  Each of the seven gets an agent reply, numbered 1 to 7 in
    the log; the first six cause no report; the seventh starts the
    report, once, right after its reply is counted, and that one call
    posts the payload one to three times (as many as the retry loop
    needs).  Every later message gets the closing reply and leaves the
    log as it is: no second report, no further post. *)
Theorem seven_messages_one_report :
  ∀ (session_id : string) (w : World)
    (calls more : list (Env * HoneypotRequest)),
    sessions w !! session_id = None →
    length calls = 7%nat →
    Forall (for_session session_id) calls →
    Forall scam_message calls →
    Forall (for_session session_id) more →
    let w6 := snd (run (take 6 calls) w) in
    let w7 := snd (run calls w) in
    let w9 := snd (run more w7) in
    ∃ posts : nat,
      length (fst (run calls w)) = 7%nat
      ∧ Forall (fun r => reply r ≠ closing_reply) (fst (run calls w))
      ∧ engagement_count (current w7 session_id) = 7%nat
      ∧ should_continue (current w7 session_id) = false
      ∧ trace w6 = trace w ++ List.map (AgentResponse session_id) (seq 1 6)
      ∧ trace w7
        = trace w6
          ++ AgentResponse session_id 7
             :: TriggerCallback session_id
             :: repeat (Post (final_payload session_id (current w7 session_id)))
                  posts
      ∧ (1 ≤ posts ≤ 3)%nat
      ∧ (∀ c, calls !! 6%nat = Some c →
              posts = snd (attempts (fst c) 0 max_retries))
      ∧ trace w9 = trace w7
      ∧ Forall (fun r => reply r = closing_reply) (fst (run more w7))
      ∧ engagement_count (current w9 session_id) = 7%nat.
Proof.
  intros sid w calls more Hfresh Hlen Hsid Hscam Hmore w6 w7 w9.
  assert (current w sid = new_session) as Hnew
    by (unfold current; by rewrite Hfresh).
  destruct (drop 6 calls) as [|[env request] rest] eqn:Hdrop.
  { apply (f_equal length) in Hdrop. rewrite length_drop in Hdrop.
    simpl in Hdrop. lia. }
  assert (rest = []) as ->.
  { apply (f_equal length) in Hdrop. rewrite length_drop in Hdrop.
    simpl in Hdrop. destruct rest; [done|simpl in Hdrop; lia]. }
  assert (calls = take 6 calls ++ [(env, request)]) as Hcalls
    by (by rewrite <- Hdrop, take_drop).
  assert (length (take 6 calls) = 6%nat) as Hlen6
    by (rewrite length_take; lia).
  assert (Forall (for_session sid) (take 6 calls)) as Hsid6
    by (by apply Forall_take).
  assert (Forall scam_message (take 6 calls)) as Hscam6
    by (by apply Forall_take).
  assert (sessionId request = sid ∧ scam_message (env, request)) as [Hs7 Hd7].
  { rewrite Hcalls in Hsid, Hscam.
    apply Forall_app in Hsid as [_ Hsid]. apply Forall_app in Hscam as [_ Hscam].
    apply Forall_cons in Hsid as [Hsid _].
    apply Forall_cons in Hscam as [Hscam _].
    done. }
  unfold scam_message in Hd7. cbn [snd] in Hd7.
  destruct (run_engaging sid (take 6 calls) w Hsid6 Hscam6)
    as (E1 & E2 & E3 & _ & E4 & E5 & E6 & E7).
  { by rewrite Hnew. }
  { rewrite Hnew, Hlen6. simpl. lia. }
  fold w6 in E1, E2, E3, E4, E5.
  rewrite Hnew, Hlen6 in E2, E5. rewrite Hnew in E4. cbn in E2, E4.
  assert (scam_detected (current w6 sid) = true) as Hdet.
  { apply E3. intros H. rewrite H in Hlen6. done. }
  (* the seventh request *)
  set (s6 := current w6 sid) in *.
  assert (run calls w
          = (fst (run (take 6 calls) w)
               ++ [fst (detect_and_engage env request w6)],
             snd (detect_and_engage env request w6))) as Hrun.
  { rewrite Hcalls at 1. rewrite run_app. fold w6.
    rewrite run_cons. cbn [run]. rewrite ret_at. reflexivity. }
  subst sid.
  set (sid := sessionId request) in *.
  pose proof (engage_last env request s6) as He. fold sid in He.
  rewrite Hdet, E1, E2 in He. specialize (He eq_refl eq_refl ltac:(lia)).
  set (x := replied env request s6) in *.
  assert (final_result_sent x = false) as Hx
    by (subst x; by rewrite replied_sent).
  unfold reported in He. rewrite Hx in He. fold sid in He. cbn [fst snd] in He.
  set (b := fst (attempts env 0 max_retries)) in *.
  set (n := snd (attempts env 0 max_retries)) in *.
  assert (current w7 sid = flagged b x) as Hw7.
  { subst w7. rewrite Hrun. cbn [snd]. subst sid.
    rewrite detect_and_engage_current. unfold after. fold s6. by rewrite He. }
  assert (trace w7
          = trace w6 ++ AgentResponse sid 7 :: TriggerCallback sid
                        :: repeat (Post (final_payload sid x)) n) as Ht7.
  { subst w7. rewrite Hrun. cbn [snd].
    rewrite detect_and_engage_trace. fold sid s6. by rewrite He. }
  assert (fst (detect_and_engage env request w6)
          = {| status := "success"; reply := agent_reply env request s6 |})
    as Hr7.
  { rewrite detect_and_engage_fetch. cbn [fst]. fold sid s6. by rewrite He. }
  destruct (flagged_fields b x) as (F1 & F2 & F3 & F4 & F5 & F6).
  assert (should_continue (current w7 sid) = false) as Hend.
  { rewrite Hw7, F4. subst x. rewrite replied_continue, E2. done. }
  assert (engagement_count (current w7 sid) = 7%nat) as Hcount.
  { rewrite Hw7, F3. subst x. by rewrite replied_count, E2. }
  destruct (run_ended sid more w7 Hmore Hend) as (C1 & _ & C3 & _ & C5).
  pose proof (attempts_posts env 0 max_retries) as [Hle Hpos].
  fold n in Hle, Hpos. unfold max_retries in Hle, Hpos.
  exists n. split_and!.
  - rewrite Hrun. cbn [fst]. rewrite length_app, E6, Hlen6. done.
  - rewrite Hrun. cbn [fst]. apply Forall_app. split; [done|].
    apply Forall_cons. split; [|done].
    rewrite Hr7. apply agent_reply_not_closing.
  - done.
  - done.
  - done.
  - rewrite Ht7, Hw7, final_payload_flagged. done.
  - lia.
  - lia.
  - intros c Hc. rewrite Hcalls in Hc.
    rewrite lookup_app_r in Hc by lia. rewrite Hlen6 in Hc.
    cbn in Hc. by inversion Hc.
  - done.
  - done.
  - fold w9 in C3. by rewrite C3.
Qed.

Lemma seven_messages_one_report_witness :
  let calls := conversation (Responded 503) seven_messages in
  let more := conversation (Responded 200) ["Hello?"; "Share the OTP now"] in
  let w7 := snd (run calls empty_world) in
  let w9 := snd (run more w7) in
  ∃ posts : nat,
    length (fst (run calls empty_world)) = 7%nat
    ∧ Forall (fun r => reply r ≠ closing_reply) (fst (run calls empty_world))
    ∧ engagement_count (current w7 "session-1") = 7%nat
    ∧ should_continue (current w7 "session-1") = false
    ∧ trace (snd (run (take 6 calls) empty_world))
      = trace empty_world ++ List.map (AgentResponse "session-1") (seq 1 6)
    ∧ trace w7
      = trace (snd (run (take 6 calls) empty_world))
        ++ AgentResponse "session-1" 7
           :: TriggerCallback "session-1"
           :: repeat (Post (final_payload "session-1" (current w7 "session-1")))
                posts
    ∧ (1 ≤ posts ≤ 3)%nat
    ∧ (∀ c, calls !! 6%nat = Some c →
            posts = snd (attempts (fst c) 0 max_retries))
    ∧ trace w9 = trace w7
    ∧ Forall (fun r => reply r = closing_reply) (fst (run more w7))
    ∧ engagement_count (current w9 "session-1") = 7%nat.
Proof.
  intros calls more w7 w9.
  apply (seven_messages_one_report "session-1" empty_world calls more).
  - reflexivity.
  - reflexivity.
  - repeat constructor.
  - repeat (constructor; [vm_compute; reflexivity|]). constructor.
  - repeat constructor.
Defined.

(** ** Grouped card numbers *)

Section Card.

Import Chars.

Lemma digit_is_word c : is_digit c = true → is_word c = true.
Proof. intros H. unfold is_word. by rewrite H. Qed.

Lemma digit_not_separator c :
  is_digit c = true → Ascii.eqb c " " = false ∧ Ascii.eqb c "-" = false.
Proof.
  destruct c as [[] [] [] [] [] [] [] []]; vm_compute; intros; split; congruence.
Qed.

Lemma or_else_None {A} (x : option A) : or_else x None = x.
Proof. by destruct x. Qed.

Lemma rep_done {A} c prev s (k : kont A) :
  rep_greedy c 0 (Some 0%nat) prev s k = k prev s.
Proof. destruct s; cbn; [done|]. by rewrite andb_false_r. Qed.

Lemma d4_digits {A} a b c d rest prev (k : kont A) :
  is_digit a = true → is_digit b = true →
  is_digit c = true → is_digit d = true →
  rmatch Patterns.d4 prev (String a (String b (String c (String d rest)))) k
  = k (Some d) rest.
Proof.
  intros Ha Hb Hc Hd. unfold Patterns.d4, Times. cbn [rmatch].
  cbn [rep_greedy room less Nat.pred Nat.eqb].
  rewrite Ha, Hb, Hc, Hd. cbn [andb].
  by rewrite rep_done, !or_else_None.
Qed.

Lemma sep_taken {A} x rest prev (k : kont A) :
  dash_or_space x = true →
  rmatch Patterns.sep prev (String x rest) k
  = or_else (k (Some x) rest) (k prev (String x rest)).
Proof. intros H. unfold Patterns.sep. cbn [rmatch]. by rewrite H. Qed.

Lemma digit_group_inv g :
  digit_group g = true →
  ∃ a b c d, g = String a (String b (String c (String d EmptyString)))
             ∧ is_digit a = true ∧ is_digit b = true
             ∧ is_digit c = true ∧ is_digit d = true.
Proof.
  unfold digit_group. intros H. apply andb_prop in H as [Hl Hd].
  destruct g as [|a [|b [|c [|d [|e g]]]]]; try discriminate.
  cbn in Hd. repeat (apply andb_prop in Hd as [? Hd]).
  exists a, b, c, d. done.
Qed.

Lemma separator_dash_or_space c : separator c = true → dash_or_space c = true.
Proof.
  unfold separator, dash_or_space, is_space. intros H.
  apply orb_prop in H as [->| ->]; [done|]. by rewrite !orb_true_r.
Qed.

Lemma matched_append (a b : string) : matched (a +:+ b) b = a.
Proof.
  unfold matched. rewrite length_append.
  replace (String.length a + String.length b - String.length b)%nat
    with (String.length a) by lia.
  induction a as [|x a IH].
  - rewrite append_empty. by destruct b.
  - rewrite append_cons. cbn [String.length String.substring]. by rewrite IH.
Qed.

Lemma rmatch_Seq {A} r1 r2 prev s (k : kont A) :
  rmatch (Seq r1 r2) prev s k = rmatch r1 prev s (fun p s' => rmatch r2 p s' k).
Proof. reflexivity. Qed.

Lemma rmatch_WordB {A} prev s (k : kont A) :
  at_boundary prev s = true → rmatch WordB prev s k = k prev s.
Proof. intros H. cbn [rmatch]. by rewrite H. Qed.

(** Four digits and a separator, then the rest of the pattern. *)
Lemma group_and_separator {A} r a b c d x rest prev (k : kont A) :
  is_digit a = true → is_digit b = true →
  is_digit c = true → is_digit d = true →
  dash_or_space x = true →
  rmatch (Seq Patterns.d4 (Seq Patterns.sep r)) prev
    (String a (String b (String c (String d (String x rest))))) k
  = or_else (rmatch r (Some x) rest k) (rmatch r (Some d) (String x rest) k).
Proof.
  intros Ha Hb Hc Hd Hx.
  rewrite rmatch_Seq, d4_digits by done.
  by rewrite rmatch_Seq, sep_taken.
Qed.

Lemma last_group {A} a b c d post prev (k : kont A) :
  is_digit a = true → is_digit b = true →
  is_digit c = true → is_digit d = true →
  word_after post = false →
  rmatch (Seq Patterns.d4 WordB) prev
    (String a (String b (String c (String d post)))) k
  = k (Some d) post.
Proof.
  intros Ha Hb Hc Hd Hpost.
  rewrite rmatch_Seq, d4_digits by done.
  apply rmatch_WordB. unfold at_boundary. cbn [word_before].
  by rewrite (digit_is_word d), Hpost.
Qed.

Lemma card16_unfold :
  Patterns.card16
  = Seq WordB
      (Seq Patterns.d4 (Seq Patterns.sep
        (Seq Patterns.d4 (Seq Patterns.sep
          (Seq Patterns.d4 (Seq Patterns.sep
            (Seq Patterns.d4 WordB))))))).
Proof. reflexivity. Qed.

Lemma grouped_chars
    a1 b1 c1 d1 a2 b2 c2 d2 a3 b3 c3 d3 a4 b4 c4 d4 s1 s2 s3 post :
  grouped (String a1 (String b1 (String c1 (String d1 EmptyString))))
          (String a2 (String b2 (String c2 (String d2 EmptyString))))
          (String a3 (String b3 (String c3 (String d3 EmptyString))))
          (String a4 (String b4 (String c4 (String d4 EmptyString))))
          s1 s2 s3 +:+ post
  = String a1 (String b1 (String c1 (String d1 (String s1
      (String a2 (String b2 (String c2 (String d2 (String s2
        (String a3 (String b3 (String c3 (String d3 (String s3
          (String a4 (String b4 (String c4 (String d4 post)))))))))))))))))).
Proof. reflexivity. Qed.

(** Standing at a 4-4-4-4 numeral between two non-word positions, the
    card pattern matches exactly the numeral. *)
Lemma card16_at_numeral prev g1 g2 g3 g4 s1 s2 s3 post :
  digit_group g1 = true → digit_group g2 = true →
  digit_group g3 = true → digit_group g4 = true →
  separator s1 = true → separator s2 = true → separator s3 = true →
  word_before prev = false → word_after post = false →
  match_at Patterns.card16 prev (grouped g1 g2 g3 g4 s1 s2 s3 +:+ post)
  = Some post.
Proof.
  intros H1 H2 H3 H4 S1 S2 S3 Hprev Hpost.
  apply digit_group_inv in H1 as (a1 & b1 & c1 & d1 & -> & ? & ? & ? & ?).
  apply digit_group_inv in H2 as (a2 & b2 & c2 & d2 & -> & ? & ? & ? & ?).
  apply digit_group_inv in H3 as (a3 & b3 & c3 & d3 & -> & ? & ? & ? & ?).
  apply digit_group_inv in H4 as (a4 & b4 & c4 & d4 & -> & ? & ? & ? & ?).
  apply separator_dash_or_space in S1, S2, S3.
  rewrite grouped_chars. unfold match_at.
  rewrite card16_unfold, rmatch_Seq, rmatch_WordB.
  - rewrite group_and_separator by done.
    rewrite group_and_separator by done.
    rewrite group_and_separator by done.
    by rewrite last_group.
  - unfold at_boundary. rewrite Hprev. cbn [word_after].
    by rewrite (digit_is_word a1).
Qed.

Lemma strip_grouped g1 g2 g3 g4 s1 s2 s3 :
  digit_group g1 = true → digit_group g2 = true →
  digit_group g3 = true → digit_group g4 = true →
  separator s1 = true → separator s2 = true → separator s3 = true →
  strip_separators (grouped g1 g2 g3 g4 s1 s2 s3) = g1 +:+ g2 +:+ g3 +:+ g4.
Proof.
  intros H1 H2 H3 H4 S1 S2 S3.
  apply digit_group_inv in H1 as (a1 & b1 & c1 & d1 & -> & ? & ? & ? & ?).
  apply digit_group_inv in H2 as (a2 & b2 & c2 & d2 & -> & ? & ? & ? & ?).
  apply digit_group_inv in H3 as (a3 & b3 & c3 & d3 & -> & ? & ? & ? & ?).
  apply digit_group_inv in H4 as (a4 & b4 & c4 & d4 & -> & ? & ? & ? & ?).
  repeat match goal with
         | H : is_digit _ = true |- _ =>
             apply digit_not_separator in H as [? ?]
         end.
  unfold separator in S1, S2, S3.
  unfold strip_separators, grouped.
  repeat first [rewrite append_cons | rewrite append_empty].
  assert (∀ x rest, Ascii.eqb x "-" || Ascii.eqb x " " = true →
            Str.remove_char "-" (Str.remove_char " " (String x rest))
            = Str.remove_char "-" (Str.remove_char " " rest)) as Hsep.
  { intros x rest Hx. cbn [Str.remove_char].
    destruct (Ascii.eqb x " ") eqn:E1; [done|].
    cbn [Str.remove_char]. rewrite orb_false_r in Hx. by rewrite Hx. }
  assert (∀ x rest, Ascii.eqb x " " = false → Ascii.eqb x "-" = false →
            Str.remove_char "-" (Str.remove_char " " (String x rest))
            = String x (Str.remove_char "-" (Str.remove_char " " rest))) as Hdig.
  { intros x rest E1 E2. cbn [Str.remove_char]. rewrite E1.
    cbn [Str.remove_char]. by rewrite E2. }
  repeat first [rewrite Hdig by done | rewrite Hsep by done].
  reflexivity.
Qed.

(** *** Earlier matches stay out of the numeral *)

Lemma digit_not_dash_or_space c : is_digit c = true → dash_or_space c = false.
Proof.
  destruct c as [[] [] [] [] [] [] [] []]; vm_compute; congruence.
Qed.

Lemma separator_not_digit c : separator c = true → is_digit c = false.
Proof.
  intros H. destruct (is_digit c) eqn:E; [|done].
  apply digit_not_separator in E as [E1 E2].
  unfold separator in H. by rewrite E1, E2 in H.
Qed.

Lemma den_d4 p G rest : den Patterns.d4 p G rest ↔ digit_group G = true.
Proof.
  unfold Patterns.d4, Times, digit_group. cbn [den within].
  rewrite andb_true_iff, Nat.eqb_eq. split.
  - intros (? & ? & ?). split; [lia|done].
  - intros [-> ?]. split_and!; [done|lia|lia].
Qed.

Lemma den_sep p o rest :
  den Patterns.sep p o rest
  ↔ o = EmptyString
    ∨ ∃ x, o = String x EmptyString ∧ dash_or_space x = true.
Proof. unfold Patterns.sep. cbn [den]. tauto. Qed.

Lemma card_tail_starts n p m rest :
  den (card_tail (S n)) p m rest →
  ∃ G m', m = G +:+ m' ∧ digit_group G = true.
Proof.
  destruct n; cbn [card_tail den]; intros (G & m' & -> & DG & _);
    apply den_d4 in DG; by exists G, m'.
Qed.

Lemma last_of_group p G :
  digit_group G = true → word_before (Str.last p G) = true.
Proof.
  intros H. apply digit_group_inv in H as (e1 & e2 & e3 & e4 & -> & _ & _ & _ & H).
  cbn. by apply digit_is_word.
Qed.

Lemma digit_groups_plain j G u :
  digit_group G = true → digit_groups j u = true →
  digit_groups (S j) (G +:+ u) = true.
Proof.
  intros H Hu.
  apply digit_group_inv in H as (e1 & e2 & e3 & e4 & -> & D1 & D2 & D3 & D4).
  repeat first [rewrite append_cons | rewrite append_empty].
  cbn [digit_groups]. by rewrite D1, D2, D3, D4, Hu.
Qed.

Lemma digit_groups_sep j G x u :
  digit_group G = true → dash_or_space x = true → digit_groups j u = true →
  digit_groups (S j) (G +:+ String x u) = true.
Proof.
  intros H Hx Hu.
  apply digit_group_inv in H as (e1 & e2 & e3 & e4 & -> & D1 & D2 & D3 & D4).
  repeat first [rewrite append_cons | rewrite append_empty].
  cbn [digit_groups]. rewrite D1, D2, D3, D4, Hx, Hu. cbn [andb].
  apply orb_true_r.
Qed.

Lemma findall_from_0 r prev s :
  findall_from r prev s 0
  = match match_at r prev s with
    | Some rest =>
        matched s rest ::
          match s with
          | String x s' =>
              findall_from r (Some x) s'
                (Nat.pred (String.length s - String.length rest))
          | EmptyString => []
          end
    | None =>
        match s with
        | String x s' => findall_from r (Some x) s' 0
        | EmptyString => []
        end
    end.
Proof. by destruct s. Qed.

Section Following.

(** What follows: four digits and a character that is no digit. *)
Variables (a b c d s1 : ascii) (tail : string).
Hypothesis Ha : is_digit a = true.
Hypothesis Hb : is_digit b = true.
Hypothesis Hc : is_digit c = true.
Hypothesis Hd : is_digit d = true.
Hypothesis Hs1 : is_digit s1 = false.

Local Abbreviation following :=
  (String a (String b (String c (String d (String s1 tail))))).

(** A group of four digits read from the start of [u +:+ following]
    lies within [u], or else what comes after it starts with a digit
    and is cut by [s1] before the fourth. *)
Lemma group_split G u y :
  digit_group G = true → u +:+ following = G +:+ y →
  u = EmptyString
  ∨ (∃ u', u = G +:+ u' ∧ u' +:+ following = y)
  ∨ ((∃ x y', y = String x y' ∧ is_digit x = true)
     ∧ ∀ G' z, digit_group G' = true → y = G' +:+ z → False).
Proof.
  intros HG H.
  apply digit_group_inv in HG as (e1 & e2 & e3 & e4 & -> & D1 & D2 & D3 & D4).
  repeat first [rewrite append_cons in H | rewrite append_empty in H].
  destruct u as [|u1 [|u2 [|u3 [|u4 u']]]];
    repeat first [rewrite append_cons in H | rewrite append_empty in H].
  - by left.
  - right; right. inversion H; subst. split; [by exists d, (String s1 tail)|].
    intros G' z HG' E.
    apply digit_group_inv in HG' as (f1 & f2 & f3 & f4 & -> & _ & F2 & _).
    repeat first [rewrite append_cons in E | rewrite append_empty in E].
    inversion E; subst. congruence.
  - right; right. inversion H; subst.
    split; [by exists c, (String d (String s1 tail))|].
    intros G' z HG' E.
    apply digit_group_inv in HG' as (f1 & f2 & f3 & f4 & -> & _ & _ & F3 & _).
    repeat first [rewrite append_cons in E | rewrite append_empty in E].
    inversion E; subst. congruence.
  - right; right. inversion H; subst.
    split; [by exists b, (String c (String d (String s1 tail)))|].
    intros G' z HG' E.
    apply digit_group_inv in HG' as (f1 & f2 & f3 & f4 & -> & _ & _ & _ & F4).
    repeat first [rewrite append_cons in E | rewrite append_empty in E].
    inversion E; subst. congruence.
  - right; left. inversion H; subst. exists u'.
    by repeat first [rewrite append_cons | rewrite append_empty].
Qed.

(** A match of the last [n + 1] groups of the pattern that starts in
    [u] and ends beyond it has read [u] as whole groups. *)
Lemma card_tail_keeps_out n : ∀ p u m rest,
  den (card_tail (S n)) p m rest →
  u +:+ following = m +:+ rest →
  (String.length u < String.length m)%nat →
  ∃ j, (j ≤ n)%nat ∧ digit_groups j u = true.
Proof.
  induction n as [|n IH]; intros p u m rest D E L.
  - change (card_tail 1) with (Seq Patterns.d4 WordB) in D. cbn [den] in D.
    destruct D as (G & m2 & -> & DG & -> & HB). apply den_d4 in DG.
    rewrite append_assoc, append_empty in E.
    rewrite length_append in L. cbn [String.length] in L.
    destruct (group_split G u rest DG E)
      as [-> | [(u' & -> & _) | [(x & y' & -> & Hx) _]]].
    + by exists 0%nat.
    + rewrite length_append in L. lia.
    + exfalso. unfold at_boundary in HB. cbn [word_after] in HB.
      by rewrite last_of_group, (digit_is_word x) in HB.
  - change (card_tail (S (S n)))
      with (Seq Patterns.d4 (Seq Patterns.sep (card_tail (S n)))) in D.
    cbn [den] in D.
    destruct D as (G & m2 & -> & DG & o & m3 & -> & Do & D3).
    apply den_d4 in DG. apply den_sep in Do.
    rewrite !append_assoc in E. rewrite !length_append in L.
    destruct (group_split G u _ DG E)
      as [-> | [(u' & -> & E') | [(x & y' & Ey & Hx) Hno]]].
    + exists 0%nat. split; [lia|done].
    + rewrite length_append in L.
      destruct Do as [-> | (x & -> & Hx)].
      * rewrite append_empty in E'. cbn [String.length] in L.
        destruct (IH _ u' m3 rest D3 E') as (j & Hj & Hg); [lia|].
        exists (S j). split; [lia|]. by apply digit_groups_plain.
      * rewrite append_cons, append_empty in E'. cbn [String.length] in L.
        destruct u' as [|x' u''].
        -- exists 1%nat. split; [lia|]. by apply digit_groups_plain.
        -- rewrite append_cons in E'. inversion E' as [[Ex E'']]. subst x'.
           cbn [String.length] in L.
           destruct (IH _ u'' m3 rest D3 E'') as (j & Hj & Hg); [lia|].
           exists (S j). split; [lia|]. by apply digit_groups_sep.
    + exfalso. destruct Do as [-> | (x0 & -> & Hx0)].
      * rewrite append_empty in Hno.
        apply card_tail_starts in D3 as (G' & m4 & -> & HG').
        apply (Hno G' (m4 +:+ rest) HG'). by rewrite append_assoc.
      * rewrite append_cons, append_empty in Ey. inversion Ey; subst.
        apply digit_not_dash_or_space in Hx. congruence.
Qed.

(** A match of the card pattern that starts at the first character of
    [u] and ends beyond [u]: [u] starts at a word boundary and is one,
    two or three groups. *)
Lemma card16_keeps_out prev u m rest :
  u ≠ EmptyString →
  den Patterns.card16 prev m rest →
  u +:+ following = m +:+ rest →
  (String.length u < String.length m)%nat →
  negb (word_before prev)
  && (digit_groups 1 u || digit_groups 2 u || digit_groups 3 u) = true.
Proof.
  intros Hu D E L.
  change Patterns.card16 with (Seq WordB (card_tail 4)) in D. cbn [den] in D.
  destruct D as (m1 & m2 & -> & (-> & HB) & D).
  rewrite append_empty in *. cbn [Str.last] in D.
  apply andb_true_intro. split.
  - destruct (card_tail_starts _ _ _ _ D) as (G & m' & -> & HG).
    apply digit_group_inv in HG as (e1 & e2 & e3 & e4 & -> & D1 & _).
    rewrite !append_cons in HB. unfold at_boundary in HB.
    cbn [word_after] in HB. rewrite (digit_is_word e1) in HB by done.
    by destruct (word_before prev).
  - destruct (card_tail_keeps_out _ _ _ _ _ D E L) as (j & Hj & Hg).
    destruct j as [|[|[|[|j]]]]; try lia.
    + by destruct u.
    + by rewrite Hg.
    + rewrite Hg. by rewrite orb_true_r.
    + rewrite Hg. by rewrite orb_true_r.
Qed.

Variables N post : string.
Hypothesis N_follows : N +:+ post = following.
Hypothesis N_matched :
  ∀ prev, word_before prev = false →
          match_at Patterns.card16 prev (N +:+ post) = Some post.

(** The scan of [re.findall] reaches the start of [N] and takes it. *)
Lemma findall_reaches : ∀ pre prev skip,
  groups_in_front prev pre = false →
  (skip ≤ String.length pre)%nat →
  word_before (Str.last prev pre) = false →
  In N (findall_from Patterns.card16 prev (pre +:+ N +:+ post) skip).
Proof.
  induction pre as [|x pre IH]; intros prev skip Hf Hs Hw.
  - cbn in Hs, Hw. assert (skip = 0%nat) as -> by lia.
    rewrite append_empty, findall_from_0, N_matched by done.
    left. apply matched_append.
  - rewrite append_cons. cbn [groups_in_front] in Hf.
    apply orb_false_elim in Hf as [Hhere Hf].
    cbn [Str.last] in Hw. cbn [String.length] in Hs.
    destruct skip as [|n]; [|cbn [findall_from]; apply IH; [done|lia|done]].
    rewrite findall_from_0.
    destruct (match_at Patterns.card16 prev
                (String x (pre +:+ N +:+ post))) as [rest|] eqn:E;
      [|by apply IH; [|lia|]].
    right. apply IH; [done| |done].
    unfold match_at in E.
    apply rmatch_sound in E as (m & rest' & Es & D & Hk).
    inversion Hk; subst rest'. rewrite Es, length_append.
    destruct (decide (String.length m ≤ S (String.length pre))%nat) as [|L];
      [lia|exfalso].
    assert (String x pre +:+ following = m +:+ rest) as E'
      by (by rewrite append_cons, <- N_follows).
    rewrite (card16_keeps_out prev (String x pre) m rest) in Hhere;
      [done|done|done|done|cbn [String.length]; lia].
Qed.

End Following.

End Card.




(** * Further properties *)

(** ** [get_session] *)

(** X1. [get_session] returns the stored session of a known id and
    leaves the world alone; for an unknown id it stores and returns a
    fresh session.  Either way the id is a key afterwards, no other
    entry and no log line changes, and asking again returns the same
    session without any further change. *)
Theorem get_session_lazy_once :
  ∀ (session_id : string) (w : World),
    let s := fst (get_session session_id w) in
    let w' := snd (get_session session_id w) in
    sessions w' !! session_id = Some s
    ∧ match sessions w !! session_id with
      | Some s0 => s = s0 ∧ w' = w
      | None => s = new_session
      end
    ∧ (∀ other, other ≠ session_id →
                sessions w' !! other = sessions w !! other)
    ∧ trace w' = trace w
    ∧ get_session session_id w' = (s, w').
Proof.
  intros sid w. cbv zeta. rewrite get_session_fetch. cbn [fst snd].
  split_and!.
  - unfold at_session; cbn [sessions]. apply lookup_insert_eq.
  - unfold current, at_session. destruct w as [m t]. cbn [sessions trace].
    destruct (m !! sid) as [s0|] eqn:E; cbn [default]; [|done].
    split; [done|]. by rewrite insert_id.
  - intros other Hne. by apply at_session_other.
  - done.
  - apply get_session_at.
Qed.

Lemma get_session_lazy_once_witness :
  sessions (snd (get_session "a" (snd (get_session "b" empty_world)))) !! "b"
  = sessions (snd (get_session "b" empty_world)) !! "b".
Proof.
  apply (get_session_lazy_once "a" (snd (get_session "b" empty_world))).
  discriminate.
Defined.

(** ** Where extracted entries come from *)

Section Occurrences.

Lemma append_empty_r (a : string) : a +:+ EmptyString = a.
Proof. induction a as [|x a IH]; [done|]. by rewrite append_cons, IH. Qed.

Lemma rep_greedy_consumes {A} c lo hi prev s (k : kont A) r :
  rep_greedy c lo hi prev s k = Some r →
  ∃ m p rest, s = m +:+ rest ∧ k p rest = Some r.
Proof.
  revert lo hi prev. induction s as [|x s IH]; intros lo hi prev H;
    cbn [rep_greedy] in H.
  - destruct (lo =? 0)%nat; [|done]. by exists EmptyString, prev, EmptyString.
  - assert ((if (lo =? 0)%nat then k prev (String x s) else None) = Some r →
            ∃ m p rest, String x s = m +:+ rest ∧ k p rest = Some r) as Hstop.
    { intros Hs. destruct (lo =? 0)%nat; [|done].
      by exists EmptyString, prev, (String x s). }
    destruct (c x && room hi); [|by apply Hstop].
    destruct (rep_greedy c (Nat.pred lo) (less hi) (Some x) s k) as [r'|] eqn:E;
      cbn [or_else] in H; [|by apply Hstop].
    inversion H; subst r'.
    destruct (IH _ _ _ E) as (m & p & rest & -> & Hk).
    exists (String x m), p, rest. by rewrite append_cons.
Qed.

(** Whatever the continuation is handed is what is left of the input. *)
Lemma rmatch_consumes {A} r : ∀ prev s (k : kont A) a,
  rmatch r prev s k = Some a →
  ∃ m p rest, s = m +:+ rest ∧ k p rest = Some a.
Proof.
  induction r as [|c|r1 IH1 r2 IH2|r1 IH1 r2 IH2|r1 IH1|c lo hi|];
    intros prev s k a H; cbn [rmatch] in H.
  - by exists EmptyString, prev, s.
  - destruct s as [|x s]; [done|]. destruct (c x); [|done].
    by exists (String x EmptyString), (Some x), s.
  - destruct (IH1 _ _ _ _ H) as (m1 & p1 & rest1 & -> & H1).
    destruct (IH2 _ _ _ _ H1) as (m2 & p2 & rest2 & -> & H2).
    exists (m1 +:+ m2), p2, rest2. by rewrite append_assoc.
  - destruct (rmatch r1 prev s k) as [a'|] eqn:E; cbn [or_else] in H.
    + inversion H; subst a'. by apply (IH1 _ _ _ _ E).
    + by apply (IH2 _ _ _ _ H).
  - destruct (rmatch r1 prev s k) as [a'|] eqn:E; cbn [or_else] in H.
    + inversion H; subst a'. by apply (IH1 _ _ _ _ E).
    + by exists EmptyString, prev, s.
  - by apply (rep_greedy_consumes _ _ _ _ _ _ _ H).
  - destruct (at_boundary prev s); [|done]. by exists EmptyString, prev, s.
Qed.

Lemma match_at_suffix r prev s rest :
  match_at r prev s = Some rest → ∃ m, s = m +:+ rest.
Proof.
  intros H. apply rmatch_consumes in H as (m & p & rest' & -> & [= ->]).
  by exists m.
Qed.

Lemma occurs_in_cons x c s : occurs_in x s → occurs_in x (String c s).
Proof. intros (a & b & ->). by exists (String c a), b. Qed.

(** Every string [re.findall] returns is a piece of the text. *)
Lemma findall_from_occurs r x : ∀ s prev skip,
  In x (findall_from r prev s skip) → occurs_in x s.
Proof.
  induction s as [|c s IH]; intros prev skip H.
  - destruct skip as [|n]; cbn [findall_from] in H; [|done].
    destruct (match_at r prev EmptyString) as [rest|] eqn:E; [|done].
    destruct H as [<-|[]].
    apply match_at_suffix in E as [m E]. rewrite E.
    rewrite matched_append. exists EmptyString, rest. done.
  - destruct skip as [|n]; cbn [findall_from] in H.
    + destruct (match_at r prev (String c s)) as [rest|] eqn:E.
      * destruct H as [<-|H].
        -- apply match_at_suffix in E as [m E]. rewrite E.
           rewrite matched_append. by exists EmptyString, rest.
        -- apply occurs_in_cons. by apply (IH _ _ H).
      * apply occurs_in_cons. by apply (IH _ _ H).
    + apply occurs_in_cons. by apply (IH _ _ H).
Qed.

Lemma findall_occurs r x s : In x (findall r s) → occurs_in x s.
Proof. apply findall_from_occurs. Qed.

Lemma lower_char_again c :
  Chars.lower_char (Chars.lower_char c) = Chars.lower_char c.
Proof. destruct c as [[] [] [] [] [] [] [] []]; reflexivity. Qed.

Lemma map_append f (a b : string) :
  Str.map f (a +:+ b) = Str.map f a +:+ Str.map f b.
Proof.
  induction a as [|x a IH]; [done|].
  rewrite append_cons. cbn [Str.map]. by rewrite IH, append_cons.
Qed.

Lemma append_inj_length (a b a' b' : string) :
  a +:+ b = a' +:+ b' → String.length a = String.length a' →
  a = a' ∧ b = b'.
Proof.
  revert a'. induction a as [|x a IH]; intros [|x' a'] H Hl;
    try discriminate.
  - done.
  - rewrite !append_cons in H. inversion H; subst.
    destruct (IH a') as [-> ->]; [done|by inversion Hl|done].
Qed.

Lemma length_map f (a : string) : String.length (Str.map f a) = String.length a.
Proof. induction a as [|x a IH]; [done|]. cbn. by rewrite IH. Qed.

Lemma lower_again (t : string) : Str.lower (Str.lower t) = Str.lower t.
Proof.
  unfold Str.lower. induction t as [|x t IH]; [done|].
  cbn [Str.map]. by rewrite lower_char_again, IH.
Qed.

(** A piece of a lower-cased text is in lower case. *)
Lemma occurs_in_lower x t : occurs_in x (Str.lower t) → Str.lower x = x.
Proof.
  intros (a & b & H).
  pose proof (lower_again t) as Hl. rewrite H in Hl.
  unfold Str.lower in Hl. rewrite !map_append in Hl.
  apply append_inj_length in Hl as [_ Hl]; [|apply length_map].
  apply append_inj_length in Hl as [Hl _]; [done|apply length_map].
Qed.

Lemma remove_char_gone c s :
  Str.forallb (fun x => negb (Ascii.eqb x c)) (Str.remove_char c s) = true.
Proof.
  induction s as [|x s IH]; [done|]. cbn [Str.remove_char].
  destruct (Ascii.eqb x c) eqn:E; [done|]. cbn. by rewrite E, IH.
Qed.

Lemma remove_char_keeps f c s :
  Str.forallb f s = true → Str.forallb f (Str.remove_char c s) = true.
Proof.
  induction s as [|x s IH]; [done|]. cbn. intros H.
  apply andb_prop in H as [H1 H2].
  destruct (Ascii.eqb x c); [by apply IH|]. cbn. by rewrite H1, IH.
Qed.

Lemma strip_separators_clean acc :
  Str.forallb (fun x => negb (Ascii.eqb x " ") && negb (Ascii.eqb x "-"))
    (strip_separators acc) = true.
Proof.
  unfold strip_separators.
  pose proof (remove_char_gone "-" (Str.remove_char " " acc)) as H1.
  pose proof (remove_char_keeps (fun x => negb (Ascii.eqb x " ")) "-" _
                (remove_char_gone " " acc)) as H2.
  revert H1 H2. generalize (Str.remove_char "-" (Str.remove_char " " acc)).
  induction s as [|x s IH]; [done|]. cbn. intros H1 H2.
  apply andb_prop in H1 as [-> H1]. apply andb_prop in H2 as [-> H2].
  cbn. by apply IH.
Qed.

End Occurrences.

Section Extraction.

Variables (session_id text : string) (w : World).

Let old := intelligence (current w session_id).
Let new :=
  intelligence (current (snd (update_intelligence session_id text w)) session_id).

Lemma new_is_extract : new = extract old text.
Proof. apply update_intelligence_current. Qed.

Lemma fromkeys_extends l e : extends l (fromkeys (l ++ e)).
Proof.
  split.
  - intros x Hx. apply fromkeys_In, in_app_iff. by left.
  - intros Hl. unfold fromkeys. rewrite fold_add_app.
    fold (fromkeys l). rewrite (fromkeys_fixed l Hl).
    apply fold_add_prefix.
Qed.

(** X2. [update_intelligence] never drops an entry: each of the five
    lists keeps every entry it had, and a list that was free of
    duplicates (as every list is once the function has run) is extended
    at its end only, the old entries staying in front in their order. *)
Theorem intelligence_only_grows :
  extends (bankAccounts old) (bankAccounts new)
  ∧ extends (upiIds old) (upiIds new)
  ∧ extends (phishingLinks old) (phishingLinks new)
  ∧ extends (phoneNumbers old) (phoneNumbers new)
  ∧ extends (suspiciousKeywords old) (suspiciousKeywords new).
Proof.
  rewrite new_is_extract. unfold extract.
  cbn [bankAccounts upiIds phishingLinks phoneNumbers suspiciousKeywords].
  rewrite fold_findall_app.
  split_and!; apply fromkeys_extends.
Qed.

(** X3. Links and phone numbers are taken from the text as they stand:
    an entry of [phishingLinks] or [phoneNumbers] that was not there
    before the call is a contiguous piece of the text. *)
Theorem links_and_phones_verbatim :
  ∀ x : string,
    (In x (phishingLinks new) → ¬ In x (phishingLinks old) →
     occurs_in x text)
    ∧ (In x (phoneNumbers new) → ¬ In x (phoneNumbers old) →
       occurs_in x text).
Proof.
  intros x. rewrite new_is_extract. unfold extract.
  cbn [phishingLinks phoneNumbers].
  split; intros H Hold; apply fromkeys_In, in_app_iff in H as [H|H];
    try done; repeat (apply in_app_iff in H as [H|H]);
    by apply findall_occurs in H.
Qed.

(** X4. On 7-bit text, UPI ids are looked for in the lower-cased text:
    an entry of [upiIds] that was not there before is a contiguous
    piece of [text.lower()], and so is itself in lower case. *)
Theorem upi_ids_lower_case :
  seven_bit text = true →
  ∀ x : string,
    In x (upiIds new) → ¬ In x (upiIds old) →
    occurs_in x (Str.lower text) ∧ Str.lower x = x.
Proof.
  intros _ x. rewrite new_is_extract. unfold extract. cbn [upiIds].
  rewrite fold_findall_app. intros H Hold.
  apply fromkeys_In, in_app_iff in H as [H|H]; [done|].
  apply in_concat in H as (l & Hl & Hx).
  apply in_map_iff in Hl as (pattern & <- & _).
  apply findall_occurs in Hx. split; [done|].
  by apply (occurs_in_lower x text).
Qed.

(** X5. Bank accounts are stored without blanks and hyphens: an entry
    of [bankAccounts] that was not there before is a contiguous piece
    of the text, or of [text.upper()] for the IFSC pattern, with every
    blank and hyphen removed, and holds neither character. *)
Theorem bank_accounts_stripped :
  ∀ x : string,
    In x (bankAccounts new) → ¬ In x (bankAccounts old) →
    (∃ y, x = strip_separators y
          ∧ (occurs_in y text ∨ occurs_in y (Str.upper text)))
    ∧ Str.forallb
        (fun c => negb (Ascii.eqb c " ") && negb (Ascii.eqb c "-")) x = true.
Proof.
  intros x. rewrite new_is_extract. unfold extract. cbn [bankAccounts].
  intros H Hold.
  apply fromkeys_In, in_app_iff in H as [H|H]; [done|].
  apply in_map_iff in H as (y & <- & Hy).
  split; [|apply strip_separators_clean].
  exists y. split; [done|].
  repeat (apply in_app_iff in Hy as [Hy|Hy]);
    apply findall_occurs in Hy; auto.
Qed.

(** X6. A suspicious keyword is recorded exactly when it is a word of
    the fixed vocabulary that occurs somewhere in the lower-cased text
    (or was recorded before). *)
Theorem keywords_recorded_iff :
  ∀ x : string,
    In x (suspiciousKeywords new)
    ↔ In x (suspiciousKeywords old)
      ∨ (In x suspicious_words ∧ occurs_in x (Str.lower text)).
Proof.
  intros x. rewrite new_is_extract. unfold extract.
  cbn [suspiciousKeywords].
  rewrite fromkeys_In, in_app_iff, filter_In, contains_iff. done.
Qed.

End Extraction.

Lemma links_and_phones_verbatim_witness :
  occurs_in "+91-9876543210" "Call +91-9876543210 or see http://evil.xyz/pay"
  ∧ occurs_in "evil.xyz/pay" "Call +91-9876543210 or see http://evil.xyz/pay".
Proof.
  split.
  - apply (proj2 (links_and_phones_verbatim "session-1"
             "Call +91-9876543210 or see http://evil.xyz/pay" empty_world
             "+91-9876543210")).
    + vm_compute. left. reflexivity.
    + vm_compute. intros [].
  - apply (proj1 (links_and_phones_verbatim "session-1"
             "Call +91-9876543210 or see http://evil.xyz/pay" empty_world
             "evil.xyz/pay")).
    + vm_compute. right. left. reflexivity.
    + vm_compute. intros [].
Defined.

Lemma upi_ids_lower_case_witness :
  occurs_in "scammer@paytm" (Str.lower "Pay to Scammer@PayTM now")
  ∧ Str.lower "scammer@paytm" = "scammer@paytm".
Proof.
  apply (upi_ids_lower_case "session-1" "Pay to Scammer@PayTM now" empty_world).
  - vm_compute. reflexivity.
  - vm_compute. left. reflexivity.
  - vm_compute. intros [].
Defined.

Lemma bank_accounts_stripped_witness :
  Str.forallb (fun c => negb (Ascii.eqb c " ") && negb (Ascii.eqb c "-"))
    "4111222233334444" = true.
Proof.
  apply (bank_accounts_stripped "session-1" "Card 4111 2222-3333 4444"
           empty_world "4111222233334444").
  - vm_compute. left. reflexivity.
  - vm_compute. intros [].
Defined.

(** ** More on the classifier *)

Lemma find_first {A} (f : A → bool) (l : list A) (x : A) :
  List.find f l = Some x
  ↔ ∃ l1 l2, l = l1 ++ x :: l2 ∧ f x = true
             ∧ ∀ y, In y l1 → f y = false.
Proof.
  induction l as [|y l IH]; cbn [List.find].
  - split; [done|]. intros (l1 & l2 & H & _). by destruct l1.
  - destruct (f y) eqn:E.
    + split.
      * intros [= <-]. exists [], l. split_and!; [done|done|]. by intros ? [].
      * intros (l1 & l2 & H & Hx & Hl1). destruct l1 as [|z l1].
        -- by inversion H.
        -- inversion H; subst. rewrite (Hl1 z) in E; [done|by left].
    + rewrite IH. split.
      * intros (l1 & l2 & -> & Hx & Hl1). exists (y :: l1), l2.
        split_and!; [done|done|]. intros z [<-|Hz]; [done|by apply Hl1].
      * intros (l1 & l2 & H & Hx & Hl1). destruct l1 as [|z l1].
        -- inversion H; subst. congruence.
        -- inversion H; subst. exists l1, l2. split_and!; [done|done|].
           intros z' Hz'. apply Hl1. by right.
Qed.

Lemma pattern_category_not_generic t :
  pattern_category t ≠ Some generic_scam.
Proof.
  unfold pattern_category.
  destruct (List.find _ SCAM_PATTERNS) as [[c ps]|] eqn:E; [|done].
  apply find_some in E as [Hin _]. cbn [fmap option_fmap option_map fst].
  intros [= ->]. cbn in Hin.
  repeat (destruct Hin as [Hin|Hin]; [discriminate Hin|]). done.
Qed.

Lemma detect_flag_category text :
  fst (detect text) = true ↔ snd (detect text) ≠ None.
Proof.
  unfold detect. destruct (pattern_category (Str.lower text)); cbn.
  - split; done.
  - destruct (Qle_bool 4 (scam_score text)); cbn; split; done.
Qed.

(** X7. The flag and the category of [detect] agree: the flag is set
    exactly when a category is returned.  A named category is returned
    exactly when one of its patterns is found in the lower-cased text
    and no pattern of a category listed before it in [SCAM_PATTERNS]
    is; the heuristic score is not consulted then. *)
Theorem detect_category_precedence :
  ∀ text : string,
    (fst (detect text) = true ↔ snd (detect text) ≠ None)
    ∧ ∀ c, c ≠ generic_scam →
        (detect text = (true, Some c)
         ↔ ∃ before ps after,
             SCAM_PATTERNS = before ++ (c, ps) :: after
             ∧ (∃ p, In p ps ∧ search p (Str.lower text) = true)
             ∧ ∀ c' ps' p', In (c', ps') before → In p' ps' →
                            search p' (Str.lower text) = false).
Proof.
  intros text. split; [apply detect_flag_category|].
  - intros c Hc.
    assert (detect text = (true, Some c)
            ↔ pattern_category (Str.lower text) = Some c) as ->.
    { unfold detect. destruct (pattern_category (Str.lower text)) as [c0|].
      - split; intros [= ->]; done.
      - destruct (Qle_bool 4 (scam_score text)); split; intros [=]; congruence. }
    unfold pattern_category.
    set (f := fun entry : ScamType * list regex =>
                existsb (fun pattern => search pattern (Str.lower text))
                  (snd entry)).
    split.
    + destruct (List.find f SCAM_PATTERNS) as [[c0 ps]|] eqn:E; [|done].
      cbn. intros [= ->].
      apply find_first in E as (before & after & Ht & Hf & Hb).
      exists before, ps, after. split_and!; [done| |].
      * subst f. cbn in Hf. apply existsb_exists in Hf as (p & ? & ?). eauto.
      * intros c' ps' p' Hin Hp'. specialize (Hb _ Hin). subst f. cbn in Hb.
        destruct (search p' (Str.lower text)) eqn:Es; [|done].
        assert (existsb (fun pattern => search pattern (Str.lower text)) ps'
                = true) by (apply existsb_exists; eauto).
        congruence.
    + intros (before & ps & after & Ht & (p & Hp & Hs) & Hb).
      assert (List.find f SCAM_PATTERNS = Some (c, ps)) as ->; [|done].
      apply find_first. exists before, after. split_and!; [done| |].
      * subst f. cbn. apply existsb_exists. eauto.
      * intros [c' ps'] Hin. subst f. cbn.
        destruct (existsb _ ps') eqn:Ex; [|done].
        apply existsb_exists in Ex as (p' & Hp' & Hs').
        rewrite (Hb c' ps' p') in Hs'; done.
Qed.

Lemma detect_category_precedence_witness :
  detect "Verify your account to claim the prize" = (true, Some bank_fraud).
Proof.
  apply (detect_category_precedence "Verify your account to claim the prize").
  - discriminate.
  - exists [], (List.nth 0 (List.map snd SCAM_PATTERNS) []),
      (List.tl SCAM_PATTERNS).
    split_and!.
    + reflexivity.
    + exists (List.nth 1 (List.nth 0 (List.map snd SCAM_PATTERNS) []) Eps).
      split; [right; left; reflexivity|vm_compute; reflexivity].
    + intros c' ps' p' [].
Defined.

Section CaseFolding.

Import Chars.

Lemma lower_char_digit c : is_digit (lower_char c) = is_digit c.
Proof. destruct c as [[] [] [] [] [] [] [] []]; reflexivity. Qed.

Lemma forallb_digit_lower run :
  Str.forallb is_digit (Str.lower run) = Str.forallb is_digit run.
Proof.
  unfold Str.lower. induction run as [|x run IH]; [done|].
  cbn. by rewrite lower_char_digit, IH.
Qed.

Lemma map_append_inv f (t x y : string) :
  Str.map f t = x +:+ y →
  ∃ t1 t2, t = t1 +:+ t2 ∧ Str.map f t1 = x ∧ Str.map f t2 = y.
Proof.
  revert t. induction x as [|c x IH]; intros t H.
  - exists EmptyString, t. done.
  - destruct t as [|d t]; [discriminate|].
    rewrite append_cons in H. cbn [Str.map] in H. inversion H; subst.
    destruct (IH t) as (t1 & t2 & -> & <- & <-); [done|].
    exists (String d t1), t2. done.
Qed.

(** Whether a text has ten digits in a row can be read off its
    lower-cased form. *)
Lemma phone_like_lower (text : string) :
  search phone_like text = search phone_like (Str.lower text).
Proof.
  apply eq_true_iff_eq. rewrite !phone_like_iff. split.
  - intros (a & run & b & -> & Hl & Hr).
    exists (Str.lower a), (Str.lower run), (Str.lower b).
    unfold Str.lower at 1. rewrite !map_append. split_and!; [done| |].
    + unfold Str.lower. by rewrite length_map.
    + by rewrite forallb_digit_lower.
  - intros (a & run & b & H & Hl & Hr).
    apply map_append_inv in H as (a0 & t' & -> & Ha & H).
    apply map_append_inv in H as (run0 & b0 & -> & Hrun & Hb).
    exists a0, run0, b0. split_and!; [done| |].
    + by rewrite <- Hl, <- Hrun, length_map.
    + rewrite <- forallb_digit_lower. unfold Str.lower. by rewrite Hrun.
Qed.

(** X8. On 7-bit text the classifier ignores the case of the letters
    A to Z: two 7-bit texts with the same lower-cased form get the same
    verdict. *)
Theorem detect_ignores_case :
  ∀ text1 text2 : string,
    seven_bit text1 = true → seven_bit text2 = true →
    Str.lower text1 = Str.lower text2 → detect text1 = detect text2.
Proof.
  intros t1 t2 _ _ H. unfold detect, scam_score.
  rewrite (phone_like_lower t1), (phone_like_lower t2), H. reflexivity.
Qed.

End CaseFolding.

Lemma detect_ignores_case_witness :
  detect "YOUR BANK ACCOUNT IS BLOCKED" = detect "your bank account is blocked".
Proof.
  apply (detect_ignores_case "YOUR BANK ACCOUNT IS BLOCKED"
           "your bank account is blocked");
    vm_compute; reflexivity.
Defined.

(** ** The retry loop *)

Lemma retryable_again env attempt left :
  retryable (http env attempt) = true →
  attempts env attempt (S left)
  = (fst (attempts env (S attempt) left),
     S (snd (attempts env (S attempt) left))).
Proof.
  intros H. cbn [attempts].
  destruct (attempts env (S attempt) left) as [b n]. cbn [fst snd].
  destruct (http env attempt) as [c| | |]; cbn in H; try done.
  apply negb_true_iff in H. by rewrite H.
Qed.

Lemma decisive_now env attempt left :
  retryable (http env attempt) = false →
  attempts env attempt (S left)
  = (match http env attempt with Responded _ => true | _ => false end, 1%nat).
Proof.
  intros H. cbn [attempts].
  destruct (http env attempt) as [c| | |]; cbn in H; try done.
  apply negb_false_iff in H. by rewrite H.
Qed.

Lemma attempts_decisive env i : ∀ attempt left,
  (i < left)%nat →
  (∀ j, (j < i)%nat → retryable (http env (attempt + j)) = true) →
  retryable (http env (attempt + i)) = false →
  attempts env attempt left
  = (match http env (attempt + i) with Responded _ => true | _ => false end,
     S i).
Proof.
  induction i as [|i IH]; intros attempt left Hi Hbefore Hnow.
  - destruct left as [|left]; [lia|]. rewrite Nat.add_0_r in *.
    by apply decisive_now.
  - destruct left as [|left]; [lia|].
    rewrite retryable_again.
    2:{ specialize (Hbefore 0%nat ltac:(lia)). by rewrite Nat.add_0_r in Hbefore. }
    rewrite (IH (S attempt) left).
    + cbn [fst snd]. by replace (S attempt + i)%nat with (attempt + S i)%nat by lia.
    + lia.
    + intros j Hj. replace (S attempt + j)%nat with (attempt + S j)%nat by lia.
      apply Hbefore. lia.
    + by replace (S attempt + i)%nat with (attempt + S i)%nat by lia.
Qed.

Lemma attempts_exhausted env : ∀ left attempt,
  (∀ j, (j < left)%nat → retryable (http env (attempt + j)) = true) →
  attempts env attempt left = (false, left).
Proof.
  induction left as [|left IH]; intros attempt H; [done|].
  rewrite retryable_again.
  2:{ specialize (H 0%nat ltac:(lia)). by rewrite Nat.add_0_r in H. }
  rewrite IH; [done|].
  intros j Hj. replace (S attempt + j)%nat with (attempt + S j)%nat by lia.
  apply H. lia.
Qed.

(** X9. The retry loop of [send_final_result] stops at the first
    attempt that is either answered with 200/201 or fails with an
    exception other than a request error: with [i] retryable attempts
    before it, exactly [i + 1] posts are made, and the flag is set only
    in the first case; later attempts are not made, even if they would
    have succeeded.  When all three attempts are retryable (other
    status, timeout, request error) there are exactly three posts and
    the flag stays unset. *)
Theorem retry_stops_at_first_decisive_attempt :
  ∀ (env : Env) (session_id : string) (w : World),
    final_result_sent (current w session_id) = false →
    let w' := snd (send_final_result env session_id w) in
    let post := Post (final_payload session_id (current w session_id)) in
    (∀ i, (i < 3)%nat →
          (∀ j, (j < i)%nat → retryable (http env j) = true) →
          retryable (http env i) = false →
          trace w' = trace w ++ repeat post (S i)
          ∧ final_result_sent (current w' session_id)
            = match http env i with Responded _ => true | _ => false end)
    ∧ ((∀ j, (j < 3)%nat → retryable (http env j) = true) →
       trace w' = trace w ++ repeat post 3
       ∧ final_result_sent (current w' session_id) = false).
Proof.
  intros env sid w Hs w' post. subst w' post.
  rewrite send_final_result_fetch, send_final_result_at, Hs. cbn [snd].
  rewrite current_at. cbn [trace at_session].
  split.
  - intros i Hi Hbefore Hnow.
    rewrite (attempts_decisive env i 0 max_retries); cbn [fst snd Nat.add];
      try done.
    split; [done|].
    destruct (http env i); cbn [flagged final_result_sent set_final_result_sent];
      done.
  - intros Hall. rewrite (attempts_exhausted env max_retries 0); [|done].
    cbn [fst snd flagged]. done.
Qed.

Lemma retry_stops_at_first_decisive_attempt_witness :
  let env :=
    {| rnd := 0; now := 0%Z;
       http := fun i => match i with
                        | 0 => TimedOut
                        | 1 => Responded 201
                        | _ => Raised
                        end |} in
  let w := snd (get_session "session-1" empty_world) in
  let w' := snd (send_final_result env "session-1" w) in
  (trace w'
   = trace w ++ repeat (Post (final_payload "session-1" (current w "session-1"))) 2
   ∧ final_result_sent (current w' "session-1") = true)
  ∧ (trace (snd (send_final_result (env_of (Responded 500)) "session-1" w))
     = trace w
       ++ repeat (Post (final_payload "session-1" (current w "session-1"))) 3
     ∧ final_result_sent
         (current (snd (send_final_result (env_of (Responded 500))
                          "session-1" w)) "session-1") = false).
Proof.
  intros env w w'. split.
  - apply (proj1 (retry_stops_at_first_decisive_attempt env "session-1" w
                    eq_refl) 1%nat).
    + lia.
    + intros [|j] Hj; [reflexivity|lia].
    + reflexivity.
  - apply (proj2 (retry_stops_at_first_decisive_attempt
                    (env_of (Responded 500)) "session-1" w eq_refl)).
    intros j _. reflexivity.
Defined.

(** ** What one request does to its session, field by field *)

Section Outcome.

Variable env : Env.
Variable request : HoneypotRequest.

Let sid := sessionId request.
Let msg := message request.
Let txt := text (message request).

Lemma classified_intelligence s :
  intelligence (classified request s) = extract (intelligence s) txt.
Proof.
  unfold classified.
  by destruct (fst (detect _) && negb (scam_detected (received request s))).
Qed.

Lemma replied_intelligence s :
  intelligence (replied env request s) = extract (intelligence s) txt.
Proof.
  unfold replied. cbv zeta.
  destruct (Spec.is_final (Spec.stage (engagement_count (classified request s))));
    cbn [intelligence set_messages set_engagement_count set_should_continue];
    apply classified_intelligence.
Qed.

Lemma replied_log s :
  messages (replied env request s)
  = messages s
    ++ [msg; {| sender := "user"; text := agent_reply env request s;
                timestamp := now env |}].
Proof.
  unfold replied. cbv zeta.
  destruct (Spec.is_final (Spec.stage (engagement_count (classified request s))));
    cbn [messages set_messages set_engagement_count set_should_continue];
    rewrite classified_messages, <- app_assoc; reflexivity.
Qed.

Lemma reported_sent s :
  final_result_sent (fst (reported env request s))
  = if final_result_sent s then true else fst (attempts env 0 max_retries).
Proof.
  unfold reported. destruct (final_result_sent s) eqn:E; cbn [fst]; [done|].
  by destruct (fst (attempts env 0 max_retries)).
Qed.

(** The three ways a request can end. *)
Lemma after_cases s :
  (engaging request s = true ∧ reporting env request s = true
   ∧ after env request s = fst (reported env request (replied env request s)))
  ∨ (engaging request s = true ∧ reporting env request s = false
     ∧ after env request s = replied env request s)
  ∨ (engaging request s = false ∧ after env request s = classified request s).
Proof.
  unfold after, engage.
  destruct (engaging request s); [destruct (reporting env request s)|];
    cbn [fst snd]; tauto.
Qed.

Lemma after_count s :
  engagement_count (after env request s)
  = if engaging request s then S (engagement_count s) else engagement_count s.
Proof.
  destruct (after_cases s) as [(-> & _ & ->)|[(-> & _ & ->)|(-> & ->)]].
  - destruct (reported_fields env request (replied env request s))
      as (_ & _ & -> & _). apply replied_count.
  - apply replied_count.
  - apply classified_count.
Qed.

Lemma after_continue s :
  should_continue (after env request s)
  = if engaging request s && (6 <=? engagement_count s)%nat
    then false else should_continue s.
Proof.
  destruct (after_cases s) as [(-> & _ & ->)|[(-> & _ & ->)|(-> & ->)]];
    cbn [andb].
  - destruct (reported_fields env request (replied env request s))
      as (_ & _ & _ & -> & _). apply replied_continue.
  - apply replied_continue.
  - apply classified_continue.
Qed.

Lemma after_type_any s :
  scam_type (after env request s)
  = if scam_detected s then scam_type s
    else if fst (detect txt) then snd (detect txt) else scam_type s.
Proof.
  destruct (after_cases s) as [(_ & _ & ->)|[(_ & _ & ->)|(_ & ->)]].
  - destruct (reported_fields env request (replied env request s))
      as (_ & -> & _). rewrite replied_type. apply classified_type.
  - rewrite replied_type. apply classified_type.
  - apply classified_type.
Qed.

Lemma after_sent s :
  final_result_sent (after env request s)
  = if engaging request s && reporting env request s
    then (if final_result_sent s then true
          else fst (attempts env 0 max_retries))
    else final_result_sent s.
Proof.
  destruct (after_cases s) as [(-> & -> & ->)|[(-> & -> & ->)|(-> & ->)]];
    cbn [andb].
  - by rewrite reported_sent, replied_sent.
  - apply replied_sent.
  - apply classified_sent.
Qed.

Lemma after_log s :
  messages (after env request s)
  = messages s ++ msg ::
      (if engaging request s
       then [{| sender := "user";
                text := reply (fst (fst (engage env request s)));
                timestamp := now env |}]
       else []).
Proof.
  unfold after, engage.
  destruct (engaging request s); [destruct (reporting env request s)|];
    cbn [fst snd reply].
  - destruct (reported_fields env request (replied env request s))
      as (_ & _ & _ & _ & -> & _). apply replied_log.
  - apply replied_log.
  - apply classified_messages.
Qed.

Lemma after_intelligence s :
  intelligence (after env request s) = extract (intelligence s) txt.
Proof.
  destruct (after_cases s) as [(_ & _ & ->)|[(_ & _ & ->)|(_ & ->)]].
  - destruct (reported_fields env request (replied env request s))
      as (_ & _ & _ & _ & _ & ->). apply replied_intelligence.
  - apply replied_intelligence.
  - apply classified_intelligence.
Qed.

Lemma after_invariant s :
  session_invariant s → session_invariant (after env request s).
Proof.
  intros (I1 & I2 & I3 & I4 & I5 & I6 & _).
  unfold session_invariant.
  rewrite after_count, after_continue, after_detected, after_type_any,
    after_sent, after_log, after_intelligence, length_app.
  fold txt. rewrite (engaging_eq request s). fold txt.
  pose proof (detect_flag_category txt) as Hd.
  assert (should_continue s = true → final_result_sent s = false) as I5'.
  { intros Hc. destruct (final_result_sent s); [|done].
    rewrite I5 in Hc; done. }
  assert (should_continue s = true →
          reporting env request s = (6 <=? engagement_count s)%nat) as Hrep
    by apply reporting_eq.
  split_and!; try apply fromkeys_NoDup.
  - destruct ((scam_detected s || fst (detect txt)) && should_continue s) eqn:E;
      [|done].
    apply andb_prop in E as [_ E]. apply I2 in E. lia.
  - destruct ((scam_detected s || fst (detect txt)) && should_continue s) eqn:E;
      cbn [andb]; [|done].
    apply andb_prop in E as [_ E]. pose proof (proj1 I2 E).
    destruct (6 <=? engagement_count s)%nat eqn:E6.
    + apply Nat.leb_le in E6. split; [done|lia].
    + apply Nat.leb_gt in E6. split; [lia|done].
  - intros H. apply orb_false_elim in H as [H1 H2].
    rewrite H1, H2. cbn [orb andb]. by apply I3.
  - intros H. destruct (scam_detected s) eqn:E1; [by apply I4|].
    cbn [orb] in H. rewrite H. by apply Hd.
  - destruct ((scam_detected s || fst (detect txt)) && should_continue s) eqn:E;
      cbn [andb].
    + apply andb_prop in E as [_ E]. rewrite (Hrep E).
      destruct (6 <=? engagement_count s)%nat; [done|].
      intros H. by rewrite (I5' E) in H.
    + done.
  - destruct ((scam_detected s || fst (detect txt)) && should_continue s);
      cbn [length]; lia.
Qed.

End Outcome.

Lemma new_session_invariant : session_invariant new_session.
Proof.
  unfold session_invariant, new_session; cbn.
  split_and!; try apply NoDup_nil_2; try done; lia.
Qed.

Lemma detect_and_engage_invariant env request w :
  store_invariant w → store_invariant (snd (detect_and_engage env request w)).
Proof.
  intros Hw sid s. rewrite detect_and_engage_sessions.
  destruct (decide (sessionId request = sid)) as [<-|Hne]; [|by apply Hw].
  intros [= <-]. apply after_invariant.
  unfold current. destruct (sessions w !! sessionId request) as [s0|] eqn:E;
    cbn [default]; [by apply (Hw _ _ E)|apply new_session_invariant].
Qed.

Lemma run_invariant calls : ∀ w,
  store_invariant w → store_invariant (snd (run calls w)).
Proof.
  induction calls as [|[env request] calls IH]; intros w Hw; [done|].
  rewrite run_cons. cbn [snd]. by apply IH, detect_and_engage_invariant.
Qed.

(** ** Sessions over whole conversations *)

(** X10. Whatever requests have been handled since the store was empty,
    every stored session satisfies [session_invariant]: at most seven
    agent replies; the engagement continues exactly while fewer than
    seven were sent; an unflagged session has no reply and no category,
    a flagged one has a category; a delivered report implies the
    engagement has ended; the log holds at least two messages per
    reply; and no intelligence list holds an entry twice. *)
Theorem sessions_keep_invariant :
  ∀ (calls : list (Env * HoneypotRequest)) (session_id : string) (s : Session),
    sessions (snd (run calls empty_world)) !! session_id = Some s →
    session_invariant s.
Proof.
  intros calls sid s H. apply (run_invariant calls empty_world) in H; [done|].
  intros sid' s' H'. cbn in H'. by rewrite lookup_empty in H'.
Qed.

Lemma sessions_keep_invariant_witness :
  session_invariant
    (current (snd (run (conversation TimedOut seven_messages) empty_world))
       "session-1").
Proof.
  apply (sessions_keep_invariant (conversation TimedOut seven_messages)
           "session-1").
  vm_compute. reflexivity.
Defined.

(** X11. A request changes no session but the one it names: after any
    sequence of requests for other session ids, the entry of a session
    (or its absence) is what it was. *)
Theorem other_sessions_untouched :
  ∀ (calls : list (Env * HoneypotRequest)) (w : World) (session_id : string),
    Forall (fun c => sessionId (snd c) ≠ session_id) calls →
    sessions (snd (run calls w)) !! session_id = sessions w !! session_id.
Proof.
  induction calls as [|[env request] calls IH]; intros w sid H; [done|].
  apply Forall_cons in H as [H1 H]. cbn [snd] in H1.
  rewrite run_cons. cbn [snd]. rewrite (IH _ _ H).
  rewrite detect_and_engage_sessions. by rewrite decide_False.
Qed.

Lemma other_sessions_untouched_witness :
  sessions (snd (run (conversation TimedOut seven_messages) empty_world))
    !! "session-2" = None.
Proof.
  apply (other_sessions_untouched (conversation TimedOut seven_messages)
           empty_world "session-2").
  repeat (constructor; [discriminate|]). constructor.
Defined.

Section OneRequest.

Variable env : Env.
Variable request : HoneypotRequest.
Variable w : World.

Let sid := sessionId request.
Let txt := text (message request).
Let s := current w sid.
Let response := fst (detect_and_engage env request w).
Let w' := snd (detect_and_engage env request w).
Let s' := current w' sid.

Lemma s'_after : s' = after env request s.
Proof. apply detect_and_engage_current. Qed.

Lemma response_engage : response = fst (fst (engage env request s)).
Proof. unfold response. by rewrite detect_and_engage_fetch. Qed.

Lemma trace_engage : trace w' = trace w ++ snd (engage env request s).
Proof. apply detect_and_engage_trace. Qed.

(** X12. A message for a session that is not flagged and that the
    classifier does not flag, or for a session whose engagement has
    ended, is answered with the closing line.  The message is still
    appended to the log and its intelligence merged; the count, the
    continuation flag and the report flag stay as they were, and the
    closing line itself is not stored.  The trace gains no event: no
    agent response is counted, no report is started and nothing is
    posted.  (The trace holds the events of the engaging path and of
    [send_final_result] only; the lines that the handler logs on every
    path, on receipt and on closing, are not events of the model.) *)
Theorem closing_reply_when_not_engaging :
  (scam_detected s = false ∧ fst (detect txt) = false)
  ∨ should_continue s = false →
  response = {| status := "success"; reply := closing_reply |}
  ∧ trace w' = trace w
  ∧ messages s' = messages s ++ [message request]
  ∧ intelligence s' = extract (intelligence s) txt
  ∧ engagement_count s' = engagement_count s
  ∧ should_continue s' = should_continue s
  ∧ final_result_sent s' = final_result_sent s
  ∧ scam_detected s' = scam_detected s || fst (detect txt).
Proof.
  intros H.
  assert (engaging request s = false) as He.
  { rewrite engaging_eq. fold txt.
    destruct H as [[-> ->]| ->]; [done|apply andb_false_r]. }
  rewrite response_engage, trace_engage, s'_after.
  rewrite after_log, after_intelligence, after_count, after_continue,
    after_sent, after_detected, He.
  unfold engage. rewrite He. cbn [fst snd andb].
  split_and!; try done. apply app_nil_r.
Qed.

(** X13. Every request appends the inbound message to the log of its
    session, unchanged.  When the agent replies, the reply follows it
    as a message of sender "user" with the text returned to the caller;
    when the closing line is returned, nothing follows. *)
Theorem reply_returned_is_reply_logged :
  ∃ tail,
    messages s' = messages s ++ message request :: tail
    ∧ ((reply response = closing_reply ∧ tail = [])
       ∨ (reply response ≠ closing_reply
          ∧ tail = [{| sender := "user"; text := reply response;
                       timestamp := now env |}])).
Proof.
  rewrite response_engage, s'_after, after_log.
  eexists. split; [reflexivity|].
  unfold engage.
  destruct (engaging request s); [destruct (reporting env request s)|];
    cbn [fst snd reply].
  - right. split; [apply agent_reply_not_closing|done].
  - right. split; [apply agent_reply_not_closing|done].
  - by left.
Qed.

(** X14. The report is started by the request that ends the engagement
    and by no other: the trigger line is logged exactly when
    [should_continue] goes from true to false in this request, at most
    once, and posts are made only after it. *)
Theorem report_started_when_engagement_ends :
  ∃ events,
    trace w' = trace w ++ events
    ∧ (In (TriggerCallback sid) events
       ↔ should_continue s = true ∧ should_continue s' = false)
    ∧ (∀ p, In (Post p) events → In (TriggerCallback sid) events)
    ∧ (length (List.filter
                 (fun e => match e with TriggerCallback _ => true | _ => false end)
                 events) ≤ 1)%nat.
Proof.
  exists (snd (engage env request s)).
  rewrite s'_after, after_continue. split; [apply trace_engage|].
  rewrite (engaging_eq request s). fold txt.
  unfold engage. rewrite (engaging_eq request s). fold txt.
  destruct ((scam_detected s || fst (detect txt)) && should_continue s) eqn:E;
    cbn [andb].
  - apply andb_prop in E as [_ E]. rewrite (reporting_eq _ _ _ E), E.
    destruct (6 <=? engagement_count s)%nat; cbn [fst snd].
    + split_and!.
      * split; [done|]. intros _. right. by left.
      * intros p _. right. by left.
      * cbn [List.filter length]. unfold reported.
        destruct (final_result_sent _); cbn [snd List.filter length]; [lia|].
        generalize (snd (attempts env 0 max_retries)).
        induction n as [|n IH]; cbn [repeat List.filter length]; lia.
    + split_and!.
      * split; [intros [H|[]]; discriminate H|intros [_ H]; discriminate H].
      * intros p [H|[]]. discriminate H.
      * cbn. lia.
  - cbn [snd]. split_and!.
    + split; [intros []|]. intros [H1 H2]. congruence.
    + intros p [].
    + cbn. lia.
Qed.

(** X17. Once a message for a session has been handled, introspection
    of that session succeeds.  When the closing line was returned it
    reports one message more than before and the same number of
    engagements; when the agent replied it reports two messages more
    (the inbound message and the reply) and one engagement more. *)
Theorem status_after_request :
  ∃ st,
    fst (get_session_status sid w') = inr st
    ∧ st_sessionId st = sid
    ∧ ((reply response = closing_reply
        ∧ st_totalMessages st = (length (messages s) + 1)%nat
        ∧ st_engagementCount st = engagement_count s)
       ∨ (reply response ≠ closing_reply
          ∧ st_totalMessages st = (length (messages s) + 2)%nat
          ∧ st_engagementCount st = S (engagement_count s)))
    ∧ st_scamDetected st = scam_detected s || fst (detect txt).
Proof.
  exists (session_status sid s').
  assert (sessions w' !! sid = Some s') as Hl.
  { unfold s', current, w'. rewrite detect_and_engage_sessions.
    rewrite decide_True by done. done. }
  split_and!.
  - unfold get_session_status. by rewrite Hl.
  - done.
  - cbn [st_totalMessages st_engagementCount session_status].
    rewrite response_engage, s'_after, after_log, after_count, length_app.
    unfold engage.
    destruct (engaging request s); [destruct (reporting env request s)|];
      cbn [fst snd reply length].
    + right. split_and!; [apply agent_reply_not_closing|lia|lia].
    + right. split_and!; [apply agent_reply_not_closing|lia|lia].
    + left. split_and!; [done|lia|lia].
  - cbn [st_scamDetected session_status]. rewrite s'_after.
    apply after_detected.
Qed.

End OneRequest.

Lemma closing_reply_when_not_engaging_witness :
  fst (detect_and_engage (env_of TimedOut)
         (from_scammer "session-1" "Hello, how are you today?") empty_world)
  = {| status := "success"; reply := closing_reply |}.
Proof.
  apply (closing_reply_when_not_engaging (env_of TimedOut)
           (from_scammer "session-1" "Hello, how are you today?") empty_world).
  left. split; vm_compute; reflexivity.
Defined.

(** ** The key check *)

Lemma session_path_not_open (session_id : string) :
  existsb (String.eqb ("/session/" +:+ session_id)) open_paths = false.
Proof. reflexivity. Qed.

Lemma get_session_status_unchanged sid w :
  snd (get_session_status sid w) = w.
Proof. unfold get_session_status. by destruct (sessions w !! sid). Qed.

Lemma verify_api_key_rejects {A} secret path key (call_next : M A) w :
  existsb (String.eqb path) open_paths = false →
  key ≠ Some secret →
  verify_api_key secret path key call_next w = (inl invalid_key, w).
Proof.
  intros Hp Hk. unfold verify_api_key. rewrite Hp.
  by rewrite bool_decide_eq_false_2.
Qed.

Lemma verify_api_key_passes {A} secret path (call_next : M A) w :
  verify_api_key secret path (Some secret) call_next w
  = (inr (fst (call_next w)), snd (call_next w)).
Proof.
  unfold verify_api_key.
  rewrite bool_decide_eq_true_2 by done. cbn [negb].
  destruct (existsb _ open_paths); unfold bind; by destruct (call_next w).
Qed.

(** X15. Without the right key (none, or another string) a request to
    [/detect] or to [/session/<id>], for every id, is answered with 401
    and its handler is not run: the store and the log are as before, no
    session is created.  With the right key the handler's answer is
    passed on with the handler's effect; [/health] is answered without
    any key. *)
Theorem handlers_run_only_with_key :
  ∀ (secret : string) (key : option string) (session_id : string)
    (env : Env) (request : HoneypotRequest) (w : World),
    key ≠ Some secret →
    verify_api_key secret "/detect" key (detect_and_engage env request) w
      = (inl invalid_key, w)
    ∧ verify_api_key secret ("/session/" +:+ session_id) key
        (get_session_status session_id) w
      = (inl invalid_key, w)
    ∧ verify_api_key secret "/detect" (Some secret)
        (detect_and_engage env request) w
      = (inr (fst (detect_and_engage env request w)),
         snd (detect_and_engage env request w))
    ∧ verify_api_key secret ("/session/" +:+ session_id) (Some secret)
        (get_session_status session_id) w
      = (inr (fst (get_session_status session_id w)), w)
    ∧ verify_api_key secret "/health" key health_check w
      = (inr [("status", "healthy"); ("service", "Agentic Honey-Pot API")], w).
Proof.
  intros secret key sid env request w Hk. split_and!.
  - by apply verify_api_key_rejects.
  - apply verify_api_key_rejects; [apply session_path_not_open|done].
  - apply verify_api_key_passes.
  - rewrite verify_api_key_passes. f_equal.
    apply get_session_status_unchanged.
  - reflexivity.
Qed.

Lemma handlers_run_only_with_key_witness :
  snd (verify_api_key "s3cret" "/detect" None
         (detect_and_engage (env_of TimedOut)
            (from_scammer "session-1" "Your bank account is blocked"))
         empty_world)
  = empty_world.
Proof.
  pose proof (handlers_run_only_with_key "s3cret" None "session-1"
                (env_of TimedOut)
                (from_scammer "session-1" "Your bank account is blocked")
                empty_world) as H.
  destruct H as [H _]; [discriminate|].
  by rewrite H.
Defined.

(** ** The conversation context *)

Lemma skipn_last_three {A} (h last3 : list A) :
  length last3 = 3%nat →
  skipn (length (h ++ last3) - 3) (h ++ last3) = last3.
Proof.
  intros H. rewrite length_app, H.
  replace (length h + 3 - 3)%nat with (length h) by lia.
  apply drop_app_length.
Qed.

Lemma fold_context_lines (l : list Message) : ∀ context : string,
  fold_left (fun context msg => context +:+ context_line (sender msg) (text msg))
    l context
  = context +:+ context_lines l.
Proof.
  induction l as [|msg l IH]; intros context; cbn [fold_left context_lines].
  - clear. induction context as [|x context IH]; [done|].
    rewrite append_cons. by rewrite <- IH.
  - by rewrite IH, append_assoc.
Qed.

(** X16. [_build_context] reads the last three messages of the history
    only.  Every history splits into a front and the messages that are
    read: the whole history when it has at most three messages (none,
    one or two included), its last three otherwise.  The context is the
    lines of the messages read, in order, followed by the line of the
    current message, whatever the front is. *)
Theorem build_context_last_three :
  (∀ history : list Message,
     ∃ front last3,
       history = front ++ last3
       ∧ length last3 = Nat.min 3 (length history)
       ∧ (front = [] ∨ length last3 = 3%nat))
  ∧ (∀ (front last3 : list Message) (current : string),
       (length last3 ≤ 3)%nat →
       front = [] ∨ length last3 = 3%nat →
       _build_context (front ++ last3) current
       = context_lines last3 +:+ "scammer: " +:+ current +:+ newline).
Proof.
  split.
  - intros history.
    exists (firstn (length history - 3) history),
           (skipn (length history - 3) history).
    split_and!.
    + by rewrite firstn_skipn.
    + rewrite length_skipn. lia.
    + destruct (le_lt_dec (length history) 3) as [Hle|Hlt].
      * left. by replace (length history - 3)%nat with 0%nat by lia.
      * right. rewrite length_skipn. lia.
  - intros front last3 cur Hle H. unfold _build_context.
    assert (skipn (length (front ++ last3) - 3) (front ++ last3) = last3)
      as ->.
    { destruct H as [-> | H3]; [|by apply skipn_last_three].
      cbn [app]. by replace (length last3 - 3)%nat with 0%nat by lia. }
    rewrite fold_context_lines. reflexivity.
Qed.

Lemma build_context_last_three_witness :
  let m (who what : string) :=
    {| sender := who; text := what; timestamp := 0 |} in
  _build_context
    [m "scammer" "one"; m "user" "two"; m "scammer" "three"; m "user" "four"]
    "five"
  = context_lines [m "user" "two"; m "scammer" "three"; m "user" "four"]
    +:+ "scammer: " +:+ "five" +:+ newline
  ∧ _build_context [m "scammer" "one"] "two"
    = context_lines [m "scammer" "one"] +:+ "scammer: " +:+ "two" +:+ newline
  ∧ _build_context [] "one" = "scammer: " +:+ "one" +:+ newline.
Proof.
  intros m. split; [|split].
  - apply (proj2 build_context_last_three [m "scammer" "one"]
             [m "user" "two"; m "scammer" "three"; m "user" "four"] "five").
    + vm_compute. lia.
    + right. reflexivity.
  - apply (proj2 build_context_last_three [] [m "scammer" "one"] "two").
    + vm_compute. lia.
    + left. reflexivity.
  - apply (proj2 build_context_last_three [] [] "one").
    + vm_compute. lia.
    + left. reflexivity.
Defined.

(** ** Edge cases *)

Lemma nothing_in_empty_text :
  List.map strip_separators
    (findall Patterns.card16 EmptyString
     ++ findall Patterns.account_digits EmptyString
     ++ findall Patterns.ifsc (Str.upper EmptyString)) = []
  ∧ concat (List.map (fun pattern => findall pattern (Str.lower EmptyString))
              Patterns.upi_patterns) = []
  ∧ findall Patterns.url_scheme EmptyString
    ++ findall Patterns.url_www EmptyString
    ++ findall Patterns.url_domain EmptyString = []
  ∧ findall Patterns.phone_in EmptyString
    ++ findall Patterns.phone_intl EmptyString
    ++ findall Patterns.phone_bare EmptyString
    ++ findall Patterns.phone_zero EmptyString = []
  ∧ List.filter (fun word => Str.contains word (Str.lower EmptyString))
      suspicious_words = [].
Proof. vm_compute. done. Qed.

Lemma extract_empty_text intel :
  NoDup (bankAccounts intel) → NoDup (upiIds intel) →
  NoDup (phishingLinks intel) → NoDup (phoneNumbers intel) →
  NoDup (suspiciousKeywords intel) →
  extract intel EmptyString = intel.
Proof.
  intros H1 H2 H3 H4 H5.
  destruct nothing_in_empty_text as (E1 & E2 & E3 & E4 & E5).
  unfold extract. cbv zeta. rewrite fold_findall_app.
  rewrite E1, E2, E3, E4, E5, !app_nil_r, !fromkeys_fixed by done.
  by destruct intel.
Qed.

(** X18. An empty text adds nothing: [update_intelligence] with the
    empty string leaves the world exactly as it was when the session
    exists and its lists are free of duplicates (as they are after any
    earlier call of the function). *)
Theorem empty_text_adds_nothing :
  ∀ (session_id : string) (w : World) (s : Session),
    sessions w !! session_id = Some s →
    NoDup (bankAccounts (intelligence s)) →
    NoDup (upiIds (intelligence s)) →
    NoDup (phishingLinks (intelligence s)) →
    NoDup (phoneNumbers (intelligence s)) →
    NoDup (suspiciousKeywords (intelligence s)) →
    update_intelligence session_id EmptyString w = (tt, w).
Proof.
  intros sid w s Hs H1 H2 H3 H4 H5.
  rewrite update_intelligence_fetch.
  assert (current w sid = s) as -> by (unfold current; by rewrite Hs).
  rewrite extract_empty_text by done.
  assert (set_intelligence (intelligence s) s = s) as -> by (by destruct s).
  unfold at_session. rewrite insert_id by done. by destruct w.
Qed.

Lemma empty_text_adds_nothing_witness :
  let w :=
    snd (update_intelligence "session-1" "Pay scammer@ybl or call 9876543210"
           empty_world) in
  update_intelligence "session-1" EmptyString w = (tt, w).
Proof.
  intros w.
  apply (empty_text_adds_nothing "session-1" w (current w "session-1"));
    [vm_compute; reflexivity|..];
    subst w; rewrite update_intelligence_current; apply fromkeys_NoDup.
Defined.

(** ** The range of the score *)

Lemma count_in_bound words t : (count_in words t ≤ length words)%nat.
Proof. unfold count_in. apply List.filter_length_le. Qed.

(** X19. The heuristic score is a whole number of halves between 0 and
    93: each vocabulary word counts once however often it occurs, so
    the four counts are bounded by the sizes of the vocabularies (11,
    10, 10, 10) and the bonuses by 6.  The floating-point sum Python
    computes is therefore exact. *)
Theorem scam_score_range :
  ∀ text : string,
    ∃ halves : nat,
      (scam_score text == inject_Z (Z.of_nat halves) / 2)%Q
      ∧ (halves ≤ 186)%nat.
Proof.
  intros text. unfold scam_score. cbv zeta.
  set (t := Str.lower text).
  pose proof (count_in_bound urgency_words t) as Hu.
  pose proof (count_in_bound threat_words t) as Ht.
  pose proof (count_in_bound action_words t) as Ha.
  pose proof (count_in_bound request_words t) as Hr.
  cbn [length urgency_words threat_words action_words request_words]
    in Hu, Ht, Ha, Hr.
  set (u := count_in urgency_words t) in *.
  set (th := count_in threat_words t) in *.
  set (a := count_in action_words t) in *.
  set (r := count_in request_words t) in *.
  exists (4 * u + 6 * th + 3 * a + 4 * r
          + (if search url_like t then 6 else 0)
          + (if search upi_like t then 4 else 0)
          + (if search phone_like text then 2 else 0))%nat.
  split.
  - unfold qnat, bonus.
    destruct (search url_like t), (search upi_like t),
      (search phone_like text);
      rewrite !Nat2Z.inj_add, !Nat2Z.inj_mul, !inject_Z_plus, !inject_Z_mult;
      cbn [Z.of_nat Pos.of_succ_nat Pos.succ]; field.
  - destruct (search url_like t), (search upi_like t),
      (search phone_like text); lia.
Qed.

(** ** Engaging, and what is never taken back *)

Section Engaged.

Variable env : Env.
Variable request : HoneypotRequest.
Variable w : World.

Let sid := sessionId request.
Let txt := text (message request).
Let s := current w sid.
Let response := fst (detect_and_engage env request w).
Let w' := snd (detect_and_engage env request w).
Let s' := current w' sid.

(** X20. While the engagement of a flagged session continues, every
    message is answered by the agent, whatever its text and whatever the
    classifier says about it: the reply is drawn from the pool of the
    stage the count designates and is not the closing line, the count
    goes up by one, and the reply is logged under its new number.  The
    same holds for the message that gets an unflagged session
    flagged. *)
Theorem flagged_session_keeps_engaging :
  scam_detected s = true ∨ fst (detect txt) = true →
  should_continue s = true →
  status response = "success"
  ∧ In (reply response)
       (Spec.pool (Spec.stage (engagement_count s)) (scam_type s') txt)
  ∧ reply response ≠ closing_reply
  ∧ engagement_count s' = S (engagement_count s)
  ∧ scam_detected s' = true
  ∧ ∃ more,
      trace w' = trace w ++ AgentResponse sid (S (engagement_count s)) :: more.
Proof.
  intros Hd Hc.
  assert (scam_detected s || fst (detect txt) = true) as Hd'
    by (destruct Hd as [-> | ->]; [done|apply orb_true_r]).
  assert (engaging request s = true) as He.
  { rewrite engaging_eq. fold txt. by rewrite Hd', Hc. }
  assert (fst (fst (engage env request s))
          = {| status := "success"; reply := agent_reply env request s |}
          ∧ ∃ more,
              snd (engage env request s)
              = AgentResponse sid (S (engagement_count s)) :: more)
    as [Hr [more Hm]].
  { unfold engage. rewrite He, replied_count.
    destruct (reporting env request s); cbn [fst snd]; eauto. }
  assert (s' = after env request s) as -> by apply detect_and_engage_current.
  assert (trace w' = trace w ++ snd (engage env request s)) as ->
    by apply detect_and_engage_trace.
  assert (response = fst (fst (engage env request s))) as ->
    by (unfold response; by rewrite detect_and_engage_fetch).
  rewrite after_count, after_detected, after_type_any.
  rewrite <- (classified_type request s), He, Hr, Hm. fold txt.
  cbn [status reply].
  split_and!; try done.
  - unfold agent_reply. cbv zeta. rewrite classified_count.
    apply random_choice_In, pool_nonempty.
  - apply agent_reply_not_closing.
  - by exists more.
Qed.

End Engaged.

Lemma flagged_session_keeps_engaging_witness :
  let w1 :=
    snd (run (conversation TimedOut ["Your bank account will be blocked"])
           empty_world) in
  reply (fst (detect_and_engage (env_of TimedOut)
                (from_scammer "session-1" "Hello, how are you today?") w1))
  ≠ closing_reply.
Proof.
  intros w1.
  apply (flagged_session_keeps_engaging (env_of TimedOut)
           (from_scammer "session-1" "Hello, how are you today?") w1).
  - left. vm_compute. reflexivity.
  - vm_compute. reflexivity.
Defined.

Lemma extract_keeps intel text :
  (∀ x, In x (bankAccounts intel) → In x (bankAccounts (extract intel text)))
  ∧ (∀ x, In x (upiIds intel) → In x (upiIds (extract intel text)))
  ∧ (∀ x, In x (phishingLinks intel) → In x (phishingLinks (extract intel text)))
  ∧ (∀ x, In x (phoneNumbers intel) → In x (phoneNumbers (extract intel text)))
  ∧ (∀ x, In x (suspiciousKeywords intel) →
          In x (suspiciousKeywords (extract intel text))).
Proof.
  unfold extract.
  cbn [bankAccounts upiIds phishingLinks phoneNumbers suspiciousKeywords].
  rewrite fold_findall_app.
  split_and!; intros x Hx; apply fromkeys_In, in_app_iff; by left.
Qed.

Lemma grown_refl s : grown s s.
Proof. unfold grown. split_and!; done. Qed.

Lemma grown_trans s1 s2 s3 : grown s1 s2 → grown s2 s3 → grown s1 s3.
Proof.
  intros (A1 & A2 & A3 & A4 & A5 & A6 & A7 & A8 & A9 & A10)
         (B1 & B2 & B3 & B4 & B5 & B6 & B7 & B8 & B9 & B10).
  unfold grown. split_and!; try (by etrans); auto.
Qed.

Lemma after_grown env request s : grown s (after env request s).
Proof.
  unfold grown.
  rewrite after_log, after_count, after_detected, after_continue, after_sent,
    after_intelligence.
  destruct (extract_keeps (intelligence s) (text (message request)))
    as (K1 & K2 & K3 & K4 & K5).
  split_and!; try done.
  - by eexists.
  - destruct (engaging request s); lia.
  - by intros ->.
  - intros ->. by destruct (_ && _).
  - intros ->. by destruct (_ && _).
Qed.

(** X21. Nothing is taken back from a session: over any sequence of
    requests, for this or other sessions, the message log only gets
    longer at its end, the engagement count does not go down, the scam
    flag once set stays set, an ended engagement stays ended, a
    delivered report stays delivered, and every entry of the five
    intelligence lists stays in its list. *)
Theorem sessions_only_grow :
  ∀ (calls : list (Env * HoneypotRequest)) (w : World) (session_id : string),
    grown (current w session_id) (current (snd (run calls w)) session_id).
Proof.
  induction calls as [|[env request] calls IH]; intros w sid.
  - apply grown_refl.
  - rewrite run_cons. cbn [snd].
    eapply grown_trans; [|apply IH].
    unfold current at 2. rewrite detect_and_engage_sessions.
    destruct (decide (sessionId request = sid)) as [<-|Hne].
    + apply after_grown.
    + apply grown_refl.
Qed.

Lemma sessions_only_grow_witness :
  let calls := conversation TimedOut seven_messages in
  let w3 := snd (run (take 3 calls) empty_world) in
  scam_detected (current (snd (run (drop 3 calls) w3)) "session-1") = true
  ∧ In "otp"
       (suspiciousKeywords
          (intelligence (current (snd (run (drop 3 calls) w3)) "session-1"))).
Proof.
  intros calls w3.
  pose proof (sessions_only_grow (drop 3 calls) w3 "session-1") as H.
  destruct H as (_ & _ & Hd & _ & _ & _ & _ & _ & _ & Hk).
  split.
  - apply Hd. vm_compute. reflexivity.
  - apply Hk. vm_compute. do 5 right. left. reflexivity.
Defined.

Lemma intelligence_only_grows_witness :
  let w1 :=
    snd (update_intelligence "session-1" "Pay scammer@ybl" empty_world) in
  let w2 := snd (update_intelligence "session-1" "or a.b@paytm" w1) in
  In "scammer@ybl" (upiIds (intelligence (current w2 "session-1")))
  ∧ ∃ added,
      upiIds (intelligence (current w2 "session-1"))
      = upiIds (intelligence (current w1 "session-1")) ++ added.
Proof.
  intros w1 w2.
  pose proof (intelligence_only_grows "session-1" "or a.b@paytm" w1) as H.
  destruct H as (_ & [Hin Hpre] & _).
  split.
  - apply Hin. vm_compute. left. reflexivity.
  - apply Hpre. subst w1. rewrite update_intelligence_current.
    apply fromkeys_NoDup.
Defined.

Lemma report_started_when_engagement_ends_witness :
  let calls := conversation TimedOut seven_messages in
  let w6 := snd (run (take 6 calls) empty_world) in
  let request := from_scammer "session-1" "Share the OTP now" in
  ∃ events,
    trace (snd (detect_and_engage (env_of TimedOut) request w6))
    = trace w6 ++ events
    ∧ In (TriggerCallback "session-1") events.
Proof.
  intros calls w6 request.
  destruct (report_started_when_engagement_ends (env_of TimedOut) request w6)
    as (events & Ht & Hiff & _).
  exists events. split; [exact Ht|].
  apply Hiff. split; vm_compute; reflexivity.
Defined.
